(** * Resume PDF endpoint: document assembly pipeline

    A shallow embedding of the request handler of the resume generator
    (profile store, template registry, content normaliser, experience
    merge, rasteriser session, file name derivation), followed by the
    properties of the specification that are stated about it.

    Strings are sequences of code units; the embedding covers the code
    units below 256 ([ascii]). *)

From Stdlib Require Import ZArith Ascii String List Bool Lia.
From stdpp Require Import base option gmap strings.

Import ListNotations.
Set Warnings "-register-all".
Local Open Scope string_scope.
Local Open Scope Z_scope.

(* ===================================================================== *)
(** ** JavaScript values, as far as the handler meets them *)
(* ===================================================================== *)

Module JS.

(** A value obtained from [JSON.parse] or from a missing property.
    A number literal is kept as the exact decimal [m * 10^e] it denotes. *)
Inductive JValue : Type :=
| JUndefined
| JNull
| JBool (b : bool)
| JNum (m e : Z)
| JStr (s : string)
| JArr (l : list JValue)
| JObj (fields : list (string * JValue)).

(** Errors that can be thrown; [message] is what [err.message] reads.
    The texts of the errors that the engine itself throws are indicative. *)
Inductive exn : Type :=
| Error (msg : string)
| TypeError (msg : string)
| SyntaxError (msg : string)
| RangeError (msg : string).

Definition message (e : exn) : string :=
  match e with
  | Error m | TypeError m | SyntaxError m | RangeError m => m
  end.

(** Outcome of an expression that may throw. *)
Inductive res (A : Type) : Type :=
| Ok (a : A)
| Throw (e : exn).
Arguments Ok {A} a.
Arguments Throw {A} e.

#[global] Instance res_ret : MRet res := fun A a => Ok a.

#[global] Instance res_bind : MBind res := fun A B k r =>
  match r with
  | Ok a => k a
  | Throw e => Throw e
  end.

(** The number [m * 10^e] converts to a double different from zero unless
    it is at most [2^-1075] in magnitude (round to nearest, ties to even). *)
Definition num_nonzero (m e : Z) : bool :=
  if m =? 0 then false
  else if 0 <=? e then true
  else negb (Z.abs m * 2 ^ 1075 <=? 10 ^ (- e)).

(** [ToBoolean]: what [!v] and [v || w] test. *)
Definition truthy (v : JValue) : bool :=
  match v with
  | JUndefined | JNull => false
  | JBool b => b
  | JNum m e => num_nonzero m e
  | JStr s => negb (String.eqb s EmptyString)
  | JArr _ | JObj _ => true
  end.

(** [a || b] *)
Definition or_else (a b : JValue) : JValue :=
  if truthy a then a else b.

Definition nullish (v : JValue) : bool :=
  match v with
  | JUndefined | JNull => true
  | _ => false
  end.

(** Own property of an object built by [JSON.parse]. *)
Fixpoint lookup_field (k : string) (fields : list (string * JValue))
  : option JValue :=
  match fields with
  | [] => None
  | (k', v) :: rest => if String.eqb k k' then Some v else lookup_field k rest
  end.

(** [v.k] for a data key [k] (a key that no prototype defines: the handler
    reads only such keys from parsed data).  Reading a property of
    [null] or [undefined] throws. *)
Definition get_prop (v : JValue) (k : string) : res JValue :=
  match v with
  | JUndefined =>
      Throw (TypeError ("Cannot read properties of undefined (reading '"
                          +:+ k +:+ "')"))
  | JNull =>
      Throw (TypeError ("Cannot read properties of null (reading '"
                          +:+ k +:+ "')"))
  | JObj fields => Ok (default JUndefined (lookup_field k fields))
  | _ => Ok JUndefined
  end.

(** [v?.k] *)
Definition get_opt (v : JValue) (k : string) : JValue :=
  match v with
  | JObj fields => default JUndefined (lookup_field k fields)
  | _ => JUndefined
  end.

(** [a[i]] on an array value; out of range reads give [undefined]. *)
Definition index (a : list JValue) (i : nat) : JValue :=
  nth i a JUndefined.

End JS.

(* ===================================================================== *)
(** ** String primitives: [trim], [indexOf], [lastIndexOf], [substring] *)
(* ===================================================================== *)

Module Str.

Definition code (c : ascii) : nat := nat_of_ascii c.

(** The double quote character. *)
Definition dquote : ascii := ascii_of_nat 34.

(** White space and line terminators: what [\s] matches and [trim] strips
    (tab, line feed, vertical tab, form feed, carriage return, space,
    no-break space). *)
Definition is_space (c : ascii) : bool :=
  let n := code c in
  ((9 <=? n) && (n <=? 13) || (n =? 32) || (n =? 160))%nat.

Definition is_digit (c : ascii) : bool :=
  let n := code c in ((48 <=? n) && (n <=? 57))%nat.

Definition is_upper (c : ascii) : bool :=
  let n := code c in ((65 <=? n) && (n <=? 90))%nat.

Definition is_lower (c : ascii) : bool :=
  let n := code c in ((97 <=? n) && (n <=? 122))%nat.

Definition to_lower (c : ascii) : ascii :=
  if is_upper c then ascii_of_nat (code c + 32) else c.

Fixpoint trimStart (s : string) : string :=
  match s with
  | String c s' => if is_space c then trimStart s' else s
  | EmptyString => EmptyString
  end.

Fixpoint trimEnd (s : string) : string :=
  match s with
  | String c s' =>
      match trimEnd s' with
      | EmptyString => if is_space c then EmptyString else String c EmptyString
      | t => String c t
      end
  | EmptyString => EmptyString
  end.

Definition trim (s : string) : string := trimEnd (trimStart s).

(** [s.indexOf(c)]: index of the first occurrence, [-1] when there is none. *)
Fixpoint indexOf (c : ascii) (s : string) : Z :=
  match s with
  | EmptyString => -1
  | String d s' =>
      if Ascii.eqb d c then 0
      else let i := indexOf c s' in if i =? -1 then -1 else i + 1
  end.

(** [s.lastIndexOf(c)]: index of the last occurrence, [-1] when none. *)
Fixpoint lastIndexOf (c : ascii) (s : string) : Z :=
  match s with
  | EmptyString => -1
  | String d s' =>
      let i := lastIndexOf c s' in
      if i =? -1 then (if Ascii.eqb d c then 0 else -1) else i + 1
  end.

(** [s.substring(a, b)] for [0 <= a <= b]. *)
Definition substring (a b : Z) (s : string) : string :=
  String.substring (Z.to_nat a) (Z.to_nat (b - a)) s.

(** Decimal numeral of a natural number, as string concatenation prints it. *)
Definition digit_char (n : nat) : ascii := ascii_of_nat (48 + n mod 10).

Fixpoint decimal_aux (fuel n : nat) (acc : string) : string :=
  match fuel with
  | O => acc
  | S fuel' =>
      let acc' := String (digit_char n) acc in
      if (n <? 10)%nat then acc' else decimal_aux fuel' (n / 10)%nat acc'
  end.

Definition decimal (n : nat) : string := decimal_aux (S n) n EmptyString.

End Str.

(* ===================================================================== *)
(** ** Regular expressions and [String.prototype.replace] with flag [g] *)
(* ===================================================================== *)

Module Regex.

(** The fragment of the pattern language the handler uses.  Repetition is
    over a character class, which is all the handler's patterns need;
    flag [i] is folded into the classes. *)
Inductive regex : Type :=
| Cls (p : ascii -> bool)          (* one character of a class *)
| Seq (r1 r2 : regex)              (* r1 r2 *)
| Alt (r1 r2 : regex)              (* r1 | r2 *)
| Empty                            (* the empty pattern *)
| Star (p : ascii -> bool)         (* p*, greedy *)
| Bol                              (* ^ *)
| Eol                              (* $ *)
| Cap (r : regex).                 (* ( r ), capture group 1 *)

Definition Chr (c : ascii) : regex := Cls (Ascii.eqb c).
Definition ChrI (c : ascii) : regex :=
  Cls (fun d => Ascii.eqb (Str.to_lower d) (Str.to_lower c)).
Definition Plus (p : ascii -> bool) : regex := Seq (Cls p) (Star p).
Definition Opt (r : regex) : regex := Alt r Empty.

(** A literal word, and the same under flag [i]. *)
Fixpoint Word (w : string) : regex :=
  match w with
  | EmptyString => Empty
  | String c w' => Seq (Chr c) (Word w')
  end.

Fixpoint WordI (w : string) : regex :=
  match w with
  | EmptyString => Empty
  | String c w' => Seq (ChrI c) (WordI w')
  end.

(** Result of a match attempt: the text left after the match and the
    text captured by group 1. *)
Definition found : Type := string * option string.

(** The prefix of [s] that was consumed to reach its suffix [rest]. *)
Definition consumed (s rest : string) : string :=
  String.substring 0 (String.length s - String.length rest) s.

(** Backtracking matcher in continuation style: alternatives are tried
    left to right, repetition takes as much as it can and gives back.
    [at0] tells whether the current position is index 0 of the subject. *)
Fixpoint rmatch (r : regex) (at0 : bool) (s : string) (cap : option string)
    (k : bool -> string -> option string -> option found) : option found :=
  match r with
  | Cls p =>
      match s with
      | String c s' => if p c then k false s' cap else None
      | EmptyString => None
      end
  | Seq r1 r2 =>
      rmatch r1 at0 s cap (fun at0' s' cap' => rmatch r2 at0' s' cap' k)
  | Alt r1 r2 =>
      match rmatch r1 at0 s cap k with
      | Some f => Some f
      | None => rmatch r2 at0 s cap k
      end
  | Empty => k at0 s cap
  | Star p =>
      (fix star (at0 : bool) (s : string) : option found :=
         match s with
         | String c s' =>
             if p c then
               match star false s' with
               | Some f => Some f
               | None => k at0 s cap
               end
             else k at0 s cap
         | EmptyString => k at0 s cap
         end) at0 s
  | Bol => if at0 then k at0 s cap else None
  | Eol => match s with EmptyString => k at0 s cap | _ => None end
  | Cap r1 =>
      rmatch r1 at0 s cap (fun at0' s' _ => k at0' s' (Some (consumed s s')))
  end.

(** One match attempt at the current position. *)
Definition match_here (r : regex) (at0 : bool) (s : string) : option found :=
  rmatch r at0 s None (fun _ rest cap => Some (rest, cap)).

(** [subject.replace(/r/g, repl)]: scan left to right; at each position
    not inside the previous match try the pattern; a match is replaced and
    scanning resumes after it (one character further after an empty
    match).  [skip] counts the characters of the current match that are
    still to be passed over. *)
Fixpoint scan (r : regex) (repl : option string -> string)
    (at0 : bool) (skip : nat) (s : string) : string :=
  match skip with
  | S n =>
      match s with
      | String _ s' => scan r repl false n s'
      | EmptyString => EmptyString
      end
  | O =>
      match match_here r at0 s with
      | Some (rest, cap) =>
          let n := (String.length s - String.length rest)%nat in
          repl cap +:+
            match s with
            | EmptyString => EmptyString
            | String c s' =>
                match n with
                | O => String c (scan r repl false 0 s')
                | S n' => scan r repl false n' s'
                end
            end
      | None =>
          match s with
          | EmptyString => EmptyString
          | String c s' => String c (scan r repl false 0 s')
          end
      end
  end.

Definition replace_all (r : regex) (repl : option string -> string)
    (s : string) : string :=
  scan r repl true 0 s.

(** Replacement texts: a constant, and ['$1']. *)
Definition const (t : string) : option string -> string := fun _ => t.
Definition group1 : option string -> string := fun cap => default EmptyString cap.

End Regex.

(* ===================================================================== *)
(** ** [JSON.parse] *)
(* ===================================================================== *)

Module JSON.
Import JS.

(** Why a text is rejected: the offending character with the length of
    the text from that character on, or the end of the text.  [Depth] is
    the parser running out of recursion depth, which the depth given by
    [parse] excludes. *)
Inductive perr : Type :=
| UnexpectedToken (c : ascii) (remaining : nat)
| UnexpectedEnd
| Depth.

Inductive pres (A : Type) : Type :=
| POk (a : A)
| PErr (e : perr).
Arguments POk {A} a.
Arguments PErr {A} e.

#[global] Instance pres_bind : MBind pres := fun A B k r =>
  match r with
  | POk a => k a
  | PErr e => PErr e
  end.

Definition unexpected {A : Type} (s : string) : pres A :=
  match s with
  | EmptyString => PErr UnexpectedEnd
  | String c _ => PErr (UnexpectedToken c (String.length s))
  end.

(** JSON white space: space, tab, line feed, carriage return. *)
Definition is_ws (c : ascii) : bool :=
  let n := Str.code c in ((n =? 32) || (n =? 9) || (n =? 10) || (n =? 13))%nat.

Fixpoint skip_ws (s : string) : string :=
  match s with
  | String c s' => if is_ws c then skip_ws s' else s
  | EmptyString => EmptyString
  end.

Definition hexval (c : ascii) : option nat :=
  let n := Str.code c in
  if Str.is_digit c then Some (n - 48)%nat
  else if ((97 <=? n) && (n <=? 102))%nat then Some (n - 87)%nat
  else if ((65 <=? n) && (n <=? 70))%nat then Some (n - 55)%nat
  else None.

(** The code unit of a [\uXXXX] escape; a code unit above 255 has no
    [ascii] and is stored as ['?']. *)
Definition unit_char (n : nat) : ascii :=
  if (n <? 256)%nat then ascii_of_nat n else "?"%char.

Definition simple_escape (c : ascii) : option ascii :=
  if Ascii.eqb c Str.dquote then Some Str.dquote
  else if Ascii.eqb c "\" then Some "\"%char
  else if Ascii.eqb c "/" then Some "/"%char
  else if Ascii.eqb c "b" then Some (ascii_of_nat 8)
  else if Ascii.eqb c "f" then Some (ascii_of_nat 12)
  else if Ascii.eqb c "n" then Some (ascii_of_nat 10)
  else if Ascii.eqb c "r" then Some (ascii_of_nat 13)
  else if Ascii.eqb c "t" then Some (ascii_of_nat 9)
  else None.

Definition cons_char (c : ascii) (r : pres (string * string))
  : pres (string * string) :=
  match r with
  | POk (t, rest) => POk (String c t, rest)
  | PErr e => PErr e
  end.

(** The characters of a string literal after its opening quote, and the
    text after its closing quote. *)
Fixpoint lex_string (s : string) : pres (string * string) :=
  match s with
  | EmptyString => PErr UnexpectedEnd
  | String c s' =>
      if Ascii.eqb c Str.dquote then POk (EmptyString, s')
      else if Ascii.eqb c "\" then
        match s' with
        | EmptyString => PErr UnexpectedEnd
        | String e s2 =>
            match simple_escape e with
            | Some x => cons_char x (lex_string s2)
            | None =>
                if Ascii.eqb e "u" then
                  match s2 with
                  | EmptyString => PErr UnexpectedEnd
                  | String h1 s3 =>
                  match hexval h1, s3 with
                  | None, _ => unexpected s2
                  | Some _, EmptyString => PErr UnexpectedEnd
                  | Some a, String h2 s4 =>
                  match hexval h2, s4 with
                  | None, _ => unexpected s3
                  | Some _, EmptyString => PErr UnexpectedEnd
                  | Some b, String h3 s5 =>
                  match hexval h3, s5 with
                  | None, _ => unexpected s4
                  | Some _, EmptyString => PErr UnexpectedEnd
                  | Some c', String h4 s6 =>
                  match hexval h4 with
                  | None => unexpected s5
                  | Some d =>
                      cons_char
                        (unit_char (((a * 16 + b) * 16 + c') * 16 + d))
                        (lex_string s6)
                  end end end end end
                else unexpected s'
            end
        end
      else if (Str.code c <? 32)%nat then unexpected s
      else cons_char c (lex_string s')
  end.

(** Leading decimal digits and the text after them. *)
Fixpoint span_digits (s : string) : string * string :=
  match s with
  | String c s' =>
      if Str.is_digit c
      then let (ds, rest) := span_digits s' in (String c ds, rest)
      else (EmptyString, s)
  | EmptyString => (EmptyString, EmptyString)
  end.

Fixpoint digits_value (acc : Z) (ds : string) : Z :=
  match ds with
  | String c ds' => digits_value (acc * 10 + Z.of_nat (Str.code c - 48)) ds'
  | EmptyString => acc
  end.

(** Optional fraction [. digits]: its digits and the text after. *)
Definition lex_fraction (s : string) : pres (string * string) :=
  match s with
  | String c t =>
      if Ascii.eqb c "." then
        match span_digits t with
        | (EmptyString, _) => unexpected t
        | (fs, rest) => POk (fs, rest)
        end
      else POk (EmptyString, s)
  | EmptyString => POk (EmptyString, s)
  end.

(** Optional sign of an exponent. *)
Definition lex_sign (s : string) : bool * string :=
  match s with
  | String c t =>
      if Ascii.eqb c "-" then (true, t)
      else if Ascii.eqb c "+" then (false, t)
      else (false, s)
  | EmptyString => (false, s)
  end.

(** Optional exponent [e|E (+|-)? digits]: its value and the text after. *)
Definition lex_exponent (s : string) : pres (Z * string) :=
  match s with
  | String c t =>
      if Ascii.eqb c "e" || Ascii.eqb c "E" then
        let (neg, t') := lex_sign t in
        match span_digits t' with
        | (EmptyString, _) => unexpected t'
        | (es, rest) =>
            let v := digits_value 0 es in
            POk (if neg then - v else v, rest)
        end
      else POk (0, s)
  | EmptyString => POk (0, s)
  end.

(** The digits of a number literal after its sign: [0] or a digit string
    without leading zero, then an optional fraction and exponent. *)
Definition lex_unsigned (neg : bool) (s : string) : pres (JValue * string) :=
  match s with
  | EmptyString => PErr UnexpectedEnd
  | String c t =>
      if Str.is_digit c then
        let (ds, s2) :=
          if Ascii.eqb c "0" then (EmptyString, t) else span_digits t in
        '(fs, s3) ← lex_fraction s2;
        '(ex, s4) ← lex_exponent s3;
        let m := digits_value 0 (String c ds +:+ fs) in
        POk (JNum (if neg then - m else m)
                  (ex - Z.of_nat (String.length fs)), s4)
      else unexpected s
  end.

(** A number literal, with its optional minus sign. *)
Definition lex_number (s : string) : pres (JValue * string) :=
  match s with
  | String c t =>
      if Ascii.eqb c "-" then lex_unsigned true t else lex_unsigned false s
  | EmptyString => PErr UnexpectedEnd
  end.

(** A keyword [w] denoting [v]. *)
Fixpoint lex_word (w : string) (v : JValue) (s : string)
  : pres (JValue * string) :=
  match w with
  | EmptyString => POk (v, s)
  | String c w' =>
      match s with
      | String d s' => if Ascii.eqb c d then lex_word w' v s' else unexpected s
      | EmptyString => PErr UnexpectedEnd
      end
  end.

(** [o[k] = v] while an object is built: a repeated key keeps its place
    and takes the later value. *)
Fixpoint set_field (k : string) (v : JValue) (fields : list (string * JValue))
  : list (string * JValue) :=
  match fields with
  | [] => [(k, v)]
  | (k', v') :: rest =>
      if String.eqb k k' then (k', v) :: rest
      else (k', v') :: set_field k v rest
  end.

(** The text after the character [c] when [s] starts with it. *)
Definition after (c : ascii) (s : string) : option string :=
  match s with
  | String d t => if Ascii.eqb d c then Some t else None
  | EmptyString => None
  end.

(** Recursive descent; [depth] bounds the number of nested calls.
    [parse_elements] reads values separated by commas up to the closing
    bracket, [parse_members] reads [key : value] pairs separated by commas
    up to the closing brace. *)
Fixpoint parse_value (depth : nat) (s : string) : pres (JValue * string) :=
  match depth with
  | O => PErr Depth
  | S depth' =>
      match skip_ws s with
      | EmptyString => PErr UnexpectedEnd
      | String c t as s0 =>
          if Ascii.eqb c "{" then
            match after "}" (skip_ws t) with
            | Some t' => POk (JObj [], t')
            | None => parse_members depth' [] (skip_ws t)
            end
          else if Ascii.eqb c "[" then
            match after "]" (skip_ws t) with
            | Some t' => POk (JArr [], t')
            | None => parse_elements depth' [] (skip_ws t)
            end
          else if Ascii.eqb c Str.dquote then
            '(str, rest) ← lex_string t; POk (JStr str, rest)
          else if Ascii.eqb c "-" || Str.is_digit c then lex_number s0
          else if Ascii.eqb c "t" then lex_word "true" (JBool true) s0
          else if Ascii.eqb c "f" then lex_word "false" (JBool false) s0
          else if Ascii.eqb c "n" then lex_word "null" JNull s0
          else unexpected s0
      end
  end
with parse_elements (depth : nat) (acc : list JValue) (s : string)
  : pres (JValue * string) :=
  match depth with
  | O => PErr Depth
  | S depth' =>
      '(v, rest) ← parse_value depth' s;
      match skip_ws rest with
      | String c t as rest' =>
          if Ascii.eqb c "," then parse_elements depth' (acc ++ [v]) t
          else if Ascii.eqb c "]" then POk (JArr (acc ++ [v]), t)
          else unexpected rest'
      | EmptyString => PErr UnexpectedEnd
      end
  end
with parse_members (depth : nat) (acc : list (string * JValue)) (s : string)
  : pres (JValue * string) :=
  match depth with
  | O => PErr Depth
  | S depth' =>
      match skip_ws s with
      | String c t as s' =>
          if Ascii.eqb c Str.dquote then
            '(key, rest) ← lex_string t;
            match after ":" (skip_ws rest) with
            | Some t1 =>
                '(v, rest1) ← parse_value depth' t1;
                match skip_ws rest1 with
                | String d t2 as rest2 =>
                    if Ascii.eqb d ","
                    then parse_members depth' (set_field key v acc) t2
                    else if Ascii.eqb d "}"
                    then POk (JObj (set_field key v acc), t2)
                    else unexpected rest2
                | EmptyString => PErr UnexpectedEnd
                end
            | None => unexpected (skip_ws rest)
            end
          else unexpected s'
      | EmptyString => PErr UnexpectedEnd
      end
  end.

(** The message of the [SyntaxError] for a text of length [len].  The
    wording is the engine's and varies with its version; the properties
    below use only that the message is determined by the failed parse. *)
Definition error_message (len : nat) (e : perr) : string :=
  match e with
  | UnexpectedToken c remaining =>
      "Unexpected token " +:+ String c EmptyString +:+
      " in JSON at position " +:+ Str.decimal (len - remaining)
  | UnexpectedEnd => "Unexpected end of JSON input"
  | Depth => "Maximum call stack size exceeded"
  end.

(** A value followed by nothing but white space. *)
Definition parse_text (s : string) : pres JValue :=
  '(v, rest) ← parse_value (2 * String.length s + 2) s;
  match skip_ws rest with
  | EmptyString => POk v
  | rest' => unexpected rest'
  end.

(** [JSON.parse(s)] *)
Definition parse (s : string) : res JValue :=
  match parse_text s with
  | POk v => Ok v
  | PErr Depth => Throw (RangeError (error_message (String.length s) Depth))
  | PErr e => Throw (SyntaxError (error_message (String.length s) e))
  end.

End JSON.

(** Texts with double quotes are written with apostrophes: [dq] turns
    each apostrophe into a double quote. *)
Fixpoint dq (s : string) : string :=
  match s with
  | String c s' =>
      String (if Ascii.eqb c "'" then Str.dquote else c) (dq s')
  | EmptyString => EmptyString
  end.

(* ===================================================================== *)
(** ** The handler's data *)
(* ===================================================================== *)

Import JS.

(** One entry of [templateData.experience]. *)
Module Entry.
Record t : Type := mk {
  title : JValue;
  company : JValue;
  location : JValue;
  start_date : JValue;
  end_date : JValue;
  details : JValue
}.
End Entry.

(** [templateData], the document handed to the compiled template. *)
Module TemplateData.
Record t : Type := mk {
  name : JValue;
  title : JValue;
  email : JValue;
  phone : JValue;
  location : JValue;
  linkedin : JValue;
  website : JValue;
  summary : JValue;
  skills : JValue;
  experience : list Entry.t;
  education : JValue
}.
End TemplateData.

(** A compiled template: markup from the document, or a throw. *)
Definition Template : Type := TemplateData.t -> res string.

(** What the handler does not own: the file system, the template
    compiler, the process environment and the browser engine.  An engine
    operation answers [None] when it resolves and [Some e] when it
    rejects with [e]. *)
Record World : Type := {
  cwd : string;
  existsSync : string -> bool;
  readFileSync : string -> res string;
  Handlebars_compile : string -> Template;
  isServerless : bool;
  launch : bool -> option exn;
  newPage : option exn;
  setContent : string -> option exn;
  pdf : string -> res string;
  close : option exn
}.

(** The module's mutable state: the two caches, and the number of browser
    sessions launched and not closed. *)
Record State : Type := {
  templateCache : gmap string Template;
  profileCache : gmap string JValue;
  openSessions : nat
}.

Definition initial : State :=
  {| templateCache := ∅; profileCache := ∅; openSessions := 0 |}.

Definition set_templateCache (c : gmap string Template) (st : State) : State :=
  {| templateCache := c;
     profileCache := profileCache st;
     openSessions := openSessions st |}.

Definition set_profileCache (c : gmap string JValue) (st : State) : State :=
  {| templateCache := templateCache st;
     profileCache := c;
     openSessions := openSessions st |}.

Definition set_openSessions (n : nat) (st : State) : State :=
  {| templateCache := templateCache st;
     profileCache := profileCache st;
     openSessions := n |}.

(** Computations over the state that may throw; the state reached when
    the throw happens is kept. *)
Definition M (A : Type) : Type := State -> res A * State.

#[global] Instance M_ret : MRet M := fun A a st => (Ok a, st).

#[global] Instance M_bind : MBind M := fun A B k m st =>
  match m st with
  | (Ok a, st') => k a st'
  | (Throw e, st') => (Throw e, st')
  end.

Definition lift {A : Type} (r : res A) : M A := fun st => (r, st).
Definition throw {A : Type} (e : exn) : M A := fun st => (Throw e, st).

(** An engine operation. *)
Definition engine (o : option exn) : M unit :=
  match o with
  | None => mret tt
  | Some e => throw e
  end.

(** The request: method and the fields of [req.body], [None] for a field
    that is not sent. *)
Record Request : Type := {
  method : string;
  profile : option string;
  jd : option string;
  company : option string;
  role : option string;
  template : option string
}.

(** The response: status, headers set, body. *)
Record Response : Type := {
  status : nat;
  headers : list (string * string);
  body : string
}.

Definition send (code : nat) (text : string) : Response :=
  {| status := code; headers := []; body := text |}.

(** [!field] for a string field of the body. *)
Definition missing (field : option string) : bool :=
  match field with
  | None => true
  | Some s => String.eqb s EmptyString
  end.

(** [path.join(a, b, c)]; segments are joined as they are. *)
Definition path_join (a b c : string) : string :=
  a +:+ "/" +:+ b +:+ "/" +:+ c.

(* ===================================================================== *)
(** ** Template registry *)
(* ===================================================================== *)

(** The own properties of the object literal [TEMPLATE_OPTIONS]. *)
Definition TEMPLATE_OPTIONS : list (string * string) :=
  [ ("default", "Resume.html");
    ("modern", "Resume_Modern.html");
    ("classic", "Resume_Classic.html");
    ("contemporary", "Resume_Contemporary.html");
    ("compact", "Resume_Compact.html");
    ("elegant", "Resume_Elegant.html") ].

(** The properties every object literal inherits from [Object.prototype]. *)
Definition Object_prototype : list string :=
  [ "constructor"; "hasOwnProperty"; "isPrototypeOf"; "propertyIsEnumerable";
    "toLocaleString"; "toString"; "valueOf"; "__proto__";
    "__defineGetter__"; "__defineSetter__";
    "__lookupGetter__"; "__lookupSetter__" ].

(** What [TEMPLATE_OPTIONS[key]] evaluates to: the file name of an own
    property, a function or object inherited from the prototype, or
    [undefined]. *)
Inductive member : Type :=
| Own (file : string)
| Inherited (key : string)
| Absent.

Fixpoint assoc (k : string) (l : list (string * string)) : option string :=
  match l with
  | [] => None
  | (k', v) :: rest => if String.eqb k k' then Some v else assoc k rest
  end.

Definition TEMPLATE_OPTIONS_get (key : string) : member :=
  match assoc key TEMPLATE_OPTIONS with
  | Some file => Own file
  | None =>
      if existsb (String.eqb key) Object_prototype
      then Inherited key else Absent
  end.

Definition member_truthy (m : member) : bool :=
  match m with
  | Own file => negb (String.eqb file EmptyString)
  | Inherited _ => true
  | Absent => false
  end.

(** [getTemplate(templateName)].  [depth] is the call depth the stack
    still allows; exceeding it is the engine's [RangeError]. *)
Fixpoint getTemplate (w : World) (depth : nat) (templateName : string)
  : M Template :=
  match depth with
  | O => throw (RangeError "Maximum call stack size exceeded")
  | S depth' => fun st =>
      let templateName :=
        if negb (member_truthy (TEMPLATE_OPTIONS_get templateName))
        then "default" else templateName in
      match templateCache st !! templateName with
      | Some cached => (Ok cached, st)
      | None =>
          match TEMPLATE_OPTIONS_get templateName with
          | Own templateFile =>
              let templatePath := path_join (cwd w) "templates" templateFile in
              if negb (existsSync w templatePath)
              then getTemplate w depth' "default" st
              else
                match readFileSync w templatePath with
                | Throw e => (Throw e, st)
                | Ok templateSource =>
                    let compiledTemplate :=
                      Handlebars_compile w templateSource in
                    (Ok compiledTemplate,
                     set_templateCache
                       (<[templateName := compiledTemplate]>
                          (templateCache st)) st)
                end
          | _ =>
              (Throw (TypeError
                 (dq "The 'path' argument must be of type string.")), st)
          end
      end
  end.

(* ===================================================================== *)
(** ** Profile store *)
(* ===================================================================== *)

Definition profilePath (w : World) (profileName : string) : string :=
  path_join (cwd w) "resumes" (profileName +:+ ".json").

(** [loadProfile(profileName)]; [null] when there is no record. *)
Definition loadProfile (w : World) (profileName : string) : M JValue :=
  fun st =>
    match profileCache st !! profileName with
    | Some cached => (Ok cached, st)
    | None =>
        if negb (existsSync w (profilePath w profileName)) then (Ok JNull, st)
        else
          match text ← readFileSync w (profilePath w profileName);
                JSON.parse text with
          | Throw e => (Throw e, st)
          | Ok profileData =>
              (Ok profileData,
               set_profileCache
                 (<[profileName := profileData]> (profileCache st)) st)
          end
    end.

(* ===================================================================== *)
(** ** Content normaliser *)
(* ===================================================================== *)

Import Regex.

(** [/```(?:json|javascript)?\s*/gi] *)
Definition re_fence_tagged : regex :=
  Seq (WordI "```")
      (Seq (Opt (Alt (WordI "json") (WordI "javascript")))
           (Star Str.is_space)).

(** [/```\s*/g] *)
Definition re_fence : regex := Seq (Word "```") (Star Str.is_space).

Definition is_closer (c : ascii) : bool :=
  Ascii.eqb c "}" || Ascii.eqb c "]".

(** [/,(\s*[}\]])/g] *)
Definition re_trailing_comma : regex :=
  Seq (Chr ",") (Cap (Seq (Star Str.is_space) (Cls is_closer))).

(** [/,\s*,/g] *)
Definition re_double_comma : regex :=
  Seq (Chr ",") (Seq (Star Str.is_space) (Chr ",")).

(** Lines 101-118: trim, drop code fences, keep the span from the first
    opening brace to the last closing brace. *)
Definition extractContent (jd : string) : res string :=
  let content := Str.trim jd in
  let content :=
    Str.trim
      (replace_all re_fence (const EmptyString)
         (replace_all re_fence_tagged (const EmptyString) content)) in
  let firstBrace := Str.indexOf "{" content in
  let lastBrace := Str.lastIndexOf "}" content in
  if negb (firstBrace =? -1) && negb (lastBrace =? -1)
     && (firstBrace <? lastBrace)
  then Ok (Str.substring firstBrace (lastBrace + 1) content)
  else Throw (Error ("Invalid JSON format. Please provide valid JSON " +:+
                     "with title, summary, skills, and experience fields.")).

(** The repair of line 132-134. *)
Definition fixContent (content : string) : string :=
  replace_all re_double_comma (const ",")
    (replace_all re_trailing_comma group1 content).

(** Lines 121-141: parse; on failure parse the repaired text; when that
    fails too, throw with the message of the first failure. *)
Definition parseContent (content : string) : res JValue :=
  match JSON.parse content with
  | Ok resumeContent => Ok resumeContent
  | Throw parseError =>
      match JSON.parse (fixContent content) with
      | Ok resumeContent => Ok resumeContent
      | Throw secondError =>
          Throw (Error ("Invalid JSON format: " +:+ message parseError +:+
                        ". Please check your JSON syntax."))
      end
  end.

Definition missing_fields_message : string :=
  "JSON missing required fields (title, summary, skills, or experience)".

(** Lines 144-147. *)
Definition validateFields (resumeContent : JValue) : res unit :=
  title ← get_prop resumeContent "title";
  if negb (truthy title) then Throw (Error missing_fields_message) else
  summary ← get_prop resumeContent "summary";
  if negb (truthy summary) then Throw (Error missing_fields_message) else
  skills ← get_prop resumeContent "skills";
  if negb (truthy skills) then Throw (Error missing_fields_message) else
  experience ← get_prop resumeContent "experience";
  if negb (truthy experience) then Throw (Error missing_fields_message) else
  Ok tt.

(** Lines 154-159: the diagnostic loop writes to the console only, but
    [forEach] must exist and each entry must allow a property read. *)
Fixpoint forEach_log (entries : list JValue) : res unit :=
  match entries with
  | [] => Ok tt
  | exp :: rest => _ ← get_prop exp "title"; forEach_log rest
  end.

Definition logExperience (resumeContent : JValue) : res unit :=
  experience ← get_prop resumeContent "experience";
  match experience with
  | JArr entries => forEach_log entries
  | _ => Throw (TypeError "resumeContent.experience.forEach is not a function")
  end.

(** [normalize]: from the raw text to the validated content object. *)
Definition normalize (jd : string) : res JValue :=
  content ← extractContent jd;
  resumeContent ← parseContent content;
  _ ← validateFields resumeContent;
  Ok resumeContent.

(* ===================================================================== *)
(** ** Merge of profile and content (lines 166-185) *)
(* ===================================================================== *)

(** [v[idx]] *)
Definition get_index (v : JValue) (idx : nat) : res JValue :=
  match v with
  | JUndefined =>
      Throw (TypeError "Cannot read properties of undefined")
  | JNull => Throw (TypeError "Cannot read properties of null")
  | JArr l => Ok (index l idx)
  | JStr s =>
      Ok (match String.get idx s with
          | Some c => JStr (String c EmptyString)
          | None => JUndefined
          end)
  | JObj fields => Ok (default JUndefined (lookup_field (Str.decimal idx) fields))
  | _ => Ok JUndefined
  end.

(** The callback of [profileData.experience.map]. *)
Definition mergeJob (resumeContent job : JValue) (idx : nat) : res Entry.t :=
  jobTitle ← get_prop job "title";
  title ←
    (if truthy jobTitle then Ok jobTitle
     else
       experience ← get_prop resumeContent "experience";
       exp ← get_index experience idx;
       Ok (or_else (get_opt exp "title") (JStr "Engineer")));
  company ← get_prop job "company";
  location ← get_prop job "location";
  start_date ← get_prop job "start_date";
  end_date ← get_prop job "end_date";
  experience ← get_prop resumeContent "experience";
  exp ← get_index experience idx;
  Ok (Entry.mk title company location start_date end_date
        (or_else (get_opt exp "details") (JArr []))).

Fixpoint mapJobs (resumeContent : JValue) (jobs : list JValue) (idx : nat)
  : res (list Entry.t) :=
  match jobs with
  | [] => Ok []
  | job :: rest =>
      entry ← mergeJob resumeContent job idx;
      entries ← mapJobs resumeContent rest (S idx);
      Ok (entry :: entries)
  end.

(** [profileData.experience.map((job, idx) => ...)] *)
Definition mergeExperience (profileData resumeContent : JValue)
  : res (list Entry.t) :=
  jobs ← get_prop profileData "experience";
  match jobs with
  | JArr jobs => mapJobs resumeContent jobs 0
  | JUndefined | JNull =>
      Throw (TypeError "Cannot read properties of undefined (reading 'map')")
  | _ => Throw (TypeError "profileData.experience.map is not a function")
  end.

Definition buildTemplateData (profileData resumeContent : JValue)
  : res TemplateData.t :=
  name ← get_prop profileData "name";
  title ← get_prop resumeContent "title";
  email ← get_prop profileData "email";
  phone ← get_prop profileData "phone";
  location ← get_prop profileData "location";
  linkedin ← get_prop profileData "linkedin";
  website ← get_prop profileData "website";
  summary ← get_prop resumeContent "summary";
  skills ← get_prop resumeContent "skills";
  experience ← mergeExperience profileData resumeContent;
  education ← get_prop profileData "education";
  Ok (TemplateData.mk name title email phone location linkedin website
        summary skills experience education).

(* ===================================================================== *)
(** ** Rasteriser session (lines 197-248) *)
(* ===================================================================== *)

Definition sessionOpened : M unit :=
  fun st => (Ok tt, set_openSessions (S (openSessions st)) st).

Definition sessionClosed : M unit :=
  fun st => (Ok tt, set_openSessions (Nat.pred (openSessions st)) st).

(** Launch, new page, load the markup, print, close. *)
Definition renderPdf (w : World) (html : string) : M string :=
  _ ← engine (launch w (isServerless w));
  _ ← sessionOpened;
  _ ← engine (newPage w);
  _ ← engine (setContent w html);
  pdfBuffer ← lift (pdf w html);
  _ ← engine (close w);
  _ ← sessionClosed;
  mret pdfBuffer.

(* ===================================================================== *)
(** ** File name (lines 254-255) *)
(* ===================================================================== *)

(** [/[^a-z0-9]/gi] *)
Definition re_not_alnum : regex :=
  Cls (fun c => negb (Str.is_lower (Str.to_lower c) || Str.is_digit c)).

Definition is_underscore (c : ascii) : bool := Ascii.eqb c "_".

(** [/_+/g] *)
Definition re_underscores : regex := Plus is_underscore.

(** [/^_|_$/g] *)
Definition re_edge_underscore : regex :=
  Alt (Seq Bol (Cls is_underscore)) (Seq (Cls is_underscore) Eol).

Definition sanitizeFilename (str : string) : string :=
  replace_all re_edge_underscore (const EmptyString)
    (replace_all re_underscores (const "_")
       (replace_all re_not_alnum (const "_") str)).

Definition filename (name company role : string) : string :=
  sanitizeFilename name +:+ "_" +:+ sanitizeFilename company +:+ "_" +:+
  sanitizeFilename role +:+ ".pdf".

(** The receiver of [str.replace]: a string, or a [TypeError]. *)
Definition as_string (v : JValue) : res string :=
  match v with
  | JStr s => Ok s
  | JUndefined =>
      Throw (TypeError "Cannot read properties of undefined (reading 'replace')")
  | JNull =>
      Throw (TypeError "Cannot read properties of null (reading 'replace')")
  | _ => Throw (TypeError "str.replace is not a function")
  end.

(* ===================================================================== *)
(** ** The handler (lines 79-266) *)
(* ===================================================================== *)

Definition pdfResponse (file : string) (pdfBuffer : string) : Response :=
  {| status := 200;
     headers :=
       [ ("Content-Type", "application/pdf");
         ("Content-Disposition", dq "attachment; filename='" +:+ file +:+ dq "'") ];
     body := pdfBuffer |}.

(** The body of the [try] block; [stackDepth] is the call depth left for
    [getTemplate]. *)
Definition handler_try (w : World) (stackDepth : nat) (req : Request)
  : M Response :=
  let template := default "default" (template req) in
  if missing (profile req) then mret (send 400 "Profile required") else
  if missing (jd req)
  then mret (send 400 "Completed resume JSON required") else
  if missing (company req) then mret (send 400 "Company name required") else
  if missing (role req) then mret (send 400 "Role name required") else
  let profile := default EmptyString (profile req) in
  let jd := default EmptyString (jd req) in
  let company := default EmptyString (company req) in
  let role := default EmptyString (role req) in
  profileData ← loadProfile w profile;
  if negb (truthy profileData)
  then mret (send 404 (dq "Profile '" +:+ profile +:+ dq "' not found")) else
  content ← lift (extractContent jd);
  resumeContent ← lift (parseContent content);
  _ ← lift (validateFields resumeContent);
  _ ← lift (logExperience resumeContent);
  compiledTemplate ← getTemplate w stackDepth template;
  templateData ← lift (buildTemplateData profileData resumeContent);
  html ← lift (compiledTemplate templateData);
  pdfBuffer ← renderPdf w html;
  name ← lift (as_string (TemplateData.name templateData));
  mret (pdfResponse (filename name company role) pdfBuffer).

(** [try { ... } catch (err) { res.status(500).send(...) }] *)
Definition catch (m : M Response) (st : State) : Response * State :=
  match m st with
  | (Ok response, st') => (response, st')
  | (Throw err, st') =>
      (send 500 ("PDF generation failed: " +:+ message err), st')
  end.

Definition handler (w : World) (stackDepth : nat) (req : Request)
    (st : State) : Response * State :=
  if negb (String.eqb (method req) "POST")
  then (send 405 "Method not allowed", st)
  else catch (handler_try w stackDepth req) st.

(* ===================================================================== *)
(** ** Notions the properties are stated with *)
(* ===================================================================== *)

(** The four fields the content must have. *)
Definition required_fields : list string :=
  ["title"; "summary"; "skills"; "experience"].

(** The required fields that a content object does not pass the test for. *)
Definition missingFields (resumeContent : JValue) : list string :=
  filter (fun k => negb (truthy (get_opt resumeContent k))) required_fields.

(** The file name rule as the specification words it: every character
    outside [A-Za-z0-9] becomes an underscore, runs of underscores
    collapse to one, leading and trailing underscores are stripped. *)
Definition is_alnum (c : ascii) : bool :=
  Str.is_upper c || Str.is_lower c || Str.is_digit c.

Fixpoint replace_non_alnum (s : string) : string :=
  match s with
  | String c s' => String (if is_alnum c then c else "_"%char) (replace_non_alnum s')
  | EmptyString => EmptyString
  end.

Definition starts_with_underscore (s : string) : bool :=
  match s with
  | String c _ => is_underscore c
  | EmptyString => false
  end.

Fixpoint collapse_runs (s : string) : string :=
  match s with
  | String c s' =>
      if is_underscore c && starts_with_underscore s'
      then collapse_runs s'
      else String c (collapse_runs s')
  | EmptyString => EmptyString
  end.

Fixpoint strip_leading (s : string) : string :=
  match s with
  | String c s' => if is_underscore c then strip_leading s' else s
  | EmptyString => EmptyString
  end.

Fixpoint strip_trailing (s : string) : string :=
  match s with
  | String c s' =>
      match strip_trailing s' with
      | EmptyString =>
          if is_underscore c then EmptyString else String c EmptyString
      | t => String c t
      end
  | EmptyString => EmptyString
  end.

Definition sanitize_spec (s : string) : string :=
  strip_trailing (strip_leading (collapse_runs (replace_non_alnum s))).

Definition filename_spec (name company role : string) : string :=
  sanitize_spec name +:+ "_" +:+ sanitize_spec company +:+ "_" +:+
  sanitize_spec role +:+ ".pdf".

(** Some position of [s] starts a match of [r] (for patterns without [^]). *)
Fixpoint has_match (r : regex) (s : string) : bool :=
  match match_here r false s with
  | Some _ => true
  | None =>
      match s with
      | String _ s' => has_match r s'
      | EmptyString => false
      end
  end.

Fixpoint all_space (s : string) : bool :=
  match s with
  | String c s' => Str.is_space c && all_space s'
  | EmptyString => true
  end.

(** The state after a sequence of requests. *)
Fixpoint serve (w : World) (stackDepth : nat) (reqs : list Request)
    (st : State) : State :=
  match reqs with
  | [] => st
  | req :: rest => serve w stackDepth rest (snd (handler w stackDepth req st))
  end.

(** The profile record for [profileName] exists in the store. *)
Definition stored (w : World) (profileName : string) : bool :=
  existsSync w (profilePath w profileName).

(* ===================================================================== *)
(** ** A small installation used for concrete runs *)
(* ===================================================================== *)

Module Demo.

Definition jane : string :=
  dq ("{'name':'Jane Doe','email':'jane@example.org'," +:+
      "'experience':[" +:+
      "{'title':'Lead','company':'Acme','location':'NYC'," +:+
      "'start_date':'2020','end_date':'2022'}," +:+
      "{'company':'Initech','location':'SF'," +:+
      "'start_date':'2018','end_date':'2020'}]," +:+
      "'education':[]}").

Definition files : list (string * string) :=
  [ ("/app/templates/Resume.html", "<html>{{name}}</html>");
    ("/app/resumes/jane.json", jane) ].

(** A world in which loading the markup answers [loading], printing it
    answers [printing], and every other engine operation resolves. *)
Definition world (loading printing : option exn) : World :=
  {| cwd := "/app";
     existsSync := fun p => bool_decide (is_Some (assoc p files));
     readFileSync := fun p =>
       match assoc p files with
       | Some text => Ok text
       | None => Throw (Error "ENOENT: no such file or directory")
       end;
     Handlebars_compile := fun source _ => Ok source;
     isServerless := false;
     launch := fun _ => None;
     newPage := None;
     setContent := fun _ => loading;
     pdf := fun html =>
       match printing with
       | None => Ok ("%PDF " +:+ html)
       | Some e => Throw e
       end;
     close := None |}.

(** The world in which the engine never fails. *)
Definition calm : World := world None None.

Definition content : string :=
  dq ("{'title':'Staff Engineer','summary':'Builds things'," +:+
      "'skills':{'Languages':['Go','Rust']}," +:+
      "'experience':[{'title':'Architect','details':['Did a','Did b']}]}").

Definition request (profileName templateName : string) : Request :=
  {| method := "POST";
     profile := Some profileName;
     jd := Some content;
     company := Some "Acme, Inc.";
     role := Some "Sr. Eng!";
     template := Some templateName |}.

End Demo.

(** The entry the merge callback builds from [job] and the submitted
    entries when no property read throws. *)
Definition entryOf (subs : list JValue) (job : JValue) (idx : nat) : Entry.t :=
  Entry.mk
    (or_else (get_opt job "title")
       (or_else (get_opt (index subs idx) "title") (JStr "Engineer")))
    (get_opt job "company")
    (get_opt job "location")
    (get_opt job "start_date")
    (get_opt job "end_date")
    (or_else (get_opt (index subs idx) "details") (JArr [])).

(** Leading characters of class [p] dropped. *)
Fixpoint skip_class (p : ascii -> bool) (s : string) : string :=
  match s with
  | String c s' => if p c then skip_class p s' else s
  | EmptyString => EmptyString
  end.

(** One leading underscore dropped; one trailing underscore dropped. *)
Definition strip_first (s : string) : string :=
  match s with
  | String c s' => if is_underscore c then s' else s
  | EmptyString => EmptyString
  end.

Fixpoint strip_last (s : string) : string :=
  match s with
  | String c s' =>
      match s' with
      | EmptyString => if is_underscore c then EmptyString else s
      | _ => String c (strip_last s')
      end
  | EmptyString => EmptyString
  end.

(** No two underscores in a row. *)
Fixpoint collapsed (s : string) : bool :=
  match s with
  | String c s' =>
      negb (is_underscore c && starts_with_underscore s') && collapsed s'
  | EmptyString => true
  end.

(** The first character of [s] is of class [q]. *)
Definition head_is (q : ascii -> bool) (s : string) : bool :=
  match s with
  | String c _ => q c
  | EmptyString => false
  end.

Definition is_comma (c : ascii) : bool := Ascii.eqb "," c.

(** [dirty] is [clean] with single commas added in front of closers:
    each added comma stands before optional white space and a closing
    bracket or brace. *)
Inductive trailing_added : string -> string -> Prop :=
| ta_end : trailing_added EmptyString EmptyString
| ta_keep (c : ascii) (clean dirty : string) :
    trailing_added clean dirty ->
    trailing_added (String c clean) (String c dirty)
| ta_add (ws : string) (c : ascii) (clean dirty : string) :
    all_space ws = true -> is_closer c = true ->
    trailing_added clean dirty ->
    trailing_added (ws +:+ String c clean)
                   (String "," (ws +:+ String c dirty)).

(** [dirty] is [clean] with some commas doubled: a second comma follows
    the first after optional white space. *)
Inductive comma_doubled : string -> string -> Prop :=
| cd_end : comma_doubled EmptyString EmptyString
| cd_keep (c : ascii) (clean dirty : string) :
    comma_doubled clean dirty ->
    comma_doubled (String c clean) (String c dirty)
| cd_double (ws : string) (clean dirty : string) :
    all_space ws = true ->
    comma_doubled clean dirty ->
    comma_doubled (String "," clean)
                  (String "," (ws +:+ String "," dirty)).

(** The parser did not run out of depth; the parser consumed input. *)
Definition in_depth {A : Type} (r : JSON.pres A) : Prop := r <> JSON.PErr JSON.Depth.

Definition shorter (s : string) (r : JSON.pres (JValue * string)) : Prop :=
  forall v rest,
    r = JSON.POk (v, rest) -> (String.length rest < String.length s)%nat.

(** The pattern matches the same with and without the start anchor. *)
Definition unanchored (r : regex) : Prop :=
  forall s, match_here r true s = match_here r false s.

(** [m] keeps the property [P] of the state, however it ends. *)
Definition preserves {A : Type} (P : State -> Prop) (m : M A) : Prop :=
  forall st r st', m st = (r, st') -> P st -> P st'.

(** Every cached profile has a record in the store. *)
Definition cache_sound (w : World) (st : State) : Prop :=
  forall k v, profileCache st !! k = Some v -> stored w k = true.

(* ===================================================================== *)
(** ** The page that calls the handler (pages/index.js) *)
(* ===================================================================== *)

(** The request [fetch] makes of a POST with the five fields in its JSON
    body. *)
Definition post (profileName jdText companyName roleName templateName : string)
  : Request :=
  {| method := "POST";
     profile := Some profileName;
     jd := Some jdText;
     company := Some companyName;
     role := Some roleName;
     template := Some templateName |}.

Module Client.

(** The state of the form: the profiles fetched on mount and the fields. *)
Record Ui : Type := {
  profiles : list JValue;
  selectedProfile : string;
  selectedTemplate : string;
  company : string;
  role : string;
  jd : string
}.

(** Line 4: the page's own copy of the sanitizer. *)
Definition sanitizeFilename (str : string) : string :=
  replace_all re_edge_underscore (const EmptyString)
    (replace_all re_underscores (const "_")
       (replace_all re_not_alnum (const "_") str)).

(** [p.id === selectedProfile] *)
Definition has_id (selected : string) (p : JValue) : res bool :=
  pid ← get_prop p "id";
  Ok (match pid with
      | JStr s => String.eqb s selected
      | _ => false
      end).

(** [profiles.find(p => p.id === selectedProfile)] *)
Fixpoint find (selected : string) (profiles : list JValue)
  : res (option JValue) :=
  match profiles with
  | [] => Ok None
  | p :: rest =>
      match has_id selected p with
      | Ok true => Ok (Some p)
      | Ok false => find selected rest
      | Throw e => Throw e
      end
  end.

(** Lines 176-182. *)
Definition getFilename (ui : Ui) : res string :=
  selectedProfileData ← find (selectedProfile ui) (profiles ui);
  profileName ←
    match selectedProfileData with
    | Some p =>
        if truthy p then name ← get_prop p "name"; as_string name
        else Ok (selectedProfile ui)
    | None => Ok (selectedProfile ui)
    end;
  Ok (sanitizeFilename profileName +:+ "_" +:+
      sanitizeFilename (company ui) +:+ "_" +:+
      sanitizeFilename (role ui) +:+ ".pdf").

(** Lines 142-158: the checks before the request, and the request. *)
Definition buildRequest (ui : Ui) : res Request :=
  if String.eqb (selectedProfile ui) EmptyString
  then Throw (Error "Please select a profile") else
  if String.eqb (jd ui) EmptyString
  then Throw (Error "Please enter the Completed Resume JSON") else
  if String.eqb (company ui) EmptyString
  then Throw (Error "Please enter the Company Name") else
  if String.eqb (role ui) EmptyString
  then Throw (Error "Please enter the Role Name") else
  Ok (post (selectedProfile ui) (jd ui) (company ui) (role ui)
        (selectedTemplate ui)).

(** [genRes.ok] *)
Definition ok (response : Response) : bool :=
  ((200 <=? status response) && (status response <=? 299))%nat.

(** [errorText || "Failed to generate PDF"] *)
Definition or_default (errorText : string) : string :=
  if String.eqb errorText EmptyString
  then "Failed to generate PDF" else errorText.

(** Lines 160-173: what the page makes of the response.  [toString] is
    the conversion that [new Error(value)] applies to its argument. *)
Definition readResponse (toString : JValue -> res string)
    (response : Response) : res string :=
  if negb (ok response) then
    let errorText := body response in
    match (errorJson ← JSON.parse errorText;
           detail ← get_prop errorJson "error";
           text ← toString (or_else detail (JStr "Failed to generate PDF"));
           Throw (Error text) : res unit) with
    | Ok _ => Ok (body response)
    | Throw e => Throw (Error (or_default errorText))
    end
  else Ok (body response).

End Client.

(* ===================================================================== *)
(** ** Further notions the properties are stated with *)
(* ===================================================================== *)

(** Every character of [s] is of class [p]. *)
Fixpoint all_chars (p : ascii -> bool) (s : string) : bool :=
  match s with
  | String c s' => p c && all_chars p s'
  | EmptyString => true
  end.

(** The characters of [s] outside class [p]. *)
Fixpoint drop_chars (p : ascii -> bool) (s : string) : string :=
  match s with
  | String c s' => if p c then drop_chars p s' else String c (drop_chars p s')
  | EmptyString => EmptyString
  end.

Fixpoint ends_with_underscore (s : string) : bool :=
  match s with
  | String c EmptyString => is_underscore c
  | String _ s' => ends_with_underscore s'
  | EmptyString => false
  end.

(** The last character of [s] is [c]. *)
Fixpoint ends_with (c : ascii) (s : string) : bool :=
  match s with
  | String d EmptyString => Ascii.eqb d c
  | String _ s' => ends_with c s'
  | EmptyString => false
  end.

(** Characters a derived file name is made of. *)
Definition is_name_char (c : ascii) : bool :=
  is_alnum c || is_underscore c || Ascii.eqb c ".".

Definition is_comma_or_space (c : ascii) : bool :=
  is_comma c || Str.is_space c.

(** From a state satisfying [P], [m] ends in a state satisfying [Q] with
    its result when it returns, and [E] with its error when it throws. *)
Definition triple {A : Type} (P : State -> Prop) (m : M A)
    (Q : A -> State -> Prop) (E : exn -> State -> Prop) : Prop :=
  forall st, P st ->
    match m st with
    | (Ok a, st') => Q a st'
    | (Throw e, st') => E e st'
    end.

(** Every cached profile is the parsed content of its record. *)
Definition profiles_coherent (w : World) (st : State) : Prop :=
  forall k v,
    profileCache st !! k = Some v ->
    stored w k = true
    /\ (readFileSync w (profilePath w k) ≫= JSON.parse) = Ok v.

(** Every cached template is filed under a key of the registry and is
    the compiled content of that key's file. *)
Definition templates_coherent (w : World) (st : State) : Prop :=
  forall k t,
    templateCache st !! k = Some t ->
    exists file source,
      assoc k TEMPLATE_OPTIONS = Some file
      /\ existsSync w (path_join (cwd w) "templates" file) = true
      /\ readFileSync w (path_join (cwd w) "templates" file) = Ok source
      /\ t = Handlebars_compile w source.

(** The caches of [st] are kept in [st']. *)
Definition caches_kept (st st' : State) : Prop :=
  profileCache st ⊆ profileCache st' /\ templateCache st ⊆ templateCache st'.

(** The value of header [name], when it was set. *)
Definition header (name : string) (response : Response) : option string :=
  assoc name (headers response).

(** Characters of a sanitized name. *)
Definition is_word_char (c : ascii) : bool := is_alnum c || is_underscore c.

(** Characters the sanitizer replaces. *)
Definition not_alnum (c : ascii) : bool := negb (is_alnum c).

(** The name that [getTemplate] goes on with after validating. *)
Definition resolved (templateName : string) : string :=
  if negb (member_truthy (TEMPLATE_OPTIONS_get templateName))
  then "default" else templateName.

(** Where the default layout is looked for. *)
Definition default_path (w : World) : string :=
  path_join (cwd w) "templates" "Resume.html".

(** The file a template name stands for: its own when that is
    installed, the default layout's otherwise. *)
Definition chosen_file (w : World) (templateName : string) : string :=
  match assoc (resolved templateName) TEMPLATE_OPTIONS with
  | Some file =>
      if existsSync w (path_join (cwd w) "templates" file)
      then file else "Resume.html"
  | None => "Resume.html"
  end.

(** A request that passes the method and field checks. *)
Definition complete (req : Request) : bool :=
  String.eqb (method req) "POST"
  && negb (missing (profile req)) && negb (missing (jd req))
  && negb (missing (company req)) && negb (missing (role req)).

(** The world [w] with [text] stored at [path]. *)
Definition with_file (path text : string) (w : World) : World :=
  {| cwd := cwd w;
     existsSync := fun p => String.eqb p path || existsSync w p;
     readFileSync := fun p =>
       if String.eqb p path then Ok text else readFileSync w p;
     Handlebars_compile := Handlebars_compile w;
     isServerless := isServerless w;
     launch := launch w; newPage := newPage w; setContent := setContent w;
     pdf := pdf w; close := close w |}.

(** [k] browser sessions are open; [n] or one more are. *)
Definition sessions_are (k : nat) (st : State) : Prop := openSessions st = k.
Definition at_most_one_more (n : nat) (st : State) : Prop :=
  openSessions st = n \/ openSessions st = S n.

(** Answers of the [try] block: the three kinds of response. *)
Definition answer (req : Request) (response : Response) : Prop :=
  (status response = 400%nat /\ headers response = [])
  \/ (status response = 404%nat /\ headers response = [])
  \/ exists name pdfBuffer,
       response
       = pdfResponse
           (filename name (default EmptyString (company req))
              (default EmptyString (role req)))
           pdfBuffer.

(** Each match of [r] is replaced by a text with the same characters
    outside class [p]. *)
Definition replaces_within (p : ascii -> bool) (r : regex)
    (repl : option string -> string) : Prop :=
  forall at0 s rest cap,
    match_here r at0 s = Some (rest, cap) ->
    exists matched,
      s = matched +:+ rest
      /\ drop_chars p (repl cap) = drop_chars p matched.

(** A filled form whose listing has the selected profile. *)
Definition demo_ui : Client.Ui :=
  {| Client.profiles :=
       [ JObj [("id", JStr "john"); ("name", JStr "John Roe")];
         JObj [("id", JStr "jane"); ("name", JStr "Jane Doe")] ];
     Client.selectedProfile := "jane";
     Client.selectedTemplate := "default";
     Client.company := "Acme, Inc.";
     Client.role := "Sr. Eng!";
     Client.jd := Demo.content |}.

(* ===================================================================== *)
(** * Properties *)
(* ===================================================================== *)

(** ** Concrete runs *)

(** Content wrapped in a code fence and surrounded by prose. *)
Example extract_fenced :
  extractContent
    (dq "Here it is: ```json {'title':'A'} ``` and that is all.")
  = Ok (dq "{'title':'A'}").
Proof. vm_compute. reflexivity. Qed.

Example extract_no_object :
  extractContent "} nothing here {"
  = Throw (Error ("Invalid JSON format. Please provide valid JSON " +:+
                  "with title, summary, skills, and experience fields.")).
Proof. vm_compute. reflexivity. Qed.

Example parse_nested :
  JSON.parse (dq " { 'a' : [1, -2.50, true, null, 'x'], 'b' : {} } ")
  = Ok (JObj [("a", JArr [JNum 1 0; JNum (-250) (-2); JBool true; JNull;
                          JStr "x"]);
              ("b", JObj [])]).
Proof. vm_compute. reflexivity. Qed.

Example repair_examples :
  fixContent "[1, 2, ]" = "[1, 2 ]"
  /\ fixContent "[1,,2]" = "[1,2]"
  /\ fixContent "[1,,,2]" = "[1,,2]"
  /\ fixContent "[1,,]" = "[1,]".
Proof. vm_compute. repeat split. Qed.

Example handler_success :
  fst (handler Demo.calm 5 (Demo.request "jane" "modern") initial)
  = pdfResponse "Jane_Doe_Acme_Inc_Sr_Eng.pdf" "%PDF <html>{{name}}</html>".
Proof. vm_compute. reflexivity. Qed.

Example handler_rejects_get :
  fst (handler Demo.calm 5
         {| method := "GET"; profile := None; jd := None; company := None;
            role := None; template := None |} initial)
  = send 405 "Method not allowed".
Proof. vm_compute. reflexivity. Qed.

Example handler_requires_role :
  fst (handler Demo.calm 5
         {| method := "POST"; profile := Some "jane";
            jd := Some Demo.content; company := Some "Acme";
            role := Some EmptyString; template := None |} initial)
  = send 400 "Role name required".
Proof. vm_compute. reflexivity. Qed.

(** ** [JSON.parse] never runs out of depth *)

Section ParserDepth.
Import JSON.

Lemma unexpected_in_depth {A : Type} (s : string) : in_depth (@unexpected A s).
Proof. destruct s; discriminate. Qed.

Lemma in_depth_err {A B : Type} (e : perr) :
  in_depth (@PErr A e) -> in_depth (@PErr B e).
Proof. intros H Heq. apply H. injection Heq as ->. reflexivity. Qed.

Lemma unexpected_shorter (s : string) : shorter s (unexpected s).
Proof. intros v rest H. destruct s; discriminate H. Qed.

Lemma skip_ws_length (s : string) :
  (String.length (skip_ws s) <= String.length s)%nat.
Proof.
  induction s as [|c s IH]; simpl; [lia|]. destruct (is_ws c); simpl; lia.
Qed.

Lemma after_length (c : ascii) (s t : string) :
  after c s = Some t -> String.length s = S (String.length t).
Proof.
  destruct s as [|d s]; [discriminate|]. simpl.
  destruct (Ascii.eqb d c); [|discriminate]. intros H. injection H as <-.
  reflexivity.
Qed.

Lemma cons_char_ok (c : ascii) (r : pres (string * string)) (t rest : string) :
  cons_char c r = POk (t, rest) -> exists t', r = POk (t', rest).
Proof.
  destruct r as [[t' rest']|e]; simpl; [|discriminate].
  intros H. injection H as _ <-. eauto.
Qed.

Lemma cons_char_in_depth (c : ascii) (r : pres (string * string)) :
  in_depth r -> in_depth (cons_char c r).
Proof. destruct r as [[t rest]|e]; simpl; [discriminate | trivial]. Qed.

Ltac lex_fail :=
  split; [first [discriminate | apply unexpected_in_depth]
         | intros ? ? Hfail;
           first [discriminate Hfail
                 | match type of Hfail with
                   | unexpected ?s = _ => destruct s; discriminate Hfail
                   end]].

Lemma lex_string_bounded (n : nat) :
  forall s, (String.length s <= n)%nat ->
    in_depth (lex_string s)
    /\ forall t rest, lex_string s = POk (t, rest) ->
         (String.length rest < String.length s)%nat.
Proof.
  induction n as [|n IH]; intros s Hn.
  - destruct s; [|simpl in Hn; lia]. lex_fail.
  - destruct s as [|c s]; [lex_fail|].
    simpl in Hn. simpl lex_string.
    destruct (Ascii.eqb c Str.dquote).
    { split; [discriminate|]. intros t rest H. injection H as _ <-. simpl. lia. }
    destruct (Ascii.eqb c "\").
    { destruct s as [|e s2]; [lex_fail|].
      simpl in Hn.
      destruct (simple_escape e).
      { destruct (IH s2 ltac:(lia)) as [Hd Hl]. split.
        - apply cons_char_in_depth, Hd.
        - intros t rest H. apply cons_char_ok in H as [t' H].
          apply Hl in H. simpl. lia. }
      destruct (Ascii.eqb e "u"); [|lex_fail].
      destruct s2 as [|h1 s3]; [lex_fail|]. simpl in Hn.
      destruct (hexval h1); [|lex_fail].
      destruct s3 as [|h2 s4]; [lex_fail|]. simpl in Hn.
      destruct (hexval h2); [|lex_fail].
      destruct s4 as [|h3 s5]; [lex_fail|]. simpl in Hn.
      destruct (hexval h3); [|lex_fail].
      destruct s5 as [|h4 s6]; [lex_fail|]. simpl in Hn.
      destruct (hexval h4); [|lex_fail].
      destruct (IH s6 ltac:(lia)) as [Hd Hl]. split.
      - apply cons_char_in_depth, Hd.
      - intros t rest H. apply cons_char_ok in H as [t' H].
        apply Hl in H. simpl. lia. }
    destruct (Str.code c <? 32)%nat; [lex_fail|].
    destruct (IH s ltac:(lia)) as [Hd Hl]. split.
    + apply cons_char_in_depth, Hd.
    + intros t rest H. apply cons_char_ok in H as [t' H].
      apply Hl in H. simpl. lia.
Qed.

Lemma lex_string_in_depth (s : string) : in_depth (lex_string s).
Proof. apply (lex_string_bounded (String.length s)). lia. Qed.

Lemma lex_string_shorter (s t rest : string) :
  lex_string s = POk (t, rest) -> (String.length rest < String.length s)%nat.
Proof. apply (lex_string_bounded (String.length s)). lia. Qed.

Lemma span_digits_length (s : string) :
  (String.length (snd (span_digits s)) <= String.length s)%nat.
Proof.
  induction s as [|c s IH]; simpl; [lia|].
  destruct (Str.is_digit c); [|simpl; lia].
  destruct (span_digits s) as [ds rest]. simpl in *. lia.
Qed.

Lemma lex_fraction_spec (s : string) :
  in_depth (lex_fraction s)
  /\ forall fs rest, lex_fraction s = POk (fs, rest) ->
       (String.length rest <= String.length s)%nat.
Proof.
  unfold lex_fraction.
  destruct s as [|c t];
    [split; [discriminate | intros fs rest H; injection H as _ <-; lia]|].
  destruct (Ascii.eqb c ".").
  - pose proof (span_digits_length t) as Hl.
    destruct (span_digits t) as [[|d ds] rest']; [lex_fail|].
    split; [discriminate|]. intros fs rest H. injection H as _ <-.
    simpl in *. lia.
  - split; [discriminate|]. intros fs rest H. injection H as _ <-. lia.
Qed.

Lemma lex_sign_length (s : string) :
  (String.length (snd (lex_sign s)) <= String.length s)%nat.
Proof.
  destruct s as [|c t]; simpl; [lia|].
  destruct (Ascii.eqb c "-"); [simpl; lia|].
  destruct (Ascii.eqb c "+"); simpl; lia.
Qed.

Lemma lex_exponent_spec (s : string) :
  in_depth (lex_exponent s)
  /\ forall ex rest, lex_exponent s = POk (ex, rest) ->
       (String.length rest <= String.length s)%nat.
Proof.
  unfold lex_exponent.
  destruct s as [|c t];
    [split; [discriminate | intros ex rest H; injection H as _ <-; lia]|].
  destruct (Ascii.eqb c "e" || Ascii.eqb c "E").
  - pose proof (lex_sign_length t) as Hs.
    destruct (lex_sign t) as [neg t']. simpl in Hs.
    pose proof (span_digits_length t') as Hl.
    destruct (span_digits t') as [[|d ds] rest']; [lex_fail|].
    split; [discriminate|]. intros ex rest H. injection H as _ <-.
    simpl in *. lia.
  - split; [discriminate|]. intros ex rest H. injection H as _ <-. lia.
Qed.

Lemma lex_unsigned_spec (neg : bool) (s s1 : string) :
  (String.length s1 <= String.length s)%nat ->
  in_depth (lex_unsigned neg s1) /\ shorter s (lex_unsigned neg s1).
Proof.
  intros Hlen. unfold lex_unsigned. destruct s1 as [|c t]; [lex_fail|].
  simpl in Hlen.
  destruct (Str.is_digit c); [|lex_fail].
  assert (Hs2 : exists ds s2,
             (if Ascii.eqb c "0" then (EmptyString, t) else span_digits t)
             = (ds, s2)
             /\ (String.length s2 <= String.length t)%nat).
  { destruct (Ascii.eqb c "0");
      [exists EmptyString, t; split; [reflexivity | lia]|].
    pose proof (span_digits_length t).
    destruct (span_digits t) as [ds s2]. exists ds, s2.
    split; [reflexivity | assumption]. }
  destruct Hs2 as (ds & s2 & -> & Hl2).
  destruct (lex_fraction_spec s2) as [Hfd Hfl].
  destruct (lex_fraction s2) as [[fs s3]|e] eqn:Hf;
    [|simpl; split; [exact (in_depth_err e Hfd) | intros v rest H; discriminate H]].
  specialize (Hfl fs s3 eq_refl). simpl.
  destruct (lex_exponent_spec s3) as [Hed Hel].
  destruct (lex_exponent s3) as [[ex s4]|e] eqn:He;
    [|simpl; split; [exact (in_depth_err e Hed) | intros v rest H; discriminate H]].
  specialize (Hel ex s4 eq_refl). simpl.
  split; [discriminate|]. intros v rest H. injection H as _ <-. lia.
Qed.

Lemma lex_number_spec (s : string) :
  in_depth (lex_number s) /\ shorter s (lex_number s).
Proof.
  unfold lex_number. destruct s as [|c t]; [lex_fail|].
  destruct (Ascii.eqb c "-"); apply lex_unsigned_spec; simpl; lia.
Qed.

Lemma lex_word_spec (w : string) (v : JValue) :
  forall s, in_depth (lex_word w v s)
    /\ forall v' rest, lex_word w v s = POk (v', rest) ->
         (String.length rest + String.length w = String.length s)%nat.
Proof.
  induction w as [|c w IH]; intros s.
  - split; [discriminate|]. intros v' rest H. injection H as _ <-. simpl. lia.
  - simpl. destruct s as [|d s]; [lex_fail|].
    destruct (Ascii.eqb c d); [|lex_fail].
    destruct (IH s) as [Hd Hl]. split; [exact Hd|].
    intros v' rest H. apply Hl in H. simpl. lia.
Qed.

Lemma unexpected_shorter' (s s' : string) : shorter s (unexpected s').
Proof. intros v rest H. destruct s'; discriminate H. Qed.

Lemma shorter_mono (s s' : string) (r : pres (JValue * string)) :
  shorter s' r -> (String.length s' <= String.length s)%nat -> shorter s r.
Proof. intros H Hle v rest Hr. specialize (H v rest Hr). lia. Qed.

Lemma shorter_err (s : string) (e : perr) : shorter s (PErr e).
Proof. intros v rest H. discriminate H. Qed.

Lemma shorter_ok (s rest : string) (v : JValue) :
  (String.length rest < String.length s)%nat -> shorter s (POk (v, rest)).
Proof. intros Hlt v' rest' H. injection H as _ <-. exact Hlt. Qed.

Lemma parse_shorter (depth : nat) :
  (forall s, shorter s (parse_value depth s))
  /\ (forall acc s, shorter s (parse_elements depth acc s))
  /\ (forall acc s, shorter s (parse_members depth acc s)).
Proof.
  induction depth as [|d (IHv & IHe & IHm)];
    [repeat split; intros; apply shorter_err|].
  split; [|split].
  - intros s. cbn [parse_value].
    pose proof (skip_ws_length s) as Hs.
    destruct (skip_ws s) as [|c t]; [apply shorter_err|]. simpl in Hs.
    pose proof (skip_ws_length t) as Ht.
    destruct (Ascii.eqb c "{").
    { destruct (after "}" (skip_ws t)) as [t'|] eqn:Ha.
      - apply after_length in Ha. apply shorter_ok. lia.
      - eapply shorter_mono; [apply IHm | lia]. }
    destruct (Ascii.eqb c "[").
    { destruct (after "]" (skip_ws t)) as [t'|] eqn:Ha.
      - apply after_length in Ha. apply shorter_ok. lia.
      - eapply shorter_mono; [apply IHe | lia]. }
    destruct (Ascii.eqb c Str.dquote).
    { destruct (lex_string t) as [[str rest]|e] eqn:Hl; cbn [mbind pres_bind];
        [|apply shorter_err].
      apply lex_string_shorter in Hl. apply shorter_ok. lia. }
    destruct (Ascii.eqb c "-" || Str.is_digit c).
    { eapply shorter_mono; [apply (proj2 (lex_number_spec _)) | simpl; lia]. }
    assert (Hw : forall w v, w <> EmptyString -> shorter s (lex_word w v (String c t))).
    { intros w v Hw v' rest H. apply lex_word_spec in H.
      destruct w; [congruence|]. simpl in H. lia. }
    destruct (Ascii.eqb c "t"); [apply Hw; discriminate|].
    destruct (Ascii.eqb c "f"); [apply Hw; discriminate|].
    destruct (Ascii.eqb c "n"); [apply Hw; discriminate|].
    apply shorter_err.
  - intros acc s. cbn [parse_elements].
    pose proof (IHv s) as Hv.
    destruct (parse_value d s) as [[v rest]|e]; cbn [mbind pres_bind];
      [|apply shorter_err].
    specialize (Hv v rest eq_refl).
    pose proof (skip_ws_length rest) as Hr.
    destruct (skip_ws rest) as [|c t]; [apply shorter_err|]. simpl in Hr.
    destruct (Ascii.eqb c ",");
      [eapply shorter_mono; [apply IHe | lia]|].
    destruct (Ascii.eqb c "]"); [apply shorter_ok; lia | apply shorter_err].
  - intros acc s. cbn [parse_members].
    pose proof (skip_ws_length s) as Hs.
    destruct (skip_ws s) as [|c t]; [apply shorter_err|]. simpl in Hs.
    destruct (Ascii.eqb c Str.dquote); [|apply shorter_err].
    destruct (lex_string t) as [[key rest]|e] eqn:Hl; cbn [mbind pres_bind];
      [|apply shorter_err].
    apply lex_string_shorter in Hl.
    pose proof (skip_ws_length rest) as Hr.
    destruct (after ":" (skip_ws rest)) as [t1|] eqn:Ha;
      [|apply unexpected_shorter'].
    apply after_length in Ha.
    pose proof (IHv t1) as Hv.
    destruct (parse_value d t1) as [[v rest1]|e]; cbn [mbind pres_bind];
      [|apply shorter_err].
    specialize (Hv v rest1 eq_refl).
    pose proof (skip_ws_length rest1) as Hr1.
    destruct (skip_ws rest1) as [|c2 t2]; [apply shorter_err|]. simpl in Hr1.
    destruct (Ascii.eqb c2 ",");
      [eapply shorter_mono; [apply IHm | lia]|].
    destruct (Ascii.eqb c2 "}"); [apply shorter_ok; lia | apply shorter_err].
Qed.

Lemma parse_in_depth (depth : nat) :
  (forall s, (2 * String.length s + 1 <= depth)%nat ->
     in_depth (parse_value depth s))
  /\ (forall acc s, (2 * String.length s + 2 <= depth)%nat ->
        in_depth (parse_elements depth acc s))
  /\ (forall acc s, (2 * String.length s + 2 <= depth)%nat ->
        in_depth (parse_members depth acc s)).
Proof.
  induction depth as [|d (IHv & IHe & IHm)];
    [repeat split; intros; lia|].
  destruct (parse_shorter d) as (Sv & Se & Sm).
  split; [|split].
  - intros s Hd. cbn [parse_value].
    pose proof (skip_ws_length s) as Hs.
    destruct (skip_ws s) as [|c t]; [discriminate|]. simpl in Hs.
    pose proof (skip_ws_length t) as Ht.
    destruct (Ascii.eqb c "{").
    { destruct (after "}" (skip_ws t)); [discriminate | apply IHm; lia]. }
    destruct (Ascii.eqb c "[").
    { destruct (after "]" (skip_ws t)); [discriminate | apply IHe; lia]. }
    destruct (Ascii.eqb c Str.dquote).
    { pose proof (lex_string_in_depth t) as Hl.
      destruct (lex_string t) as [[str rest]|e]; cbn [mbind pres_bind];
        [discriminate | exact (in_depth_err e Hl)]. }
    destruct (Ascii.eqb c "-" || Str.is_digit c);
      [apply lex_number_spec|].
    destruct (Ascii.eqb c "t"); [apply lex_word_spec|].
    destruct (Ascii.eqb c "f"); [apply lex_word_spec|].
    destruct (Ascii.eqb c "n"); [apply lex_word_spec|].
    discriminate.
  - intros acc s Hd. cbn [parse_elements].
    pose proof (IHv s ltac:(lia)) as Hv. pose proof (Sv s) as Hsv.
    destruct (parse_value d s) as [[v rest]|e]; cbn [mbind pres_bind];
      [|exact (in_depth_err e Hv)].
    specialize (Hsv v rest eq_refl).
    pose proof (skip_ws_length rest) as Hr.
    destruct (skip_ws rest) as [|c t]; [discriminate|]. simpl in Hr.
    destruct (Ascii.eqb c ","); [apply IHe; lia|].
    destruct (Ascii.eqb c "]"); discriminate.
  - intros acc s Hd. cbn [parse_members].
    pose proof (skip_ws_length s) as Hs.
    destruct (skip_ws s) as [|c t]; [discriminate|]. simpl in Hs.
    destruct (Ascii.eqb c Str.dquote); [|discriminate].
    pose proof (lex_string_in_depth t) as Hl.
    destruct (lex_string t) as [[key rest]|e] eqn:Hk; cbn [mbind pres_bind];
      [|exact (in_depth_err e Hl)].
    apply lex_string_shorter in Hk.
    pose proof (skip_ws_length rest) as Hr.
    destruct (after ":" (skip_ws rest)) as [t1|] eqn:Ha;
      [|apply unexpected_in_depth].
    apply after_length in Ha.
    pose proof (IHv t1 ltac:(lia)) as Hv. pose proof (Sv t1) as Hsv.
    destruct (parse_value d t1) as [[v rest1]|e]; cbn [mbind pres_bind];
      [|exact (in_depth_err e Hv)].
    specialize (Hsv v rest1 eq_refl).
    pose proof (skip_ws_length rest1) as Hr1.
    destruct (skip_ws rest1) as [|c2 t2]; [discriminate|]. simpl in Hr1.
    destruct (Ascii.eqb c2 ","); [apply IHm; lia|].
    destruct (Ascii.eqb c2 "}"); discriminate.
Qed.

(** The depth that [parse_text] allows is never used up: a text is
    rejected only for a token or for its end. *)
Lemma parse_text_in_depth (s : string) : in_depth (parse_text s).
Proof.
  unfold parse_text.
  pose proof (proj1 (parse_in_depth (2 * String.length s + 2)) s ltac:(lia)) as H.
  destruct (parse_value (2 * String.length s + 2) s) as [[v rest]|e];
    cbn [mbind pres_bind]; [|exact (in_depth_err e H)].
  destruct (skip_ws rest); discriminate.
Qed.

(** [JSON.parse] returns a value or throws a [SyntaxError]. *)
Lemma parse_total (s : string) :
  (exists v, JSON.parse s = Ok v) \/ (exists msg, JSON.parse s = Throw (SyntaxError msg)).
Proof.
  unfold JSON.parse. pose proof (parse_text_in_depth s) as H.
  destruct (parse_text s) as [v|e]; [left; eauto|].
  right. destruct e; [eauto | eauto | exfalso; apply H; reflexivity].
Qed.

End ParserDepth.

(** ** The positional merge *)

Lemma get_prop_get_opt (v : JValue) (k : string) :
  nullish v = false -> get_prop v k = Ok (get_opt v k).
Proof. destruct v; simpl; intros H; congruence. Qed.

Lemma mergeJob_ok
    (resumeContent : JValue) (subs : list JValue) (job : JValue) (idx : nat) :
  get_prop resumeContent "experience" = Ok (JArr subs) ->
  nullish job = false ->
  mergeJob resumeContent job idx = Ok (entryOf subs job idx).
Proof.
  intros Hexp Hjob. unfold mergeJob, entryOf.
  rewrite !(get_prop_get_opt job) by assumption.
  rewrite Hexp. simpl.
  unfold or_else at 3. destruct (truthy (get_opt job "title")); reflexivity.
Qed.

Lemma mapJobs_ok (resumeContent : JValue) (subs jobs : list JValue) :
  get_prop resumeContent "experience" = Ok (JArr subs) ->
  Forall (fun job => nullish job = false) jobs ->
  forall idx,
    mapJobs resumeContent jobs idx
    = Ok (imap (fun i job => entryOf subs job (idx + i)) jobs).
Proof.
  intros Hexp Hjobs. induction Hjobs as [|job jobs Hjob _ IH]; intros idx.
  - reflexivity.
  - simpl. rewrite (mergeJob_ok _ subs) by assumption. simpl.
    rewrite IH. simpl. rewrite Nat.add_0_r. do 2 f_equal.
    apply imap_ext. intros i x _. simpl. f_equal. lia.
Qed.

Lemma mergeJob_nonnull (resumeContent job : JValue) (idx : nat) (entry : Entry.t) :
  mergeJob resumeContent job idx = Ok entry -> nullish job = false.
Proof. destruct job; simpl; intros H; first [reflexivity | discriminate H]. Qed.

Lemma mapJobs_nonnull (resumeContent : JValue) (jobs : list JValue) :
  forall idx entries,
    mapJobs resumeContent jobs idx = Ok entries ->
    Forall (fun job => nullish job = false) jobs.
Proof.
  induction jobs as [|job jobs IH]; intros idx entries H.
  - constructor.
  - simpl in H.
    destruct (mergeJob resumeContent job idx) as [entry|e] eqn:Hj;
      [|discriminate H].
    simpl in H.
    destruct (mapJobs resumeContent jobs (S idx)) as [rest|e] eqn:Hrest;
      [|discriminate H].
    constructor; [eapply mergeJob_nonnull; exact Hj | eapply IH; exact Hrest].
Qed.

Lemma get_prop_ok_nonnull (v : JValue) (k : string) (x : JValue) :
  get_prop v k = Ok x -> nullish v = false.
Proof. destruct v; simpl; intros H; first [reflexivity | discriminate H]. Qed.

(** The document handed to the template carries the merged list. *)
Lemma buildTemplateData_experience
    (profileData resumeContent : JValue) (entries : list Entry.t) :
  nullish profileData = false ->
  nullish resumeContent = false ->
  mergeExperience profileData resumeContent = Ok entries ->
  exists templateData,
    buildTemplateData profileData resumeContent = Ok templateData
    /\ TemplateData.experience templateData = entries.
Proof.
  intros Hp Hr Hm. unfold buildTemplateData.
  rewrite !(get_prop_get_opt profileData), !(get_prop_get_opt resumeContent)
    by assumption.
  cbn [mbind res_bind]. rewrite Hm. cbn [mbind res_bind].
  eexists. split; reflexivity.
Qed.

Lemma mergeExperience_ok (profileData resumeContent : JValue) (jobs subs : list JValue) :
  get_prop profileData "experience" = Ok (JArr jobs) ->
  get_prop resumeContent "experience" = Ok (JArr subs) ->
  Forall (fun job => nullish job = false) jobs ->
  mergeExperience profileData resumeContent
  = Ok (imap (fun i job => entryOf subs job i) jobs).
Proof.
  intros Hp Hr Hjobs. unfold mergeExperience. rewrite Hp. simpl.
  rewrite (mapJobs_ok _ subs) by assumption. reflexivity.
Qed.

(** C1, as stated, fails: a submitted title does not override the title
    of the profile job.  The job is titled Lead and the submitted entry
    Architect; the merged entry is titled Lead. *)
Lemma submitted_title_does_not_override :
  let job := JObj [("title", JStr "Lead"); ("company", JStr "Acme")] in
  let exp := JObj [("title", JStr "Architect"); ("details", JArr [JStr "Did a"])] in
  let profileData := JObj [("experience", JArr [job])] in
  let resumeContent := JObj [("experience", JArr [exp])] in
  exists entry,
    mergeExperience profileData resumeContent = Ok [entry]
    /\ truthy (get_opt exp "title") = true
    /\ Entry.title entry <> get_opt exp "title"
    /\ Entry.title entry = get_opt job "title".
Proof.
  eexists. split; [reflexivity|]. split; [reflexivity|].
  split; [discriminate | reflexivity].
Qed.

Lemma mergeExperience_inv
    (profileData resumeContent : JValue) (jobs subs : list JValue)
    (entries : list Entry.t) :
  get_prop profileData "experience" = Ok (JArr jobs) ->
  get_prop resumeContent "experience" = Ok (JArr subs) ->
  mergeExperience profileData resumeContent = Ok entries ->
  Forall (fun job => nullish job = false) jobs
  /\ entries = imap (fun i job => entryOf subs job i) jobs.
Proof.
  intros Hp Hr Hm.
  assert (Hjobs : Forall (fun job => nullish job = false) jobs).
  { unfold mergeExperience in Hm. rewrite Hp in Hm. simpl in Hm.
    eapply mapJobs_nonnull. exact Hm. }
  split; [exact Hjobs|].
  rewrite (mergeExperience_ok _ _ jobs subs) in Hm by assumption.
  injection Hm as <-. reflexivity.
Qed.

(** C1, amended: the merge succeeds when every profile job allows
    property reads (is not [null]); in the merged list, entry [i] takes
    company, location and dates from job [i], its details from submitted
    entry [i] (the empty list when that is missing or falsy), and its
    title from job [i] when that title is truthy, else from submitted
    entry [i] when that one is truthy, else the text Engineer.  The
    merged list is the one placed in the document for the template. *)
Theorem merged_entry_fields
    (profileData resumeContent : JValue) (jobs subs : list JValue) :
  get_prop profileData "experience" = Ok (JArr jobs) ->
  get_prop resumeContent "experience" = Ok (JArr subs) ->
  (Forall (fun job => nullish job = false) jobs ->
   exists entries, mergeExperience profileData resumeContent = Ok entries)
  /\ forall entries,
       mergeExperience profileData resumeContent = Ok entries ->
       (forall i job, jobs !! i = Some job ->
          exists entry,
            entries !! i = Some entry
            /\ Entry.company entry = get_opt job "company"
            /\ Entry.location entry = get_opt job "location"
            /\ Entry.start_date entry = get_opt job "start_date"
            /\ Entry.end_date entry = get_opt job "end_date"
            /\ Entry.details entry
               = or_else (get_opt (index subs i) "details") (JArr [])
            /\ Entry.title entry
               = or_else (get_opt job "title")
                   (or_else (get_opt (index subs i) "title")
                      (JStr "Engineer")))
       /\ exists templateData,
            buildTemplateData profileData resumeContent = Ok templateData
            /\ TemplateData.experience templateData = entries.
Proof.
  intros Hp Hr. split.
  - intros Hjobs. eexists.
    apply (mergeExperience_ok _ _ jobs subs); assumption.
  - intros entries Hm.
    destruct (mergeExperience_inv _ _ _ _ _ Hp Hr Hm) as [_ Heq].
    split.
    + intros i job Hi. exists (entryOf subs job i). split.
      * rewrite Heq, list_lookup_imap, Hi. reflexivity.
      * repeat split.
    + apply buildTemplateData_experience;
        [eapply get_prop_ok_nonnull; exact Hp
        | eapply get_prop_ok_nonnull; exact Hr | exact Hm].
Qed.

Lemma merged_entry_fields_witness :
  exists entries,
    mergeExperience
      (JObj [("experience", JArr [JObj [("company", JStr "Acme")]])])
      (JObj [("experience", JArr [JObj [("title", JStr "Architect")]])])
    = Ok entries
    /\ Entry.title <$> entries !! 0%nat = Some (JStr "Architect").
Proof.
  destruct (merged_entry_fields
              (JObj [("experience", JArr [JObj [("company", JStr "Acme")]])])
              (JObj [("experience", JArr [JObj [("title", JStr "Architect")]])])
              [JObj [("company", JStr "Acme")]]
              [JObj [("title", JStr "Architect")]] eq_refl eq_refl)
    as (Hex & Hfields).
  destruct Hex as [entries Hm]; [repeat constructor|].
  exists entries. split; [exact Hm|].
  destruct (Hfields entries Hm) as [Hf _].
  destruct (Hf 0%nat _ eq_refl) as (entry & He & _ & _ & _ & _ & _ & Ht).
  rewrite He. simpl. rewrite Ht. reflexivity.
Defined.

(** C4: the merge succeeds when every profile job allows property reads
    (is not [null]); the merged list has one entry per profile job;
    entries at an index from the number of submitted entries on have the
    empty detail list; submitted entries past the number of jobs do not
    change the result.  The merged list is the one placed in the
    document for the template. *)
Theorem merged_length_follows_jobs
    (profileData resumeContent : JValue) (jobs subs : list JValue) :
  get_prop profileData "experience" = Ok (JArr jobs) ->
  get_prop resumeContent "experience" = Ok (JArr subs) ->
  (Forall (fun job => nullish job = false) jobs ->
   exists entries, mergeExperience profileData resumeContent = Ok entries)
  /\ forall entries,
       mergeExperience profileData resumeContent = Ok entries ->
       length entries = length jobs
       /\ (forall i entry,
             (length subs <= i)%nat -> entries !! i = Some entry ->
             Entry.details entry = JArr [])
       /\ (forall truncated,
             get_prop truncated "experience"
             = Ok (JArr (take (length jobs) subs)) ->
             mergeExperience profileData truncated = Ok entries)
       /\ exists templateData,
            buildTemplateData profileData resumeContent = Ok templateData
            /\ TemplateData.experience templateData = entries.
Proof.
  intros Hp Hr. split.
  - intros Hjobs. eexists.
    apply (mergeExperience_ok _ _ jobs subs); assumption.
  - intros entries Hm.
    destruct (mergeExperience_inv _ _ _ _ _ Hp Hr Hm) as [Hjobs ->].
    split; [|split; [|split]].
    + apply length_imap.
    + intros i entry Hle He. rewrite list_lookup_imap in He.
      destruct (jobs !! i) as [job|]; [|discriminate].
      injection He as <-. unfold entryOf, index. simpl.
      rewrite nth_overflow by exact Hle. reflexivity.
    + intros truncated Ht.
      rewrite (mergeExperience_ok _ _ jobs (take (length jobs) subs))
        by assumption.
      f_equal. apply imap_ext. intros i job Hi.
      apply lookup_lt_Some in Hi.
      unfold entryOf, index.
      assert (Hn : nth i (take (length jobs) subs) JUndefined
                   = nth i subs JUndefined).
      { rewrite !nth_lookup, lookup_take_lt by exact Hi. reflexivity. }
      rewrite Hn. reflexivity.
    + apply buildTemplateData_experience;
        [eapply get_prop_ok_nonnull; exact Hp
        | eapply get_prop_ok_nonnull; exact Hr | exact Hm].
Qed.

Lemma merged_length_follows_jobs_witness :
  exists e1 e2,
    mergeExperience
      (JObj [("experience",
              JArr [JObj [("company", JStr "Acme")];
                    JObj [("company", JStr "Initech")]])])
      (JObj [("experience", JArr [JObj [("details", JArr [JStr "Did a"])]])])
    = Ok [e1; e2]
    /\ Entry.details e2 = JArr [].
Proof.
  destruct (merged_length_follows_jobs
              (JObj [("experience",
                      JArr [JObj [("company", JStr "Acme")];
                            JObj [("company", JStr "Initech")]])])
              (JObj [("experience",
                      JArr [JObj [("details", JArr [JStr "Did a"])]])])
              [JObj [("company", JStr "Acme")];
               JObj [("company", JStr "Initech")]]
              [JObj [("details", JArr [JStr "Did a"])]] eq_refl eq_refl)
    as (Hex & Hprops).
  destruct Hex as [entries Hm]; [repeat constructor|].
  destruct (Hprops entries Hm) as (Hlen & Hpad & _ & _).
  destruct entries as [|e1 [|e2 [|e3 rest]]]; try discriminate Hlen.
  exists e1, e2. split; [exact Hm|].
  apply (Hpad 1%nat e2); [simpl; lia | reflexivity].
Defined.

(** C10: a merged entry whose profile job title and positional submitted
    title are both absent or falsy is titled Engineer. *)
Theorem merged_title_defaults_to_Engineer
    (profileData resumeContent : JValue) (jobs subs : list JValue)
    (entries : list Entry.t) (i : nat) (job : JValue) (entry : Entry.t) :
  get_prop profileData "experience" = Ok (JArr jobs) ->
  get_prop resumeContent "experience" = Ok (JArr subs) ->
  mergeExperience profileData resumeContent = Ok entries ->
  jobs !! i = Some job ->
  entries !! i = Some entry ->
  truthy (get_opt job "title") = false ->
  truthy (get_opt (index subs i) "title") = false ->
  Entry.title entry = JStr "Engineer".
Proof.
  intros Hp Hr Hm Hi He Hjt Hst.
  assert (Hjobs : Forall (fun job => nullish job = false) jobs).
  { unfold mergeExperience in Hm. rewrite Hp in Hm. simpl in Hm.
    eapply mapJobs_nonnull. exact Hm. }
  rewrite (mergeExperience_ok _ _ jobs subs) in Hm by assumption.
  injection Hm as <-. rewrite list_lookup_imap, Hi in He.
  injection He as <-. unfold entryOf. simpl.
  unfold or_else. rewrite Hjt, Hst. reflexivity.
Qed.

Lemma merged_title_defaults_to_Engineer_witness :
  Entry.title
    (entryOf [JObj [("title", JStr EmptyString)]]
       (JObj [("company", JStr "Acme")]) 0)
  = JStr "Engineer".
Proof.
  apply (merged_title_defaults_to_Engineer
           (JObj [("experience", JArr [JObj [("company", JStr "Acme")]])])
           (JObj [("experience", JArr [JObj [("title", JStr EmptyString)]])])
           [JObj [("company", JStr "Acme")]]
           [JObj [("title", JStr EmptyString)]]
           [entryOf [JObj [("title", JStr EmptyString)]]
              (JObj [("company", JStr "Acme")]) 0]
           0%nat (JObj [("company", JStr "Acme")]));
    reflexivity.
Defined.

(** ** Required fields *)

Lemma validateFields_falsy (fields : list (string * JValue)) (k : string) :
  In k required_fields ->
  truthy (get_opt (JObj fields) k) = false ->
  validateFields (JObj fields) = Throw (Error missing_fields_message).
Proof.
  intros Hk Hfalsy.
  change (validateFields (JObj fields))
    with (if negb (truthy (get_opt (JObj fields) "title"))
          then Throw (Error missing_fields_message)
          else if negb (truthy (get_opt (JObj fields) "summary"))
          then Throw (Error missing_fields_message)
          else if negb (truthy (get_opt (JObj fields) "skills"))
          then Throw (Error missing_fields_message)
          else if negb (truthy (get_opt (JObj fields) "experience"))
          then Throw (Error missing_fields_message)
          else Ok tt).
  destruct Hk as [<-|[<-|[<-|[<-|[]]]]]; rewrite Hfalsy;
    repeat match goal with
           | |- context [truthy (get_opt ?o ?f)] =>
               destruct (truthy (get_opt o f))
           end;
    reflexivity.
Qed.

Lemma normalize_falsy (jd content : string) (fields : list (string * JValue))
    (k : string) :
  extractContent jd = Ok content ->
  parseContent content = Ok (JObj fields) ->
  In k required_fields ->
  truthy (get_opt (JObj fields) k) = false ->
  normalize jd = Throw (Error missing_fields_message).
Proof.
  intros Hx Hp Hk Hf. unfold normalize. rewrite Hx. simpl. rewrite Hp. simpl.
  rewrite (validateFields_falsy fields k Hk Hf). reflexivity.
Qed.

(** C2, as stated, fails: the message of the error does not tell which
    fields are missing.  No reading of the message recovers the missing
    fields: content without a title and content without a summary fail
    with the same message. *)
Lemma missing_message_does_not_name_fields :
  ~ exists names : string -> list string,
      forall resumeContent msg,
        validateFields resumeContent = Throw (Error msg) ->
        names msg = missingFields resumeContent.
Proof.
  intros [names H].
  pose proof (H (JObj [("summary", JStr "B"); ("skills", JObj []);
                       ("experience", JArr [])]) _ eq_refl) as H1.
  pose proof (H (JObj [("title", JStr "A"); ("skills", JObj []);
                       ("experience", JArr [])]) _ eq_refl) as H2.
  rewrite H1 in H2. discriminate H2.
Qed.

(** C2, amended: when the parsed content object lacks one of the four
    required fields, normalization fails with one fixed message, which
    lists all four required names whichever of them are missing. *)
Theorem missing_field_fails_with_fixed_message
    (jd content : string) (fields : list (string * JValue)) (k : string) :
  extractContent jd = Ok content ->
  parseContent content = Ok (JObj fields) ->
  In k required_fields ->
  lookup_field k fields = None ->
  normalize jd
  = Throw (Error "JSON missing required fields (title, summary, skills, or experience)").
Proof.
  intros Hx Hp Hk Hnone. apply (normalize_falsy jd content fields k); try assumption.
  simpl. rewrite Hnone. reflexivity.
Qed.

Lemma missing_field_fails_with_fixed_message_witness :
  normalize (dq "{'summary':'B','skills':{},'experience':[]}")
  = Throw (Error "JSON missing required fields (title, summary, skills, or experience)").
Proof.
  apply (missing_field_fails_with_fixed_message _
           (dq "{'summary':'B','skills':{},'experience':[]}")
           [("summary", JStr "B"); ("skills", JObj []); ("experience", JArr [])]
           "title").
  - vm_compute. reflexivity.
  - vm_compute. reflexivity.
  - simpl. left. reflexivity.
  - reflexivity.
Defined.

(** C9: the test is truthiness, not presence: when one of the four
    required fields is present with a falsy value, normalization fails
    with the missing-fields error. *)
Theorem falsy_field_fails_validation
    (jd content : string) (fields : list (string * JValue)) (k : string)
    (v : JValue) :
  extractContent jd = Ok content ->
  parseContent content = Ok (JObj fields) ->
  In k required_fields ->
  lookup_field k fields = Some v ->
  truthy v = false ->
  normalize jd = Throw (Error missing_fields_message).
Proof.
  intros Hx Hp Hk Hsome Hv. apply (normalize_falsy jd content fields k); try assumption.
  simpl. rewrite Hsome. exact Hv.
Qed.

Lemma falsy_field_fails_validation_witness :
  normalize (dq "{'title':'A','summary':'B','skills':null,'experience':[]}")
  = Throw (Error missing_fields_message).
Proof.
  apply (falsy_field_fails_validation _
           (dq "{'title':'A','summary':'B','skills':null,'experience':[]}")
           [("title", JStr "A"); ("summary", JStr "B"); ("skills", JNull);
            ("experience", JArr [])]
           "skills" JNull).
  - vm_compute. reflexivity.
  - vm_compute. reflexivity.
  - simpl. tauto.
  - reflexivity.
  - reflexivity.
Defined.

(** ** State invariants *)

Section Preservation.
Context {A B : Type} (P : State -> Prop).

Lemma preserves_ret (a : A) : preserves P (mret a).
Proof. intros st r st' H HP. injection H as _ <-. exact HP. Qed.

Lemma preserves_lift (r : res A) : preserves P (lift r).
Proof. intros st r' st' H HP. injection H as _ <-. exact HP. Qed.

Lemma preserves_throw (e : exn) : preserves P (@throw A e).
Proof. intros st r' st' H HP. injection H as _ <-. exact HP. Qed.

Lemma preserves_bind (m : M A) (k : A -> M B) :
  preserves P m -> (forall a, preserves P (k a)) -> preserves P (m ≫= k).
Proof.
  intros Hm Hk st r st' H HP. unfold mbind, M_bind in H.
  destruct (m st) as [[a|e] st1] eqn:Hst.
  - eapply Hk; [exact H|]. eapply Hm; [exact Hst | exact HP].
  - injection H as _ <-. eapply Hm; [exact Hst | exact HP].
Qed.
End Preservation.

Lemma cache_sound_initial (w : World) : cache_sound w initial.
Proof.
  intros k v H. unfold initial in H. simpl in H.
  rewrite lookup_empty in H. discriminate H.
Qed.

Lemma loadProfile_sound (w : World) (profileName : string) :
  preserves (cache_sound w) (loadProfile w profileName).
Proof.
  intros st r st' H HP. unfold loadProfile in H.
  destruct (profileCache st !! profileName) eqn:Hc.
  - injection H as _ <-. exact HP.
  - destruct (existsSync w (profilePath w profileName)) eqn:Hex; simpl in H.
    + destruct (readFileSync w (profilePath w profileName) ≫= JSON.parse)
        as [profileData|e].
      * injection H as _ <-. intros k v Hk. simpl in Hk.
        destruct (decide (profileName = k)) as [<-|Hne].
        -- exact Hex.
        -- rewrite lookup_insert_ne in Hk by exact Hne. eapply HP; exact Hk.
      * injection H as _ <-. exact HP.
    + injection H as _ <-. exact HP.
Qed.

Lemma getTemplate_profileCache (w : World) (depth : nat) :
  forall templateName st r st',
    getTemplate w depth templateName st = (r, st') ->
    profileCache st' = profileCache st.
Proof.
  induction depth as [|depth IH]; intros templateName st r st' H.
  - injection H as _ <-. reflexivity.
  - simpl in H.
    destruct (templateCache st !! _); [injection H as _ <-; reflexivity|].
    destruct (TEMPLATE_OPTIONS_get _); try (injection H as _ <-; reflexivity).
    destruct (existsSync w _); simpl in H.
    + destruct (readFileSync w _); injection H as _ <-; reflexivity.
    + eapply IH; exact H.
Qed.

Lemma getTemplate_sound (w : World) (depth : nat) (templateName : string) :
  preserves (cache_sound w) (getTemplate w depth templateName).
Proof.
  intros st r st' H HP k v Hk.
  rewrite (getTemplate_profileCache _ _ _ _ _ _ H) in Hk. eapply HP; exact Hk.
Qed.

Lemma session_sound (w : World) (m : M unit) (f : nat -> nat) :
  m = (fun st => (Ok tt, set_openSessions (f (openSessions st)) st)) ->
  preserves (cache_sound w) m.
Proof. intros -> st r st' H HP. injection H as _ <-. exact HP. Qed.

Lemma engine_sound (w : World) (o : option exn) :
  preserves (cache_sound w) (engine o).
Proof. destruct o; [apply preserves_throw | apply preserves_ret]. Qed.

Lemma renderPdf_sound (w : World) (html : string) :
  preserves (cache_sound w) (renderPdf w html).
Proof.
  unfold renderPdf.
  repeat first
    [ apply preserves_bind; [|intros ?]
    | apply engine_sound
    | apply preserves_lift
    | apply preserves_ret
    | apply (session_sound w _ S); reflexivity
    | apply (session_sound w _ Nat.pred); reflexivity ].
Qed.

Lemma handler_try_sound (w : World) (stackDepth : nat) (req : Request) :
  preserves (cache_sound w) (handler_try w stackDepth req).
Proof.
  unfold handler_try.
  repeat first
    [ apply preserves_ret
    | apply preserves_lift
    | apply loadProfile_sound
    | apply getTemplate_sound
    | apply renderPdf_sound
    | apply preserves_bind; [|intros ?]
    | match goal with
      | |- preserves _ (if ?b then _ else _) => destruct b
      end ].
Qed.

Lemma handler_sound (w : World) (stackDepth : nat) (req : Request) (st : State) :
  cache_sound w st -> cache_sound w (snd (handler w stackDepth req st)).
Proof.
  intros HP. unfold handler.
  destruct (negb (String.eqb (method req) "POST")); [exact HP|].
  unfold catch.
  destruct (handler_try w stackDepth req st) as [[response|err] st'] eqn:H;
    simpl; eapply handler_try_sound; [exact H | exact HP | exact H | exact HP].
Qed.

Lemma serve_sound (w : World) (stackDepth : nat) (reqs : list Request) :
  forall st, cache_sound w st -> cache_sound w (serve w stackDepth reqs st).
Proof.
  induction reqs as [|req reqs IH]; intros st HP; simpl.
  - exact HP.
  - apply IH. apply handler_sound. exact HP.
Qed.

Lemma loadProfile_missing (w : World) (profileName : string) (st : State) :
  cache_sound w st ->
  stored w profileName = false ->
  loadProfile w profileName st = (Ok JNull, st).
Proof.
  intros HP Hmiss. unfold loadProfile.
  destruct (profileCache st !! profileName) as [v|] eqn:Hc.
  - rewrite (HP _ _ Hc) in Hmiss. discriminate Hmiss.
  - unfold stored in Hmiss. rewrite Hmiss. reflexivity.
Qed.

(** C8: in every state reached by serving requests, loading a profile
    that has no record in the store returns [null] and leaves the state,
    with the profile cache, as it was: the cache has no entry for the
    identifier.  The handler answers 404 and throws nothing. *)
Theorem missing_profile_not_found
    (w : World) (stackDepth : nat) (reqs : list Request) (profileName : string) :
  stored w profileName = false ->
  let st := serve w stackDepth reqs initial in
  loadProfile w profileName st = (Ok JNull, st)
  /\ profileCache st !! profileName = None
  /\ forall req,
       method req = "POST" ->
       profile req = Some profileName ->
       profileName <> EmptyString ->
       missing (jd req) = false ->
       missing (company req) = false ->
       missing (role req) = false ->
       handler w stackDepth req st
       = (send 404 (dq "Profile '" +:+ profileName +:+ dq "' not found"), st).
Proof.
  intros Hmiss st.
  assert (Hsound : cache_sound w st)
    by apply serve_sound, cache_sound_initial.
  assert (Hload : loadProfile w profileName st = (Ok JNull, st))
    by (apply loadProfile_missing; assumption).
  split; [exact Hload|]. split.
  { destruct (profileCache st !! profileName) as [v|] eqn:Hc; [|reflexivity].
    rewrite (Hsound _ _ Hc) in Hmiss. discriminate Hmiss. }
  intros req Hm Hp Hne Hjd Hco Hro.
  unfold handler. rewrite Hm. simpl.
  unfold catch, handler_try. rewrite Hp, Hjd, Hco, Hro. simpl.
  destruct (String.eqb_spec profileName EmptyString) as [->|_]; [congruence|].
  unfold mbind at 1, M_bind at 1. rewrite Hload. simpl. reflexivity.
Qed.

Lemma missing_profile_not_found_witness :
  let w := Demo.calm in
  let st := serve w 5 [Demo.request "jane" "default"] initial in
  status (fst (handler w 5 (Demo.request "nobody" "default") st)) = 404%nat
  /\ snd (handler w 5 (Demo.request "nobody" "default") st) = st.
Proof.
  intros w st.
  destruct (missing_profile_not_found w 5 [Demo.request "jane" "default"]
              "nobody" eq_refl) as (_ & _ & H).
  fold st in H. rewrite (H (Demo.request "nobody" "default"));
    [split; reflexivity | reflexivity | reflexivity | discriminate
    | reflexivity | reflexivity | reflexivity].
Defined.

(** ** Rasteriser session *)

Lemma renderPdf_success (w : World) (html pdfBuffer : string) (st : State) :
  launch w (isServerless w) = None -> newPage w = None ->
  setContent w html = None -> pdf w html = Ok pdfBuffer -> close w = None ->
  renderPdf w html st = (Ok pdfBuffer, st).
Proof.
  intros Hl Hn Hs Hp Hc. unfold renderPdf. rewrite Hl, Hn, Hs, Hp, Hc.
  destruct st. reflexivity.
Qed.

Lemma renderPdf_setContent_throws (w : World) (html : string) (e : exn) (st : State) :
  launch w (isServerless w) = None -> newPage w = None ->
  setContent w html = Some e ->
  renderPdf w html st = (Throw e, set_openSessions (S (openSessions st)) st).
Proof.
  intros Hl Hn Hs. unfold renderPdf. rewrite Hl, Hn, Hs. reflexivity.
Qed.

Lemma renderPdf_pdf_throws (w : World) (html : string) (e : exn) (st : State) :
  launch w (isServerless w) = None -> newPage w = None ->
  setContent w html = None -> pdf w html = Throw e ->
  renderPdf w html st = (Throw e, set_openSessions (S (openSessions st)) st).
Proof.
  intros Hl Hn Hs Hp. unfold renderPdf. rewrite Hl, Hn, Hs, Hp. reflexivity.
Qed.

(** C3, at the failing input: when loading the markup rejects, the
    handler answers 500 and the session it launched is still open; on
    the successful run no session stays open. *)
Theorem session_stays_open_when_loading_throws :
  let req := Demo.request "jane" "default" in
  let loading := handler (Demo.world (Some (Error "Navigation failed")) None)
                   5 req initial in
  let printing := handler (Demo.world None (Some (Error "Printing failed")))
                    5 req initial in
  let success := handler Demo.calm 5 req initial in
  (fst loading = send 500 "PDF generation failed: Navigation failed"
   /\ openSessions (snd loading) = 1%nat)
  /\ (fst printing = send 500 "PDF generation failed: Printing failed"
      /\ openSessions (snd printing) = 1%nat)
  /\ (status (fst success) = 200%nat /\ openSessions (snd success) = 0%nat).
Proof. vm_compute. repeat split. Qed.

(** ** Template registry *)

Lemma getTemplate_absent (w : World) (depth : nat) (templateName : string) :
  TEMPLATE_OPTIONS_get templateName = Absent ->
  getTemplate w depth templateName = getTemplate w depth "default".
Proof.
  intros H. destruct depth as [|depth]; [reflexivity|].
  simpl. rewrite H. reflexivity.
Qed.

Lemma getTemplate_inherited (w : World) (depth : nat) (key : string) (st : State) :
  TEMPLATE_OPTIONS_get key = Inherited key ->
  templateCache st !! key = None ->
  getTemplate w (S depth) key st
  = (Throw (TypeError (dq "The 'path' argument must be of type string.")), st).
Proof.
  intros H Hc. simpl. rewrite H. simpl. rewrite Hc, H. reflexivity.
Qed.

Lemma getTemplate_default (w : World) (depth : nat) (source : string) (st : State) :
  templateCache st !! "default" = None ->
  existsSync w (path_join (cwd w) "templates" "Resume.html") = true ->
  readFileSync w (path_join (cwd w) "templates" "Resume.html") = Ok source ->
  getTemplate w (S depth) "default" st
  = (Ok (Handlebars_compile w source),
     set_templateCache
       (<["default" := Handlebars_compile w source]> (templateCache st)) st).
Proof.
  intros Hc Hex Hrd. simpl. rewrite Hc, Hex, Hrd. reflexivity.
Qed.

(** C6, at the failing input: [constructor] is not a key of the
    registry, yet [getTemplate] does not fall back to the default layout
    for it: it throws, and the handler answers 500 where the default
    identifier gives 200. *)
Theorem inherited_template_name_throws :
  let w := Demo.calm in
  TEMPLATE_OPTIONS_get "constructor" <> Absent
  /\ assoc "constructor" TEMPLATE_OPTIONS = None
  /\ fst (getTemplate w 5 "constructor" initial)
     = Throw (TypeError (dq "The 'path' argument must be of type string."))
  /\ fst (getTemplate w 5 "default" initial)
     = Ok (Handlebars_compile w "<html>{{name}}</html>")
  /\ status (fst (handler w 5 (Demo.request "jane" "constructor") initial))
     = 500%nat
  /\ status (fst (handler w 5 (Demo.request "jane" "default") initial))
     = 200%nat.
Proof. vm_compute. repeat split. discriminate. Qed.

(** ** Scanning *)

Lemma scan_0_cons (r : regex) (repl : option string -> string) (at0 : bool)
    (c : ascii) (s : string) :
  scan r repl at0 0 (String c s)
  = match match_here r at0 (String c s) with
    | Some (rest, cap) =>
        repl cap +:+
          match (String.length (String c s) - String.length rest)%nat with
          | O => String c (scan r repl false 0 s)
          | S n => scan r repl false n s
          end
    | None => String c (scan r repl false 0 s)
    end.
Proof. reflexivity. Qed.

Lemma skip_class_length (p : ascii -> bool) (s : string) :
  (String.length (skip_class p s) <= String.length s)%nat.
Proof.
  induction s as [|c s IH]; simpl; [lia|].
  destruct (p c); simpl; lia.
Qed.

(** Passing over the characters of class [p] that a match consumed. *)
Lemma scan_skip_class (r : regex) (repl : option string -> string)
    (p : ascii -> bool) (s : string) :
  scan r repl false (String.length s - String.length (skip_class p s)) s
  = scan r repl false 0 (skip_class p s).
Proof.
  induction s as [|c s IH]; [reflexivity|].
  simpl skip_class. destruct (p c).
  - pose proof (skip_class_length p s).
    replace (String.length (String c s) - String.length (skip_class p s))%nat
      with (S (String.length s - String.length (skip_class p s)))
      by (simpl; lia).
    exact IH.
  - rewrite Nat.sub_diag. reflexivity.
Qed.

(** A greedy repetition before the end of the pattern takes the whole run. *)
Lemma star_takes_run (p : ascii -> bool) (cap : option string) (s : string) :
  forall at0,
    rmatch (Star p) at0 s cap (fun _ rest cap' => Some (rest, cap'))
    = Some (skip_class p s, cap).
Proof.
  induction s as [|c s IH]; intros at0; [reflexivity|].
  simpl. destruct (p c); [|reflexivity].
  simpl in IH. rewrite IH. reflexivity.
Qed.

(** ** The three passes of [sanitizeFilename] *)

Lemma not_alnum_class (c : ascii) :
  negb (Str.is_lower (Str.to_lower c) || Str.is_digit c) = negb (is_alnum c).
Proof. destruct c as [[] [] [] [] [] [] [] []]; reflexivity. Qed.

Lemma pass_not_alnum (s : string) :
  forall at0,
    scan re_not_alnum (const "_") at0 0 s = replace_non_alnum s.
Proof.
  induction s as [|c s IH]; intros at0; [reflexivity|].
  rewrite scan_0_cons. unfold match_here, re_not_alnum. simpl rmatch.
  rewrite not_alnum_class. simpl replace_non_alnum.
  destruct (is_alnum c); simpl negb; cbv iota.
  - rewrite IH. reflexivity.
  - replace (String.length (String c s) - String.length s)%nat with 1%nat
      by (simpl; lia).
    rewrite IH. reflexivity.
Qed.

Lemma underscores_here (at0 : bool) (c : ascii) (s : string) :
  match_here re_underscores at0 (String c s)
  = if is_underscore c then Some (skip_class is_underscore s, None) else None.
Proof.
  unfold match_here, re_underscores, Plus.
  change (rmatch (Seq (Cls is_underscore) (Star is_underscore)) at0 (String c s)
            None (fun _ rest cap => Some (rest, cap)))
    with (if is_underscore c
          then rmatch (Star is_underscore) false s None
                 (fun _ rest cap => Some (rest, cap))
          else None).
  rewrite star_takes_run. reflexivity.
Qed.

Lemma scan_underscores_cons (at0 : bool) (c : ascii) (s : string) :
  scan re_underscores (const "_") at0 0 (String c s)
  = if is_underscore c
    then String "_" (scan re_underscores (const "_") false 0
                       (skip_class is_underscore s))
    else String c (scan re_underscores (const "_") false 0 s).
Proof.
  rewrite scan_0_cons, underscores_here.
  destruct (is_underscore c); [|reflexivity].
  pose proof (skip_class_length is_underscore s).
  replace (String.length (String c s)
           - String.length (skip_class is_underscore s))%nat
    with (S (String.length s - String.length (skip_class is_underscore s)))
    by (simpl; lia).
  rewrite scan_skip_class. reflexivity.
Qed.

Lemma collapse_runs_underscore (c : ascii) (s : string) :
  is_underscore c = true ->
  collapse_runs (String c s)
  = String "_" (collapse_runs (skip_class is_underscore s)).
Proof.
  intros Hc. assert (c = "_"%char) as ->.
  { apply Ascii.eqb_eq. exact Hc. }
  clear Hc. induction s as [|d s IH]; [reflexivity|].
  simpl skip_class. destruct (is_underscore d) eqn:Hd.
  - rewrite <- IH. assert (d = "_"%char) as -> by (apply Ascii.eqb_eq; exact Hd).
    reflexivity.
  - simpl. rewrite Hd. reflexivity.
Qed.

Lemma collapse_runs_other (c : ascii) (s : string) :
  is_underscore c = false ->
  collapse_runs (String c s) = String c (collapse_runs s).
Proof. intros Hc. simpl. rewrite Hc. reflexivity. Qed.

Lemma pass_underscores_bounded (n : nat) :
  forall s at0,
    (String.length s <= n)%nat ->
    scan re_underscores (const "_") at0 0 s = collapse_runs s.
Proof.
  induction n as [|n IH]; intros s at0 Hlen.
  - destruct s; [reflexivity | simpl in Hlen; lia].
  - destruct s as [|c s]; [reflexivity|].
    rewrite scan_underscores_cons.
    destruct (is_underscore c) eqn:Hc.
    + rewrite collapse_runs_underscore by exact Hc.
      rewrite IH; [reflexivity|].
      pose proof (skip_class_length is_underscore s). simpl in Hlen. lia.
    + rewrite collapse_runs_other by exact Hc.
      rewrite IH; [reflexivity | simpl in Hlen; lia].
Qed.

Lemma pass_underscores (s : string) :
  replace_all re_underscores (const "_") s = collapse_runs s.
Proof. apply (pass_underscores_bounded (String.length s)). lia. Qed.

Lemma edge_here (at0 : bool) (c : ascii) (s : string) :
  match_here re_edge_underscore at0 (String c s)
  = if is_underscore c
    then if at0 then Some (s, None)
         else match s with
              | EmptyString => Some (EmptyString, None)
              | _ => None
              end
    else None.
Proof.
  unfold match_here, re_edge_underscore. simpl.
  destruct (is_underscore c), at0, s; reflexivity.
Qed.

Lemma pass_edge_inner (s : string) :
  scan re_edge_underscore (const EmptyString) false 0 s = strip_last s.
Proof.
  induction s as [|c s IH]; [reflexivity|].
  rewrite scan_0_cons, edge_here. simpl strip_last.
  destruct (is_underscore c) eqn:Hc.
  - destruct s as [|d s]; [reflexivity|]. rewrite IH. reflexivity.
  - rewrite IH. destruct s; reflexivity.
Qed.

Lemma pass_edge (s : string) :
  replace_all re_edge_underscore (const EmptyString) s
  = strip_last (strip_first s).
Proof.
  unfold replace_all. destruct s as [|c s]; [reflexivity|].
  rewrite scan_0_cons, edge_here. simpl strip_first.
  destruct (is_underscore c) eqn:Hc.
  - replace (String.length (String c s) - String.length s)%nat with 1%nat
      by (simpl; lia).
    rewrite pass_edge_inner. reflexivity.
  - rewrite pass_edge_inner. simpl. rewrite Hc. destruct s; reflexivity.
Qed.

Lemma collapse_runs_head (s : string) :
  starts_with_underscore (collapse_runs s) = starts_with_underscore s.
Proof.
  induction s as [|c s IH]; [reflexivity|]. simpl.
  destruct (is_underscore c) eqn:Hc, (starts_with_underscore s) eqn:Hs;
    simpl; rewrite ?Hc; first [reflexivity | exact IH].
Qed.

Lemma collapse_runs_collapsed (s : string) : collapsed (collapse_runs s) = true.
Proof.
  induction s as [|c s IH]; [reflexivity|]. simpl.
  destruct (is_underscore c && starts_with_underscore s) eqn:H; [exact IH|].
  simpl. rewrite collapse_runs_head, H, IH. reflexivity.
Qed.

Lemma strip_leading_collapsed (s : string) :
  collapsed s = true -> strip_leading s = strip_first s.
Proof.
  destruct s as [|c s]; [reflexivity|]. simpl.
  destruct (is_underscore c); [|reflexivity].
  destruct s as [|d s]; [reflexivity|]. simpl.
  destruct (is_underscore d); [discriminate | reflexivity].
Qed.

Lemma strip_first_collapsed (s : string) :
  collapsed s = true -> collapsed (strip_first s) = true.
Proof.
  destruct s as [|c s]; [reflexivity|]. intros H.
  unfold strip_first. destruct (is_underscore c); [|exact H].
  simpl in H. apply andb_true_iff in H as [_ H]. exact H.
Qed.

Lemma strip_trailing_empty (s : string) :
  collapsed s = true -> strip_trailing s = EmptyString ->
  s = EmptyString \/ s = "_".
Proof.
  induction s as [|c s IH]; [left; reflexivity|].
  simpl. intros Hcol Hstrip. apply andb_true_iff in Hcol as [Hc Hs].
  destruct (strip_trailing s) eqn:Ht; [|discriminate Hstrip].
  destruct (is_underscore c) eqn:Hu; [|discriminate Hstrip].
  right. destruct (IH Hs eq_refl) as [->| ->].
  - apply Ascii.eqb_eq in Hu. rewrite Hu. reflexivity.
  - simpl in Hc. discriminate Hc.
Qed.

Lemma strip_trailing_collapsed (s : string) :
  collapsed s = true -> strip_trailing s = strip_last s.
Proof.
  induction s as [|c s IH]; [reflexivity|].
  intros Hcol. simpl in Hcol. apply andb_true_iff in Hcol as [Hc Hs].
  specialize (IH Hs). simpl.
  destruct s as [|d s]; [reflexivity|].
  rewrite <- IH.
  destruct (strip_trailing (String d s)) eqn:Ht; [|reflexivity].
  destruct (strip_trailing_empty _ Hs Ht) as [Hd|Hd]; [discriminate Hd|].
  injection Hd as -> ->. simpl in Hc.
  destruct (is_underscore c); [discriminate Hc | reflexivity].
Qed.

Lemma sanitizeFilename_spec (s : string) : sanitizeFilename s = sanitize_spec s.
Proof.
  unfold sanitizeFilename, sanitize_spec.
  unfold replace_all at 3. rewrite pass_not_alnum, pass_underscores, pass_edge.
  pose proof (collapse_runs_collapsed (replace_non_alnum s)) as Hcol.
  rewrite (strip_leading_collapsed _ Hcol).
  rewrite (strip_trailing_collapsed _ (strip_first_collapsed _ Hcol)).
  reflexivity.
Qed.

(** C7: the derived file name is the three parts, each sanitized by the
    rule of the specification, joined with underscores and followed by
    the suffix; the example of the specification evaluates as stated. *)
Theorem filename_follows_rule :
  (forall name company role : string,
     filename name company role = filename_spec name company role)
  /\ filename "Jane Doe" "Acme, Inc." "Sr. Eng!" = "Jane_Doe_Acme_Inc_Sr_Eng.pdf".
Proof.
  split; [|reflexivity].
  intros name company role. unfold filename, filename_spec.
  rewrite !sanitizeFilename_spec. reflexivity.
Qed.

(** ** Matching a comma, white space and one more character *)

Lemma star_then_class (p q : ascii -> bool)
    (k : bool -> string -> option string -> option found)
    (cap : option string) (s : string) :
  (forall c, q c = true -> p c = false) ->
  forall at0,
    rmatch (Star p) at0 s cap
      (fun at0' s' cap' => rmatch (Cls q) at0' s' cap' k)
    = rmatch (Cls q) false (skip_class p s) cap k.
Proof.
  intros Hpq. induction s as [|c s IH]; intros at0; [reflexivity|].
  simpl. simpl in IH. destruct (p c) eqn:Hp.
  - rewrite IH.
    destruct (match skip_class p s with
              | String c0 s' => if q c0 then k false s' cap else None
              | EmptyString => None
              end); [reflexivity|].
    destruct (q c) eqn:Hq; [|reflexivity].
    rewrite (Hpq c Hq) in Hp. discriminate Hp.
  - reflexivity.
Qed.

Lemma closer_not_space (c : ascii) : is_closer c = true -> Str.is_space c = false.
Proof.
  unfold is_closer. intros H. apply orb_true_iff in H as [H|H];
    apply Ascii.eqb_eq in H; subst c; reflexivity.
Qed.

Lemma comma_not_space (c : ascii) : is_comma c = true -> Str.is_space c = false.
Proof. unfold is_comma. intros H. apply Ascii.eqb_eq in H. subst c. reflexivity. Qed.

Lemma trailing_here (at0 : bool) (x : ascii) (t : string) :
  match_here re_trailing_comma at0 (String x t)
  = if is_comma x
    then match skip_class Str.is_space t with
         | String c rest =>
             if is_closer c then Some (rest, Some (consumed t rest)) else None
         | EmptyString => None
         end
    else None.
Proof.
  unfold match_here, re_trailing_comma, Chr.
  change (rmatch (Seq (Cls (Ascii.eqb ","))
                    (Cap (Seq (Star Str.is_space) (Cls is_closer))))
            at0 (String x t) None (fun _ rest cap => Some (rest, cap)))
    with (if is_comma x
          then rmatch (Star Str.is_space) false t None
                 (fun at0' s' cap' =>
                    rmatch (Cls is_closer) at0' s' cap'
                      (fun _ rest _ => Some (rest, Some (consumed t rest))))
          else None).
  destruct (is_comma x); [|reflexivity].
  rewrite star_then_class by exact closer_not_space. reflexivity.
Qed.

Lemma double_here (at0 : bool) (x : ascii) (t : string) :
  match_here re_double_comma at0 (String x t)
  = if is_comma x
    then match skip_class Str.is_space t with
         | String c rest => if is_comma c then Some (rest, None) else None
         | EmptyString => None
         end
    else None.
Proof.
  unfold match_here, re_double_comma, Chr.
  change (rmatch (Seq (Cls (Ascii.eqb ","))
                    (Seq (Star Str.is_space) (Cls (Ascii.eqb ","))))
            at0 (String x t) None (fun _ rest cap => Some (rest, cap)))
    with (if is_comma x
          then rmatch (Star Str.is_space) false t None
                 (fun at0' s' cap' =>
                    rmatch (Cls is_comma) at0' s' cap'
                      (fun _ rest cap => Some (rest, cap)))
          else None).
  destruct (is_comma x); [|reflexivity].
  rewrite star_then_class by exact comma_not_space. reflexivity.
Qed.

(** ** Text lemmas *)

Lemma app_cons (c : ascii) (a b : string) :
  String c a +:+ b = String c (a +:+ b).
Proof. reflexivity. Qed.

Lemma app_nil (b : string) : EmptyString +:+ b = b.
Proof. reflexivity. Qed.

Lemma length_cons (c : ascii) (s : string) :
  String.length (String c s) = S (String.length s).
Proof. reflexivity. Qed.

Lemma length_app (a b : string) :
  String.length (a +:+ b) = (String.length a + String.length b)%nat.
Proof.
  induction a as [|c a IH]; [reflexivity|].
  rewrite app_cons. simpl. rewrite IH. reflexivity.
Qed.

Lemma app_assoc (a b c : string) : (a +:+ b) +:+ c = a +:+ (b +:+ c).
Proof.
  induction a as [|x a IH]; [reflexivity|].
  rewrite !app_cons, IH. reflexivity.
Qed.

Lemma substring_prefix (p s : string) :
  String.substring 0 (String.length p) (p +:+ s) = p.
Proof.
  induction p as [|c p IH]; [destruct s; reflexivity|].
  rewrite app_cons. simpl. rewrite IH. reflexivity.
Qed.

Lemma consumed_app (p s : string) : consumed (p +:+ s) s = p.
Proof.
  unfold consumed. rewrite length_app.
  replace (String.length p + String.length s - String.length s)%nat
    with (String.length p) by lia.
  apply substring_prefix.
Qed.

Lemma skip_space_app (ws : string) (c : ascii) (s : string) :
  all_space ws = true -> Str.is_space c = false ->
  skip_class Str.is_space (ws +:+ String c s) = String c s.
Proof.
  intros Hws Hc. induction ws as [|x ws IH].
  - rewrite app_nil. simpl. rewrite Hc. reflexivity.
  - simpl in Hws. apply andb_true_iff in Hws as [Hx Hws].
    rewrite app_cons. simpl. rewrite Hx. apply IH. exact Hws.
Qed.

(** ** Scanning a text in which the pattern has no match *)

Lemma trailing_unanchored : unanchored re_trailing_comma.
Proof. intros [|x t]; [reflexivity|]. rewrite !trailing_here. reflexivity. Qed.

Lemma double_unanchored : unanchored re_double_comma.
Proof. intros [|x t]; [reflexivity|]. rewrite !double_here. reflexivity. Qed.

Lemma match_here_unanchored (r : regex) (at0 : bool) (s : string) :
  unanchored r -> match_here r at0 s = match_here r false s.
Proof. intros H. destruct at0; [apply H | reflexivity]. Qed.

Lemma has_match_cons (r : regex) (c : ascii) (s : string) :
  has_match r (String c s) = false ->
  match_here r false (String c s) = None /\ has_match r s = false.
Proof.
  simpl. destruct (match_here r false (String c s)); [discriminate|].
  intros H. split; [reflexivity | exact H].
Qed.

Lemma has_match_suffix (r : regex) (p s : string) :
  has_match r (p +:+ s) = false -> has_match r s = false.
Proof.
  induction p as [|c p IH]; [trivial|].
  rewrite app_cons. intros H. apply has_match_cons in H as [_ H].
  apply IH. exact H.
Qed.

Lemma scan_no_match (r : regex) (repl : option string -> string) (s : string) :
  unanchored r -> has_match r s = false ->
  forall at0, scan r repl at0 0 s = s.
Proof.
  intros Hr. induction s as [|c s IH]; intros Hno at0.
  - simpl. rewrite (match_here_unanchored r at0) by exact Hr.
    simpl in Hno. destruct (match_here r false EmptyString); [discriminate|].
    reflexivity.
  - apply has_match_cons in Hno as [Hhere Hrest].
    rewrite scan_0_cons, (match_here_unanchored r at0), Hhere by exact Hr.
    rewrite IH by exact Hrest. reflexivity.
Qed.

Lemma scan_skip_prefix (r : regex) (repl : option string -> string)
    (p s : string) :
  scan r repl false (String.length p) (p +:+ s) = scan r repl false 0 s.
Proof. induction p as [|c p IH]; [reflexivity | rewrite app_cons; exact IH]. Qed.

(** ** The trailing comma pass *)

Lemma trailing_none (at0 : bool) (x : ascii) (t : string) :
  match_here re_trailing_comma at0 (String x t) = None
  <-> is_comma x && head_is is_closer (skip_class Str.is_space t) = false.
Proof.
  rewrite trailing_here. destruct (is_comma x); simpl; [|tauto].
  destruct (skip_class Str.is_space t) as [|c rest]; simpl; [tauto|].
  destruct (is_closer c); split; intros H; first [discriminate | reflexivity].
Qed.

Lemma trailing_added_head (clean dirty : string) :
  trailing_added clean dirty ->
  head_is is_closer (skip_class Str.is_space dirty) = true ->
  head_is is_closer (skip_class Str.is_space clean) = true.
Proof.
  induction 1 as [|c clean dirty _ IH|ws c clean dirty Hws Hc _ _].
  - trivial.
  - simpl. destruct (Str.is_space c); [exact IH | trivial].
  - simpl. discriminate.
Qed.

Lemma pass_trailing (clean dirty : string) :
  trailing_added clean dirty ->
  has_match re_trailing_comma clean = false ->
  forall at0, scan re_trailing_comma group1 at0 0 dirty = clean.
Proof.
  induction 1 as [|c clean dirty Hadd IH|ws c clean dirty Hws Hc Hadd IH];
    intros Hno at0.
  - reflexivity.
  - apply has_match_cons in Hno as [Hhere Hrest].
    assert (Hd : match_here re_trailing_comma at0 (String c dirty) = None).
    { apply trailing_none. apply trailing_none in Hhere.
      destruct (is_comma c); [|reflexivity]. simpl in *.
      destruct (head_is is_closer (skip_class Str.is_space dirty)) eqn:Hh;
        [|reflexivity].
      rewrite (trailing_added_head _ _ Hadd Hh) in Hhere. discriminate Hhere. }
    rewrite scan_0_cons, Hd, IH by exact Hrest. reflexivity.
  - apply has_match_suffix in Hno. apply has_match_cons in Hno as [_ Hrest].
    rewrite scan_0_cons, trailing_here.
    change (is_comma ",") with true. cbv iota.
    rewrite (skip_space_app ws c dirty Hws (closer_not_space c Hc)), Hc.
    change (ws +:+ String c dirty) with (ws +:+ (String c EmptyString +:+ dirty)).
    rewrite <- app_assoc, consumed_app.
    replace (String.length (String "," ((ws +:+ String c EmptyString) +:+ dirty))
             - String.length dirty)%nat
      with (S (String.length (ws +:+ String c EmptyString)))
      by (rewrite length_cons, !length_app; lia).
    rewrite scan_skip_prefix, IH by exact Hrest.
    unfold group1. simpl. rewrite app_assoc. reflexivity.
Qed.

(** ** The double comma pass *)

Lemma double_none (at0 : bool) (x : ascii) (t : string) :
  match_here re_double_comma at0 (String x t) = None
  <-> is_comma x && head_is is_comma (skip_class Str.is_space t) = false.
Proof.
  rewrite double_here. destruct (is_comma x); simpl; [|tauto].
  destruct (skip_class Str.is_space t) as [|c rest]; simpl; [tauto|].
  destruct (is_comma c); split; intros H; first [discriminate | reflexivity].
Qed.

Lemma comma_doubled_head (q : ascii -> bool) (clean dirty : string) :
  comma_doubled clean dirty ->
  head_is q (skip_class Str.is_space dirty)
  = head_is q (skip_class Str.is_space clean).
Proof.
  induction 1 as [|c clean dirty _ IH|ws clean dirty Hws _ _].
  - reflexivity.
  - simpl. destruct (Str.is_space c); [exact IH | reflexivity].
  - reflexivity.
Qed.

Lemma pass_double (clean dirty : string) :
  comma_doubled clean dirty ->
  has_match re_double_comma clean = false ->
  forall at0, scan re_double_comma (const ",") at0 0 dirty = clean.
Proof.
  induction 1 as [|c clean dirty Hd IH|ws clean dirty Hws Hd IH];
    intros Hno at0.
  - reflexivity.
  - apply has_match_cons in Hno as [Hhere Hrest].
    assert (Hn : match_here re_double_comma at0 (String c dirty) = None).
    { apply double_none. apply double_none in Hhere.
      rewrite (comma_doubled_head _ _ _ Hd). exact Hhere. }
    rewrite scan_0_cons, Hn, IH by exact Hrest. reflexivity.
  - apply has_match_cons in Hno as [_ Hrest].
    rewrite scan_0_cons, double_here.
    change (is_comma ",") with true. cbv iota.
    rewrite (skip_space_app ws "," dirty Hws eq_refl).
    change (is_comma ",") with true. cbv iota.
    change (ws +:+ String "," dirty) with (ws +:+ (String "," EmptyString +:+ dirty)).
    rewrite <- app_assoc.
    replace (String.length (String "," ((ws +:+ String "," EmptyString) +:+ dirty))
             - String.length dirty)%nat
      with (S (String.length (ws +:+ String "," EmptyString)))
      by (rewrite length_cons, !length_app; lia).
    rewrite scan_skip_prefix, IH by exact Hrest. reflexivity.
Qed.

(** Doubling commas creates no comma in front of a closer. *)
Lemma has_match_spaces (ws s : string) :
  all_space ws = true ->
  has_match re_trailing_comma s = false ->
  has_match re_trailing_comma (ws +:+ s) = false.
Proof.
  intros Hws Hs. induction ws as [|x ws IH]; [exact Hs|].
  simpl in Hws. apply andb_true_iff in Hws as [Hx Hws].
  rewrite app_cons. simpl has_match. rewrite trailing_here.
  destruct (is_comma x) eqn:Hc.
  - rewrite (comma_not_space x Hc) in Hx. discriminate Hx.
  - apply IH. exact Hws.
Qed.

Lemma has_match_intro (r : regex) (c : ascii) (s : string) :
  match_here r false (String c s) = None -> has_match r s = false ->
  has_match r (String c s) = false.
Proof. intros Hh Hs. simpl. rewrite Hh. exact Hs. Qed.

Lemma doubled_no_trailing (clean dirty : string) :
  comma_doubled clean dirty ->
  has_match re_trailing_comma clean = false ->
  has_match re_trailing_comma dirty = false.
Proof.
  induction 1 as [|c clean dirty Hd IH|ws clean dirty Hws Hd IH]; intros Hno.
  - exact Hno.
  - apply has_match_cons in Hno as [Hhere Hrest].
    apply has_match_intro; [|apply IH; exact Hrest].
    apply trailing_none. apply trailing_none in Hhere.
    rewrite (comma_doubled_head _ _ _ Hd). exact Hhere.
  - apply has_match_cons in Hno as [Hhere Hrest].
    apply has_match_intro.
    + apply trailing_none.
      rewrite (skip_space_app ws "," dirty Hws eq_refl). reflexivity.
    + apply has_match_spaces; [exact Hws|].
      apply has_match_intro; [|apply IH; exact Hrest].
      apply trailing_none. apply trailing_none in Hhere.
      rewrite (comma_doubled_head _ _ _ Hd). exact Hhere.
Qed.

Lemma fixContent_removes_added_commas (clean doubled content : string) :
  comma_doubled clean doubled ->
  trailing_added doubled content ->
  has_match re_trailing_comma clean = false ->
  has_match re_double_comma clean = false ->
  fixContent content = clean.
Proof.
  intros Hd Ht Hnt Hnd. unfold fixContent, replace_all.
  rewrite (pass_trailing doubled content Ht)
    by (eapply doubled_no_trailing; eassumption).
  apply pass_double; assumption.
Qed.

(** C5, as stated, fails.  The repair rewrites the text, string contents
    included: with a title that contains a comma and a closing brace, the
    repaired content differs from the comma-free equivalent.  And a
    doubled comma in front of the closing brace is not repaired at all. *)
Lemma repair_is_textual :
  let content :=
    dq "{'title':'a,}','summary':'B','skills':{},'experience':[],}" in
  let clean :=
    dq "{'title':'a,}','summary':'B','skills':{},'experience':[]}" in
  let doubled :=
    dq "{'title':'A','summary':'B','skills':{},'experience':[],,}" in
  let single :=
    dq "{'title':'A','summary':'B','skills':{},'experience':[],}" in
  let plain :=
    dq "{'title':'A','summary':'B','skills':{},'experience':[]}" in
  (trailing_added clean content
   /\ (exists parseError, JSON.parse content = Throw parseError)
   /\ normalize content
      = Ok (JObj [("title", JStr "a}"); ("summary", JStr "B");
                  ("skills", JObj []); ("experience", JArr [])])
   /\ normalize clean
      = Ok (JObj [("title", JStr "a,}"); ("summary", JStr "B");
                  ("skills", JObj []); ("experience", JArr [])])
   /\ normalize content <> normalize clean)
  /\ (trailing_added plain single
      /\ comma_doubled single doubled
      /\ (exists parseError,
            JSON.parse doubled = Throw parseError
            /\ normalize doubled
               = Throw (Error ("Invalid JSON format: " +:+
                               message parseError +:+
                               ". Please check your JSON syntax.")))
      /\ normalize plain
         = Ok (JObj [("title", JStr "A"); ("summary", JStr "B");
                     ("skills", JObj []); ("experience", JArr [])])).
Proof.
  split.
  - split.
    { vm_compute. repeat apply ta_keep.
      apply (ta_add EmptyString "}" EmptyString EmptyString);
        [reflexivity | reflexivity | apply ta_end]. }
    split; [eexists; vm_compute; reflexivity|].
    vm_compute. repeat split. discriminate.
  - split.
    { vm_compute. repeat apply ta_keep.
      apply (ta_add EmptyString "}" EmptyString EmptyString);
        [reflexivity | reflexivity | apply ta_end]. }
    split.
    { vm_compute. do 54 apply cd_keep.
      apply (cd_double EmptyString); [reflexivity|].
      repeat apply cd_keep. apply cd_end. }
    split; [eexists; split; vm_compute; reflexivity|].
    vm_compute. reflexivity.
Qed.

(** C5, amended: after a failed strict parse the repaired text is parsed
    once; its value is the result, and when it fails too the error carries
    the message of the first failure.  When the span is a text [clean]
    with single commas added in front of closers and after commas, and
    [clean] itself has no comma followed by white space and a closer or a
    comma, the repaired text is [clean], so normalization gives what it
    gives for the comma-free equivalent. *)
Theorem repair_pass_result (jd content : string) (parseError : exn) :
  extractContent jd = Ok content ->
  JSON.parse content = Throw parseError ->
  parseContent content
  = match JSON.parse (fixContent content) with
    | Ok resumeContent => Ok resumeContent
    | Throw _ =>
        Throw (Error ("Invalid JSON format: " +:+ message parseError +:+
                      ". Please check your JSON syntax."))
    end
  /\ (forall secondError,
        JSON.parse (fixContent content) = Throw secondError ->
        normalize jd
        = Throw (Error ("Invalid JSON format: " +:+ message parseError +:+
                        ". Please check your JSON syntax.")))
  /\ (forall clean doubled jd' resumeContent,
        comma_doubled clean doubled ->
        trailing_added doubled content ->
        has_match re_trailing_comma clean = false ->
        has_match re_double_comma clean = false ->
        extractContent jd' = Ok clean ->
        JSON.parse clean = Ok resumeContent ->
        parseContent content = Ok resumeContent
        /\ normalize jd = normalize jd').
Proof.
  intros Hx Hfail.
  assert (Hparse : parseContent content
                   = match JSON.parse (fixContent content) with
                     | Ok resumeContent => Ok resumeContent
                     | Throw _ =>
                         Throw (Error ("Invalid JSON format: " +:+
                                       message parseError +:+
                                       ". Please check your JSON syntax."))
                     end).
  { unfold parseContent. rewrite Hfail. reflexivity. }
  split; [exact Hparse|]. split.
  - intros secondError Hsecond. unfold normalize. rewrite Hx. simpl.
    rewrite Hparse, Hsecond. reflexivity.
  - intros clean doubled jd' resumeContent Hd Ht Hnt Hnd Hx' Hclean.
    assert (Hfixed : parseContent content = Ok resumeContent).
    { rewrite Hparse,
        (fixContent_removes_added_commas clean doubled content Hd Ht Hnt Hnd),
        Hclean. reflexivity. }
    split; [exact Hfixed|].
    unfold normalize. rewrite Hx, Hx'. simpl. rewrite Hfixed.
    unfold parseContent. rewrite Hclean. reflexivity.
Qed.

Lemma repair_pass_result_witness :
  normalize (dq "{'title':'A','summary':'B','skills':{},'experience':[],}")
  = normalize (dq "{'title':'A','summary':'B','skills':{},'experience':[]}").
Proof.
  destruct (repair_pass_result
              (dq "{'title':'A','summary':'B','skills':{},'experience':[],}")
              (dq "{'title':'A','summary':'B','skills':{},'experience':[],}")
              (SyntaxError "Unexpected token } in JSON at position 55"))
    as (_ & _ & H).
  - vm_compute. reflexivity.
  - vm_compute. reflexivity.
  - apply (H (dq "{'title':'A','summary':'B','skills':{},'experience':[]}")
             (dq "{'title':'A','summary':'B','skills':{},'experience':[]}")
             (dq "{'title':'A','summary':'B','skills':{},'experience':[]}")
             (JObj [("title", JStr "A"); ("summary", JStr "B");
                    ("skills", JObj []); ("experience", JArr [])])).
    + vm_compute. repeat constructor.
    + vm_compute. repeat apply ta_keep.
      apply (ta_add EmptyString "}" EmptyString EmptyString);
        [reflexivity | reflexivity | apply ta_end].
    + vm_compute. reflexivity.
    + vm_compute. reflexivity.
    + vm_compute. reflexivity.
    + vm_compute. reflexivity.
Defined.

(* ===================================================================== *)
(** * Further properties of the code *)
(* ===================================================================== *)

(** ** What a derived file name looks like *)

Lemma all_chars_app (p : ascii -> bool) (a b : string) :
  all_chars p (a +:+ b) = all_chars p a && all_chars p b.
Proof.
  induction a as [|c a IH]; [reflexivity|].
  rewrite app_cons. simpl. rewrite IH, andb_assoc. reflexivity.
Qed.

Lemma all_chars_weaken (p q : ascii -> bool) (s : string) :
  (forall c, p c = true -> q c = true) ->
  all_chars p s = true -> all_chars q s = true.
Proof.
  intros Hpq. induction s as [|c s IH]; [trivial|]. simpl.
  intros H. apply andb_true_iff in H as [Hc Hs].
  rewrite (Hpq c Hc), (IH Hs). reflexivity.
Qed.

Lemma replace_non_alnum_chars (s : string) :
  all_chars is_word_char (replace_non_alnum s) = true.
Proof.
  induction s as [|c s IH]; [reflexivity|]. simpl. rewrite IH, andb_true_r.
  unfold is_word_char. destruct (is_alnum c) eqn:Hc; [rewrite Hc|]; reflexivity.
Qed.

Lemma collapse_runs_chars (p : ascii -> bool) (s : string) :
  all_chars p s = true -> all_chars p (collapse_runs s) = true.
Proof.
  induction s as [|c s IH]; [trivial|]. simpl. intros H.
  apply andb_true_iff in H as [Hc Hs].
  destruct (is_underscore c && starts_with_underscore s); [exact (IH Hs)|].
  simpl. rewrite Hc, (IH Hs). reflexivity.
Qed.

Lemma strip_leading_chars (p : ascii -> bool) (s : string) :
  all_chars p s = true -> all_chars p (strip_leading s) = true.
Proof.
  induction s as [|c s IH]; [trivial|]. simpl. intros H.
  destruct (is_underscore c); [|exact H].
  apply andb_true_iff in H as [_ Hs]. exact (IH Hs).
Qed.

Lemma strip_trailing_chars (p : ascii -> bool) (s : string) :
  all_chars p s = true -> all_chars p (strip_trailing s) = true.
Proof.
  induction s as [|c s IH]; [trivial|]. simpl. intros H.
  apply andb_true_iff in H as [Hc Hs]. specialize (IH Hs).
  destruct (strip_trailing s) as [|d t].
  - destruct (is_underscore c); [reflexivity|]. simpl. rewrite Hc. reflexivity.
  - change (all_chars p (String c (String d t)))
      with (p c && all_chars p (String d t)).
    rewrite Hc, IH. reflexivity.
Qed.

Lemma sanitize_chars (s : string) :
  all_chars is_word_char (sanitizeFilename s) = true.
Proof.
  rewrite sanitizeFilename_spec. unfold sanitize_spec.
  apply strip_trailing_chars, strip_leading_chars, collapse_runs_chars,
    replace_non_alnum_chars.
Qed.

Lemma filename_only_name_chars (name company role : string) :
  all_chars is_name_char (filename name company role) = true
  /\ all_chars (fun c => negb (Ascii.eqb c Str.dquote)) (filename name company role)
     = true.
Proof.
  assert (Hw : forall s, all_chars is_name_char (sanitizeFilename s) = true).
  { intros s. apply (all_chars_weaken is_word_char); [|apply sanitize_chars].
    intros c Hc. unfold is_name_char. unfold is_word_char in Hc.
    rewrite Hc. reflexivity. }
  assert (H : all_chars is_name_char (filename name company role) = true).
  { unfold filename. rewrite !all_chars_app, !Hw. reflexivity. }
  split; [exact H|].
  apply (all_chars_weaken is_name_char); [|exact H].
  intros c. destruct c as [[] [] [] [] [] [] [] []]; simpl; intros Hc;
    first [reflexivity | discriminate Hc].
Qed.

(** X1: the file name of a served document is made of letters, digits,
    underscores and the dot of its extension only; in particular it holds
    no double quote, so it cannot end the quoted value of the
    Content-Disposition header early. *)
Theorem filename_chars (name company role : string) :
  all_chars is_name_char (filename name company role) = true
  /\ all_chars (fun c => negb (Ascii.eqb c Str.dquote)) (filename name company role)
     = true.
Proof. exact (filename_only_name_chars name company role). Qed.

(** *** No underscore at either end, none doubled *)

Lemma strip_leading_head (s : string) :
  starts_with_underscore (strip_leading s) = false.
Proof.
  induction s as [|c s IH]; [reflexivity|]. simpl.
  destruct (is_underscore c) eqn:Hc; [exact IH | simpl; exact Hc].
Qed.

Lemma strip_trailing_head (s : string) :
  starts_with_underscore s = false ->
  starts_with_underscore (strip_trailing s) = false.
Proof.
  destruct s as [|c s]; [trivial|]. simpl. intros Hc.
  destruct (strip_trailing s); [rewrite Hc|]; simpl; exact Hc.
Qed.

Lemma strip_trailing_end (s : string) :
  ends_with_underscore (strip_trailing s) = false.
Proof.
  induction s as [|c s IH]; [reflexivity|]. simpl.
  destruct (strip_trailing s) as [|d t] eqn:Ht.
  - destruct (is_underscore c) eqn:Hc; [reflexivity | simpl; exact Hc].
  - exact IH.
Qed.

Lemma strip_leading_keeps_collapsed (s : string) :
  collapsed s = true -> collapsed (strip_leading s) = true.
Proof.
  induction s as [|c s IH]; [trivial|]. intros H. simpl.
  destruct (is_underscore c); [|exact H].
  simpl in H. apply andb_true_iff in H as [_ H]. exact (IH H).
Qed.

Lemma strip_trailing_starts (s : string) :
  starts_with_underscore (strip_trailing s) = true ->
  starts_with_underscore s = true.
Proof.
  destruct s as [|c s]; [trivial|]. simpl.
  destruct (strip_trailing s); [destruct (is_underscore c) eqn:Hc|];
    simpl; try rewrite Hc; trivial.
Qed.

Lemma strip_trailing_keeps_collapsed (s : string) :
  collapsed s = true -> collapsed (strip_trailing s) = true.
Proof.
  induction s as [|c s IH]; [trivial|]. intros H.
  simpl in H. apply andb_true_iff in H as [Hc Hs]. specialize (IH Hs).
  pose proof (strip_trailing_starts s) as Hst.
  simpl. destruct (strip_trailing s) as [|d t] eqn:Ht.
  - destruct (is_underscore c) eqn:Hu; [reflexivity|].
    simpl. rewrite Hu. reflexivity.
  - change (collapsed (String c (String d t)))
      with (negb (is_underscore c && starts_with_underscore (String d t))
            && collapsed (String d t)).
    rewrite IH, andb_true_r.
    destruct (is_underscore c) eqn:Hu; [|reflexivity].
    destruct (starts_with_underscore (String d t)) eqn:Hd; [|reflexivity].
    rewrite (Hst eq_refl) in Hc. discriminate Hc.
Qed.

Lemma sanitize_shape (s : string) :
  starts_with_underscore (sanitizeFilename s) = false
  /\ ends_with_underscore (sanitizeFilename s) = false
  /\ collapsed (sanitizeFilename s) = true.
Proof.
  rewrite sanitizeFilename_spec. unfold sanitize_spec. split; [|split].
  - apply strip_trailing_head, strip_leading_head.
  - apply strip_trailing_end.
  - apply strip_trailing_keeps_collapsed, strip_leading_keeps_collapsed,
      collapse_runs_collapsed.
Qed.

(** X2: a sanitized name neither begins nor ends with an underscore, and
    holds no two underscores in a row. *)
Theorem sanitize_underscores (s : string) :
  starts_with_underscore (sanitizeFilename s) = false
  /\ ends_with_underscore (sanitizeFilename s) = false
  /\ collapsed (sanitizeFilename s) = true.
Proof. exact (sanitize_shape s). Qed.

(** *** Sanitizing twice, and what is kept *)

Lemma replace_non_alnum_fixed (s : string) :
  all_chars is_word_char s = true -> replace_non_alnum s = s.
Proof.
  induction s as [|c s IH]; [trivial|]. simpl. intros H.
  apply andb_true_iff in H as [Hc Hs]. rewrite (IH Hs).
  unfold is_word_char in Hc. destruct (is_alnum c); [reflexivity|].
  simpl in Hc. apply Ascii.eqb_eq in Hc. subst c. reflexivity.
Qed.

Lemma collapse_runs_fixed (s : string) :
  collapsed s = true -> collapse_runs s = s.
Proof.
  induction s as [|c s IH]; [trivial|]. simpl. intros H.
  apply andb_true_iff in H as [Hc Hs]. rewrite (IH Hs).
  destruct (is_underscore c && starts_with_underscore s);
    [discriminate Hc | reflexivity].
Qed.

Lemma strip_leading_fixed (s : string) :
  starts_with_underscore s = false -> strip_leading s = s.
Proof. destruct s as [|c s]; [trivial|]. simpl. intros ->. reflexivity. Qed.

Lemma strip_trailing_fixed (s : string) :
  ends_with_underscore s = false -> strip_trailing s = s.
Proof.
  induction s as [|c s IH]; [trivial|]. intros H.
  destruct s as [|d t].
  - simpl in *. rewrite H. reflexivity.
  - change (ends_with_underscore (String c (String d t)))
      with (ends_with_underscore (String d t)) in H.
    change (strip_trailing (String c (String d t)))
      with (match strip_trailing (String d t) with
            | EmptyString =>
                if is_underscore c then EmptyString else String c EmptyString
            | t' => String c t'
            end).
    rewrite (IH H). reflexivity.
Qed.

(** X3: sanitizing a sanitized name changes nothing. *)
Theorem sanitize_idempotent (s : string) :
  sanitizeFilename (sanitizeFilename s) = sanitizeFilename s.
Proof.
  destruct (sanitize_shape s) as (Hhead & Hend & Hcol).
  pose proof (sanitize_chars s) as Hchars.
  rewrite (sanitizeFilename_spec (sanitizeFilename s)). unfold sanitize_spec.
  rewrite (replace_non_alnum_fixed _ Hchars), (collapse_runs_fixed _ Hcol),
    (strip_leading_fixed _ Hhead), (strip_trailing_fixed _ Hend).
  reflexivity.
Qed.

Lemma underscore_not_alnum (c : ascii) :
  is_underscore c = true -> is_alnum c = false.
Proof. intros H. apply Ascii.eqb_eq in H. subst c. reflexivity. Qed.

Lemma replace_non_alnum_kept (s : string) :
  drop_chars not_alnum (replace_non_alnum s) = drop_chars not_alnum s.
Proof.
  induction s as [|c s IH]; [reflexivity|].
  cbn [drop_chars replace_non_alnum]. rewrite IH.
  destruct (is_alnum c) eqn:Hc; [reflexivity|].
  unfold not_alnum. rewrite Hc. reflexivity.
Qed.

Lemma collapse_runs_kept (s : string) :
  drop_chars not_alnum (collapse_runs s) = drop_chars not_alnum s.
Proof.
  induction s as [|c s IH]; [reflexivity|].
  cbn [drop_chars collapse_runs].
  destruct (is_underscore c && starts_with_underscore s) eqn:H.
  - apply andb_true_iff in H as [Hu _].
    unfold not_alnum at 2. rewrite (underscore_not_alnum c Hu). exact IH.
  - cbn [drop_chars]. rewrite IH. reflexivity.
Qed.

Lemma strip_leading_kept (s : string) :
  drop_chars not_alnum (strip_leading s) = drop_chars not_alnum s.
Proof.
  induction s as [|c s IH]; [reflexivity|].
  cbn [drop_chars strip_leading].
  destruct (is_underscore c) eqn:Hu; [|reflexivity].
  unfold not_alnum at 2. rewrite (underscore_not_alnum c Hu). exact IH.
Qed.

Lemma strip_trailing_kept (s : string) :
  drop_chars not_alnum (strip_trailing s) = drop_chars not_alnum s.
Proof.
  induction s as [|c s IH]; [reflexivity|].
  cbn [drop_chars strip_trailing]. rewrite <- IH.
  destruct (strip_trailing s) as [|d t]; [|reflexivity].
  destruct (is_underscore c) eqn:Hu; [|reflexivity].
  unfold not_alnum. rewrite (underscore_not_alnum c Hu). reflexivity.
Qed.

Lemma sanitize_kept (s : string) :
  drop_chars is_underscore (sanitizeFilename s) = drop_chars not_alnum s.
Proof.
  assert (Hu : forall t, all_chars is_word_char t = true ->
                 drop_chars is_underscore t = drop_chars not_alnum t).
  { induction t as [|c t IH]; [trivial|]. simpl. intros H.
    apply andb_true_iff in H as [Hc Ht]. rewrite (IH Ht).
    unfold is_word_char in Hc. unfold not_alnum.
    destruct (is_underscore c) eqn:Hus.
    - rewrite (underscore_not_alnum c Hus). reflexivity.
    - rewrite orb_false_r in Hc. rewrite Hc. reflexivity. }
  rewrite (Hu _ (sanitize_chars s)), sanitizeFilename_spec.
  unfold sanitize_spec.
  rewrite strip_trailing_kept, strip_leading_kept, collapse_runs_kept,
    replace_non_alnum_kept.
  reflexivity.
Qed.

(** X4: sanitizing keeps the letters and digits of the name, all of
    them and in order; everything else it leaves is underscores. *)
Theorem sanitize_keeps_alnum (s : string) :
  drop_chars is_underscore (sanitizeFilename s) = drop_chars not_alnum s.
Proof. exact (sanitize_kept s). Qed.

Lemma drop_chars_empty (p : ascii -> bool) (s : string) :
  drop_chars p s = EmptyString <-> all_chars p s = true.
Proof.
  induction s as [|c s IH]; [simpl; tauto|]. simpl.
  destruct (p c); simpl; [exact IH|]. split; discriminate.
Qed.

(** X5: the sanitized name is empty exactly when the name holds no
    letter and no digit. *)
Theorem sanitize_empty_iff (s : string) :
  sanitizeFilename s = EmptyString <-> all_chars not_alnum s = true.
Proof.
  rewrite <- drop_chars_empty, <- sanitize_kept. split.
  - intros ->. reflexivity.
  - intros H. apply drop_chars_empty in H.
    destruct (sanitize_shape s) as (Hhead & _ & _).
    destruct (sanitizeFilename s) as [|c t]; [reflexivity|].
    simpl in H, Hhead. rewrite Hhead in H. discriminate H.
Qed.

(** ** Template registry: reuse, fallback, and the missing default *)

Lemma getTemplate_S (w : World) (depth : nat) (templateName : string)
    (st : State) :
  getTemplate w (S depth) templateName st
  = match templateCache st !! resolved templateName with
    | Some cached => (Ok cached, st)
    | None =>
        match TEMPLATE_OPTIONS_get (resolved templateName) with
        | Own templateFile =>
            if negb (existsSync w (path_join (cwd w) "templates" templateFile))
            then getTemplate w depth "default" st
            else
              match readFileSync w (path_join (cwd w) "templates" templateFile) with
              | Throw e => (Throw e, st)
              | Ok templateSource =>
                  (Ok (Handlebars_compile w templateSource),
                   set_templateCache
                     (<[resolved templateName := Handlebars_compile w templateSource]>
                        (templateCache st)) st)
              end
        | _ =>
            (Throw (TypeError
               (dq "The 'path' argument must be of type string.")), st)
        end
    end.
Proof. reflexivity. Qed.

(** X6: without the default layout's file, asking for the default
    layout never returns: the call recurses until the stack is used up. *)
Theorem default_missing_overflows (w : World) (depth : nat) (st : State) :
  templateCache st !! "default" = None ->
  existsSync w (default_path w) = false ->
  getTemplate w depth "default" st
  = (Throw (RangeError "Maximum call stack size exceeded"), st).
Proof.
  intros Hc Hex. induction depth as [|depth IH]; [reflexivity|].
  rewrite getTemplate_S. change (resolved "default") with "default".
  rewrite Hc. change (TEMPLATE_OPTIONS_get "default") with (Own "Resume.html").
  cbv beta iota. unfold default_path in Hex. rewrite Hex. exact IH.
Qed.

Lemma default_missing_overflows_witness :
  let bare := Demo.world None None in
  let w :=
    {| cwd := cwd bare; existsSync := fun _ => false;
       readFileSync := readFileSync bare;
       Handlebars_compile := Handlebars_compile bare;
       isServerless := isServerless bare; launch := launch bare;
       newPage := newPage bare; setContent := setContent bare;
       pdf := pdf bare; close := close bare |} in
  getTemplate w 40 "default" initial
  = (Throw (RangeError "Maximum call stack size exceeded"), initial).
Proof.
  apply (default_missing_overflows _ 40 initial); reflexivity.
Defined.

Lemma own_in_registry (k file : string) :
  TEMPLATE_OPTIONS_get k = Own file ->
  assoc k TEMPLATE_OPTIONS = Some file.
Proof.
  unfold TEMPLATE_OPTIONS_get.
  destruct (assoc k TEMPLATE_OPTIONS) as [f|].
  - intros H. injection H as ->. reflexivity.
  - destruct (existsb (String.eqb k) Object_prototype); discriminate.
Qed.

Lemma registry_files_named (k file : string) :
  assoc k TEMPLATE_OPTIONS = Some file -> file <> EmptyString.
Proof.
  unfold TEMPLATE_OPTIONS. simpl.
  repeat match goal with
         | |- context [String.eqb k ?x] => destruct (String.eqb k x)
         end;
    intros H; first [discriminate H | injection H as <-; discriminate].
Qed.

Lemma resolved_own (templateName : string) :
  TEMPLATE_OPTIONS_get templateName <> Inherited templateName ->
  exists file, TEMPLATE_OPTIONS_get (resolved templateName) = Own file
               /\ assoc (resolved templateName) TEMPLATE_OPTIONS = Some file.
Proof.
  intros Hn. unfold resolved.
  destruct (TEMPLATE_OPTIONS_get templateName) as [file|key|] eqn:Hget.
  - pose proof (own_in_registry _ _ Hget) as Ha.
    pose proof (registry_files_named _ _ Ha) as Hne.
    simpl. destruct (String.eqb_spec file EmptyString) as [->|_];
      [congruence|]. simpl. rewrite Hget. eauto.
  - exfalso. apply Hn. f_equal.
    unfold TEMPLATE_OPTIONS_get in Hget.
    destruct (assoc templateName TEMPLATE_OPTIONS); [discriminate|].
    destruct (existsb (String.eqb templateName) Object_prototype);
      [injection Hget as <-; reflexivity | discriminate].
  - simpl. exists "Resume.html". split; reflexivity.
Qed.

(** [getTemplate] changes nothing but the template cache, and there
    only adds a coherent entry. *)
Lemma getTemplate_coherent (w : World) (depth : nat) :
  forall templateName,
    preserves (templates_coherent w) (getTemplate w depth templateName).
Proof.
  induction depth as [|depth IH]; intros templateName st r st' H HP.
  - injection H as _ <-. exact HP.
  - rewrite getTemplate_S in H.
    destruct (templateCache st !! resolved templateName);
      [injection H as _ <-; exact HP|].
    destruct (TEMPLATE_OPTIONS_get (resolved templateName)) as [file|key|]
      eqn:Hget; try (injection H as _ <-; exact HP).
    destruct (existsSync w (path_join (cwd w) "templates" file)) eqn:Hex;
      simpl in H; [|eapply IH; eassumption].
    destruct (readFileSync w (path_join (cwd w) "templates" file))
      as [source|e] eqn:Hrd; injection H as _ <-; [|exact HP].
    intros k t Hk. simpl in Hk.
    destruct (decide (resolved templateName = k)) as [<-|Hne].
    + rewrite lookup_insert_eq in Hk. injection Hk as <-.
      exists file, source. split; [apply own_in_registry; exact Hget|].
      repeat split; assumption.
    + rewrite lookup_insert_ne in Hk by exact Hne. apply HP. exact Hk.
Qed.

(** ** Invariants of the handler *)

Section HandlerInvariant.
Variable w : World.
Variable P : State -> Prop.
Hypothesis P_sessions : forall st n, P st -> P (set_openSessions n st).
Hypothesis P_loadProfile : forall name, preserves P (loadProfile w name).
Hypothesis P_getTemplate :
  forall depth name, preserves P (getTemplate w depth name).

Lemma renderPdf_preserves (html : string) : preserves P (renderPdf w html).
Proof.
  assert (Hs : forall f : nat -> nat,
             preserves P (fun st =>
               (Ok tt, set_openSessions (f (openSessions st)) st))).
  { intros f st r st' H HP. injection H as _ <-. apply P_sessions, HP. }
  assert (He : forall o, preserves P (engine o)).
  { intros [e|]; [apply preserves_throw | apply preserves_ret]. }
  unfold renderPdf.
  repeat first
    [ apply preserves_bind; [|intros ?]
    | apply He
    | apply preserves_lift
    | apply preserves_ret
    | apply (Hs S)
    | apply (Hs Nat.pred) ].
Qed.

Lemma handler_try_preserves (stackDepth : nat) (req : Request) :
  preserves P (handler_try w stackDepth req).
Proof.
  unfold handler_try.
  repeat first
    [ apply preserves_ret
    | apply preserves_lift
    | apply P_loadProfile
    | apply P_getTemplate
    | apply renderPdf_preserves
    | apply preserves_bind; [|intros ?]
    | match goal with
      | |- preserves _ (if ?b then _ else _) => destruct b
      end ].
Qed.

Lemma handler_preserves (stackDepth : nat) (req : Request) (st : State) :
  P st -> P (snd (handler w stackDepth req st)).
Proof.
  intros HP. unfold handler.
  destruct (negb (String.eqb (method req) "POST")); [exact HP|].
  unfold catch.
  destruct (handler_try w stackDepth req st) as [[response|err] st'] eqn:H;
    simpl; eapply handler_try_preserves; eassumption.
Qed.

Lemma serve_preserves (stackDepth : nat) (reqs : list Request) :
  forall st, P st -> P (serve w stackDepth reqs st).
Proof.
  induction reqs as [|req reqs IH]; intros st HP; simpl; [exact HP|].
  apply IH, handler_preserves, HP.
Qed.
End HandlerInvariant.

(** [getTemplate] leaves the profile cache alone, [loadProfile] the
    template cache. *)
Lemma loadProfile_templateCache (w : World) (name : string) (st st' : State)
    (r : res JValue) :
  loadProfile w name st = (r, st') -> templateCache st' = templateCache st.
Proof.
  unfold loadProfile. intros H.
  destruct (profileCache st !! name); [injection H as _ <-; reflexivity|].
  destruct (negb (existsSync w (profilePath w name)));
    [injection H as _ <-; reflexivity|].
  destruct (readFileSync w (profilePath w name) ≫= JSON.parse);
    injection H as _ <-; reflexivity.
Qed.

Lemma loadProfile_coherent (w : World) (name : string) :
  preserves (profiles_coherent w) (loadProfile w name).
Proof.
  intros st r st' H HP. unfold loadProfile in H.
  destruct (profileCache st !! name) eqn:Hc; [injection H as _ <-; exact HP|].
  destruct (existsSync w (profilePath w name)) eqn:Hex; simpl in H;
    [|injection H as _ <-; exact HP].
  destruct (readFileSync w (profilePath w name) ≫= JSON.parse)
    as [profileData|e] eqn:Hrd; injection H as _ <-; [|exact HP].
  intros k v Hk. simpl in Hk.
  destruct (decide (name = k)) as [<-|Hne].
  - rewrite lookup_insert_eq in Hk. injection Hk as <-.
    split; [exact Hex | exact Hrd].
  - rewrite lookup_insert_ne in Hk by exact Hne. apply HP, Hk.
Qed.

Lemma serve_coherent (w : World) (stackDepth : nat) (reqs : list Request) :
  profiles_coherent w (serve w stackDepth reqs initial)
  /\ templates_coherent w (serve w stackDepth reqs initial).
Proof.
  split.
  - apply serve_preserves.
    + intros st n HP. exact HP.
    + apply loadProfile_coherent.
    + intros depth name st r st' H HP k v Hk.
      rewrite (getTemplate_profileCache _ _ _ _ _ _ H) in Hk. apply HP, Hk.
    + intros k v Hk. simpl in Hk. rewrite lookup_empty in Hk. discriminate Hk.
  - apply serve_preserves.
    + intros st n HP. exact HP.
    + intros name st r st' H HP k t Hk.
      rewrite (loadProfile_templateCache _ _ _ _ _ H) in Hk. apply HP, Hk.
    + intros depth name. apply getTemplate_coherent.
    + intros k t Hk. simpl in Hk. rewrite lookup_empty in Hk. discriminate Hk.
Qed.

(** X7: whatever requests were served, each cached profile is the parsed
    content of its record, and each cached template is filed under a key
    of the registry and is the compiled content of that key's file. *)
Theorem caches_coherent (w : World) (stackDepth : nat) (reqs : list Request) :
  profiles_coherent w (serve w stackDepth reqs initial)
  /\ templates_coherent w (serve w stackDepth reqs initial).
Proof. exact (serve_coherent w stackDepth reqs). Qed.

(** ** Reuse of compiled templates *)




(** X9: with the default layout installed, the template returned for a
    name that is not inherited from the object prototype is the compiled
    content of the file the name stands for, whatever the cache holds. *)
Theorem getTemplate_from_files (w : World) (stackDepth : nat)
    (reqs : list Request) (depth : nat) (templateName source : string) :
  existsSync w (default_path w) = true ->
  readFileSync w (path_join (cwd w) "templates" (chosen_file w templateName))
  = Ok source ->
  TEMPLATE_OPTIONS_get templateName <> Inherited templateName ->
  fst (getTemplate w (S (S depth)) templateName
         (serve w stackDepth reqs initial))
  = Ok (Handlebars_compile w source).
Proof.
  intros Hdef Hrd Hn.
  pose proof (proj2 (serve_coherent w stackDepth reqs)) as Hco.
  set (st := serve w stackDepth reqs initial) in *.
  destruct (resolved_own _ Hn) as (file & Hget & Hassoc).
  unfold chosen_file in Hrd. rewrite Hassoc in Hrd.
  rewrite getTemplate_S.
  destruct (templateCache st !! resolved templateName) as [cached|] eqn:Hc.
  { destruct (Hco _ _ Hc) as (file' & source' & Ha & Hex & Hr & ->).
    rewrite Hassoc in Ha. injection Ha as <-. rewrite Hex, Hr in Hrd.
    injection Hrd as <-. reflexivity. }
  rewrite Hget.
  destruct (existsSync w (path_join (cwd w) "templates" file)) eqn:Hex;
    cbn [negb].
  { rewrite Hrd. reflexivity. }
  rewrite getTemplate_S. change (resolved "default") with "default".
  destruct (templateCache st !! "default") as [cached|] eqn:Hd.
  { destruct (Hco _ _ Hd) as (file' & source' & Ha & Hex' & Hr & ->).
    injection Ha as <-. rewrite Hr in Hrd. injection Hrd as <-. reflexivity. }
  change (TEMPLATE_OPTIONS_get "default") with (Own "Resume.html").
  cbv beta iota. unfold default_path in Hdef. rewrite Hdef, Hrd. reflexivity.
Qed.

Lemma getTemplate_from_files_witness :
  fst (getTemplate Demo.calm 2 "elegant"
         (serve Demo.calm 5 [Demo.request "jane" "default"] initial))
  = Ok (Handlebars_compile Demo.calm "<html>{{name}}</html>").
Proof.
  apply (getTemplate_from_files Demo.calm 5 [Demo.request "jane" "default"]
           0 "elegant" "<html>{{name}}</html>").
  - reflexivity.
  - reflexivity.
  - discriminate.
Defined.

(** ** Profile store: no invalidation, falsy and broken records *)

(** X10: once a stored profile was loaded, later loads return the same
    value and change nothing, whatever the store holds by then. *)
Theorem loadProfile_never_reloads (w w' : World) (profileName : string)
    (st st' : State) (v : JValue) :
  stored w profileName = true ->
  loadProfile w profileName st = (Ok v, st') ->
  loadProfile w' profileName st' = (Ok v, st').
Proof.
  unfold stored, loadProfile. intros Hex H.
  destruct (profileCache st !! profileName) as [cached|] eqn:Hc.
  { injection H as <- <-. rewrite Hc. reflexivity. }
  rewrite Hex in H. simpl in H.
  destruct (readFileSync w (profilePath w profileName) ≫= JSON.parse)
    as [profileData|e]; [|discriminate H].
  injection H as <- <-. simpl. rewrite lookup_insert_eq. reflexivity.
Qed.

Lemma loadProfile_never_reloads_witness :
  let first := loadProfile Demo.calm "jane" initial in
  let emptied :=
    {| cwd := "/app"; existsSync := fun _ => false;
       readFileSync := fun _ => Throw (Error "ENOENT");
       Handlebars_compile := Handlebars_compile Demo.calm;
       isServerless := false; launch := fun _ => None; newPage := None;
       setContent := fun _ => None; pdf := pdf Demo.calm; close := None |} in
  loadProfile emptied "jane" (snd first) = first
  /\ fst (loadProfile emptied "jane" initial) = Ok JNull.
Proof.
  split; [|reflexivity].
  eapply (loadProfile_never_reloads Demo.calm _ "jane" initial).
  - reflexivity.
  - vm_compute. reflexivity.
Defined.

Lemma complete_fields (req : Request) :
  complete req = true ->
  method req = "POST"
  /\ missing (profile req) = false /\ missing (jd req) = false
  /\ missing (company req) = false /\ missing (role req) = false.
Proof.
  unfold complete. intros H.
  repeat (apply andb_true_iff in H as [H ?]).
  apply String.eqb_eq in H.
  repeat match goal with
         | Hn : negb _ = true |- _ => apply negb_true_iff in Hn
         end.
  repeat split; assumption.
Qed.

(** The handler up to the profile lookup. *)
Lemma handler_after_load (w : World) (stackDepth : nat) (req : Request)
    (st : State) :
  complete req = true ->
  handler w stackDepth req st
  = catch
      (profileData ← loadProfile w (default EmptyString (profile req));
       if negb (truthy profileData)
       then mret (send 404 (dq "Profile '" +:+
                            default EmptyString (profile req) +:+
                            dq "' not found"))
       else
         content ← lift (extractContent (default EmptyString (jd req)));
         resumeContent ← lift (parseContent content);
         _ ← lift (validateFields resumeContent);
         _ ← lift (logExperience resumeContent);
         compiledTemplate ←
           getTemplate w stackDepth (default "default" (template req));
         templateData ← lift (buildTemplateData profileData resumeContent);
         html ← lift (compiledTemplate templateData);
         pdfBuffer ← renderPdf w html;
         name ← lift (as_string (TemplateData.name templateData));
         mret (pdfResponse
                 (filename name (default EmptyString (company req))
                    (default EmptyString (role req)))
                 pdfBuffer)) st.
Proof.
  intros H. apply complete_fields in H as (Hm & Hp & Hj & Hc & Hr).
  unfold handler, handler_try. rewrite Hm, Hp, Hj, Hc, Hr. reflexivity.
Qed.

(** X11: a record whose content is a falsy JSON value is cached like
    any other, and the handler then answers 404 as for a missing one. *)
Theorem falsy_record_is_cached_and_404 (w : World) (stackDepth : nat)
    (req : Request) (profileName : string) (st : State) (v : JValue) :
  complete req = true ->
  profile req = Some profileName ->
  profileCache st !! profileName = None ->
  stored w profileName = true ->
  (readFileSync w (profilePath w profileName) ≫= JSON.parse) = Ok v ->
  truthy v = false ->
  handler w stackDepth req st
  = (send 404 (dq "Profile '" +:+ profileName +:+ dq "' not found"),
     set_profileCache (<[profileName := v]> (profileCache st)) st).
Proof.
  intros Hreq Hp Hc Hex Hrd Hv. rewrite handler_after_load by exact Hreq.
  rewrite Hp. simpl default. unfold catch, mbind at 1, M_bind at 1.
  unfold loadProfile at 1. unfold stored in Hex. rewrite Hc, Hex.
  change (readFileSync w (profilePath w profileName)
          ≫= (fun text => JSON.parse text))
    with (readFileSync w (profilePath w profileName) ≫= JSON.parse).
  rewrite Hrd. simpl. rewrite Hv. reflexivity.
Qed.

Lemma falsy_record_is_cached_and_404_witness :
  let w := with_file "/app/resumes/ghost.json" "null" Demo.calm in
  let out := handler w 5 (Demo.request "ghost" "default") initial in
  status (fst out) = 404%nat
  /\ profileCache (snd out) !! "ghost" = Some JNull.
Proof.
  intros w out. subst out.
  rewrite (falsy_record_is_cached_and_404 w 5 (Demo.request "ghost" "default")
             "ghost" initial JNull);
    [split; reflexivity | reflexivity | reflexivity | reflexivity
    | reflexivity | reflexivity | reflexivity].
Defined.

(** X12: a record that cannot be read or parsed makes the handler answer
    500 with the error's message; nothing is cached. *)
Theorem broken_record_is_500 (w : World) (stackDepth : nat)
    (req : Request) (profileName : string) (st : State) (e : exn) :
  complete req = true ->
  profile req = Some profileName ->
  profileCache st !! profileName = None ->
  stored w profileName = true ->
  (readFileSync w (profilePath w profileName) ≫= JSON.parse) = Throw e ->
  handler w stackDepth req st
  = (send 500 ("PDF generation failed: " +:+ message e), st).
Proof.
  intros Hreq Hp Hc Hex Hrd. rewrite handler_after_load by exact Hreq.
  rewrite Hp. simpl default. unfold catch, mbind at 1, M_bind at 1.
  unfold loadProfile at 1. unfold stored in Hex. rewrite Hc, Hex.
  change (readFileSync w (profilePath w profileName)
          ≫= (fun text => JSON.parse text))
    with (readFileSync w (profilePath w profileName) ≫= JSON.parse).
  rewrite Hrd. reflexivity.
Qed.

Lemma broken_record_is_500_witness :
  let w := with_file "/app/resumes/torn.json" "{" Demo.calm in
  handler w 5 (Demo.request "torn" "default") initial
  = (send 500 "PDF generation failed: Unexpected end of JSON input", initial).
Proof.
  intros w.
  apply (broken_record_is_500 w 5 (Demo.request "torn" "default") "torn"
           initial (SyntaxError "Unexpected end of JSON input"));
    reflexivity.
Defined.

(** ** What the handler answers, and what it leaves behind *)

Lemma triple_ret {A : Type} (P : State -> Prop) (a : A)
    (Q : A -> State -> Prop) (E : exn -> State -> Prop) :
  (forall st, P st -> Q a st) -> triple P (mret a) Q E.
Proof. intros H st HP. apply H, HP. Qed.

Lemma triple_lift {A : Type} (P : State -> Prop) (r : res A)
    (Q : A -> State -> Prop) (E : exn -> State -> Prop) :
  (forall st, P st ->
     match r with Ok a => Q a st | Throw e => E e st end) ->
  triple P (lift r) Q E.
Proof. intros H st HP. specialize (H st HP). unfold lift. destruct r; exact H. Qed.

Lemma triple_bind {A B : Type} (P : State -> Prop) (m : M A) (k : A -> M B)
    (R : A -> State -> Prop) (Q : B -> State -> Prop)
    (E : exn -> State -> Prop) :
  triple P m R E -> (forall a, triple (R a) (k a) Q E) ->
  triple P (m ≫= k) Q E.
Proof.
  intros Hm Hk st HP. specialize (Hm st HP).
  unfold mbind, M_bind. destruct (m st) as [[a|e] st1]; [|exact Hm].
  apply Hk, Hm.
Qed.

Lemma triple_weaken {A : Type} (P P' : State -> Prop) (m : M A)
    (Q Q' : A -> State -> Prop) (E E' : exn -> State -> Prop) :
  triple P' m Q' E' ->
  (forall st, P st -> P' st) ->
  (forall a st, Q' a st -> Q a st) ->
  (forall e st, E' e st -> E e st) ->
  triple P m Q E.
Proof.
  intros Hm HP HQ HE st Hst. specialize (Hm st (HP st Hst)).
  destruct (m st) as [[a|e] st1]; [apply HQ | apply HE]; exact Hm.
Qed.

(** A computation that keeps [P] however it ends. *)
Lemma triple_of_preserves {A : Type} (P : State -> Prop) (m : M A) :
  preserves P m -> triple P m (fun _ => P) (fun _ => P).
Proof.
  intros Hm st HP. destruct (m st) as [[a|e] st1] eqn:H;
    eapply Hm; eassumption.
Qed.

Section Sessions.
Variable w : World.
Variable n : nat.

Lemma loadProfile_sessions (name : string) :
  preserves (sessions_are n) (loadProfile w name).
Proof.
  intros st r st' H HP. unfold loadProfile in H.
  destruct (profileCache st !! name); [injection H as _ <-; exact HP|].
  destruct (negb (existsSync w (profilePath w name)));
    [injection H as _ <-; exact HP|].
  destruct (readFileSync w (profilePath w name) ≫= JSON.parse);
    injection H as _ <-; exact HP.
Qed.

Lemma getTemplate_sessions (depth : nat) :
  forall name, preserves (sessions_are n) (getTemplate w depth name).
Proof.
  induction depth as [|depth IH]; intros name st r st' H HP.
  - injection H as _ <-. exact HP.
  - rewrite getTemplate_S in H.
    destruct (templateCache st !! resolved name);
      [injection H as _ <-; exact HP|].
    destruct (TEMPLATE_OPTIONS_get (resolved name));
      try (injection H as _ <-; exact HP).
    destruct (negb (existsSync w _)); [eapply IH; eassumption|].
    destruct (readFileSync w _); injection H as _ <-; exact HP.
Qed.

(** The session is closed when printing succeeded, and may be left open
    when anything after the launch failed. *)
Lemma renderPdf_sessions (html : string) :
  triple (sessions_are n) (renderPdf w html)
    (fun _ => sessions_are n) (fun _ => at_most_one_more n).
Proof.
  intros st HP. unfold sessions_are in HP. unfold renderPdf, engine.
  unfold mbind, M_bind, sessionOpened, sessionClosed, lift, throw, mret, M_ret.
  destruct (launch w (isServerless w)); [left; exact HP|].
  destruct (newPage w); [right; simpl; congruence|].
  destruct (setContent w html); [right; simpl; congruence|].
  destruct (pdf w html); [|right; simpl; congruence].
  destruct (close w); [right; simpl; congruence|].
  unfold sessions_are. simpl. exact HP.
Qed.

Lemma handler_try_outcome (stackDepth : nat) (req : Request) :
  triple (sessions_are n) (handler_try w stackDepth req)
    (fun response st => answer req response /\ sessions_are n st)
    (fun _ => at_most_one_more n).
Proof.
  assert (Hkeep : forall (A : Type) (m : M A),
             preserves (sessions_are n) m ->
             triple (sessions_are n) m (fun _ => sessions_are n)
               (fun _ => at_most_one_more n)).
  { intros A m Hm. eapply triple_weaken; [apply triple_of_preserves, Hm|..];
      [trivial | trivial | intros e st H; left; exact H]. }
  assert (Hlift : forall (A : Type) (r : res A),
             triple (sessions_are n) (lift r) (fun _ => sessions_are n)
               (fun _ => at_most_one_more n)).
  { intros A r. apply Hkeep, preserves_lift. }
  assert (H400 : forall text,
             triple (sessions_are n) (mret (send 400 text))
               (fun response st => answer req response /\ sessions_are n st)
               (fun _ => at_most_one_more n)).
  { intros text. apply triple_ret. intros st HP. split; [|exact HP].
    left. split; reflexivity. }
  unfold handler_try.
  destruct (missing (profile req)); [apply H400|].
  destruct (missing (jd req)); [apply H400|].
  destruct (missing (company req)); [apply H400|].
  destruct (missing (role req)); [apply H400|].
  eapply triple_bind; [apply Hkeep, loadProfile_sessions|]. intros profileData.
  destruct (negb (truthy profileData)).
  { apply triple_ret. intros st HP. split; [|exact HP].
    right. left. split; reflexivity. }
  eapply triple_bind; [apply Hlift|]. intros content.
  eapply triple_bind; [apply Hlift|]. intros resumeContent.
  eapply triple_bind; [apply Hlift|]. intros ?.
  eapply triple_bind; [apply Hlift|]. intros ?.
  eapply triple_bind; [apply Hkeep, getTemplate_sessions|].
  intros compiledTemplate.
  eapply triple_bind; [apply Hlift|]. intros templateData.
  eapply triple_bind; [apply Hlift|]. intros html.
  eapply triple_bind; [apply renderPdf_sessions|]. intros pdfBuffer.
  eapply triple_bind; [apply Hlift|]. intros name.
  apply triple_ret. intros st HP. split; [|exact HP].
  right. right. exists name, pdfBuffer. reflexivity.
Qed.
End Sessions.

(** X13: the handler answers 200, 400, 404, 405 or 500; only a 200
    carries headers, and those announce a PDF attachment. *)
Theorem handler_statuses (w : World) (stackDepth : nat) (req : Request)
    (st : State) :
  let response := fst (handler w stackDepth req st) in
  In (status response) [200; 400; 404; 405; 500]%nat
  /\ (status response <> 200%nat -> headers response = [])
  /\ (status response = 200%nat ->
      header "Content-Type" response = Some "application/pdf"
      /\ exists file,
           header "Content-Disposition" response
           = Some (dq "attachment; filename='" +:+ file +:+ dq "'")
           /\ all_chars is_name_char file = true).
Proof.
  unfold handler.
  destruct (negb (String.eqb (method req) "POST")).
  { simpl. split; [tauto|]. split; [reflexivity | discriminate]. }
  pose proof (handler_try_outcome w (openSessions st) stackDepth req st
                eq_refl) as H.
  unfold catch.
  destruct (handler_try w stackDepth req st) as [[response|e] st'].
  - destruct H as [[[Hs Hh]|[[Hs Hh]|(name & pdfBuffer & ->)]] _]; simpl.
    + rewrite Hs. split; [simpl; tauto|].
      split; [intros _; exact Hh | discriminate].
    + rewrite Hs. split; [simpl; tauto|].
      split; [intros _; exact Hh | discriminate].
    + split; [tauto|]. split; [congruence|]. intros _.
      split; [reflexivity|]. eexists. split; [reflexivity|].
      apply filename_only_name_chars.
  - simpl. split; [tauto|]. split; [reflexivity | discriminate].
Qed.

(** X14: a response other than 500 leaves the number of open browser
    sessions as it was; a 500 leaves at most one more open. *)
Theorem handler_sessions (w : World) (stackDepth : nat) (req : Request)
    (st : State) :
  let out := handler w stackDepth req st in
  (status (fst out) <> 500%nat -> openSessions (snd out) = openSessions st)
  /\ (openSessions (snd out) = openSessions st
      \/ openSessions (snd out) = S (openSessions st)).
Proof.
  unfold handler.
  destruct (negb (String.eqb (method req) "POST")).
  { simpl. split; [reflexivity | left; reflexivity]. }
  pose proof (handler_try_outcome w (openSessions st) stackDepth req st
                eq_refl) as H.
  unfold catch.
  destruct (handler_try w stackDepth req st) as [[response|e] st']; simpl.
  - destruct H as [_ H]. split; [intros _; exact H | left; exact H].
  - split; [congruence | exact H].
Qed.

Lemma triple_any {A : Type} (P : State -> Prop) (m : M A) :
  triple P m (fun _ _ => True) (fun _ _ => True).
Proof. intros st _. destruct (m st) as [[a|e] st']; exact I. Qed.

(** X15: a 400 or a 405 is answered without touching the state. *)
Theorem rejected_request_changes_nothing (w : World) (stackDepth : nat)
    (req : Request) (st : State) :
  let out := handler w stackDepth req st in
  status (fst out) = 400%nat \/ status (fst out) = 405%nat ->
  snd out = st.
Proof.
  unfold handler.
  destruct (negb (String.eqb (method req) "POST")); [reflexivity|].
  assert (H : triple (fun s => s = st) (handler_try w stackDepth req)
                (fun response st' =>
                   status response = 400%nat \/ status response = 405%nat ->
                   st' = st)
                (fun _ _ => True)).
  { assert (H400 : forall text,
               triple (fun s => s = st) (mret (send 400 text))
                 (fun response st' =>
                    status response = 400%nat \/ status response = 405%nat ->
                    st' = st)
                 (fun _ _ => True)).
    { intros text. apply triple_ret. intros st' Hst _. exact Hst. }
    unfold handler_try.
    destruct (missing (profile req)); [apply H400|].
    destruct (missing (jd req)); [apply H400|].
    destruct (missing (company req)); [apply H400|].
    destruct (missing (role req)); [apply H400|].
    eapply triple_bind; [apply triple_any|]. intros profileData. cbv beta.
    destruct (negb (truthy profileData)).
    { apply triple_ret. intros st' _ [Hs|Hs]; discriminate Hs. }
    repeat (eapply triple_bind; [apply triple_any|]; intros ?; cbv beta).
    apply triple_ret. intros st' _ [Hs|Hs]; discriminate Hs. }
  specialize (H st eq_refl). unfold catch.
  destruct (handler_try w stackDepth req st) as [[response|e] st']; simpl.
  - exact H.
  - intros [Hs|Hs]; discriminate Hs.
Qed.

Lemma rejected_request_changes_nothing_witness :
  let st := serve Demo.calm 5 [Demo.request "jane" "default"] initial in
  snd (handler Demo.calm 5
         {| method := "POST"; profile := Some "jane"; jd := None;
            company := Some "Acme"; role := Some "Engineer";
            template := None |} st)
  = st.
Proof.
  intros st.
  apply (rejected_request_changes_nothing Demo.calm 5 _ st).
  left. reflexivity.
Defined.

(** *** The caches only grow *)

Lemma caches_kept_refl (st : State) : caches_kept st st.
Proof. split; reflexivity. Qed.

Lemma loadProfile_keeps (w : World) (st0 : State) (name : string) :
  preserves (caches_kept st0) (loadProfile w name).
Proof.
  intros st r st' H [Hp Ht]. unfold loadProfile in H.
  destruct (profileCache st !! name) eqn:Hc;
    [injection H as _ <-; split; assumption|].
  destruct (negb (existsSync w (profilePath w name)));
    [injection H as _ <-; split; assumption|].
  destruct (readFileSync w (profilePath w name) ≫= JSON.parse);
    injection H as _ <-; split; try assumption.
  simpl. etransitivity; [exact Hp|]. apply insert_subseteq. exact Hc.
Qed.

Lemma getTemplate_keeps (w : World) (st0 : State) (depth : nat) :
  forall name, preserves (caches_kept st0) (getTemplate w depth name).
Proof.
  induction depth as [|depth IH]; intros name st r st' H [Hp Ht].
  - injection H as _ <-. split; assumption.
  - rewrite getTemplate_S in H.
    destruct (templateCache st !! resolved name) eqn:Hc;
      [injection H as _ <-; split; assumption|].
    destruct (TEMPLATE_OPTIONS_get (resolved name));
      try (injection H as _ <-; split; assumption).
    destruct (negb (existsSync w _));
      [eapply IH; [eassumption | split; assumption]|].
    destruct (readFileSync w _); injection H as _ <-; split; try assumption.
    simpl. etransitivity; [exact Ht|]. apply insert_subseteq. exact Hc.
Qed.

(** X16: serving requests never removes or replaces a cache entry. *)
Theorem caches_only_grow (w : World) (stackDepth : nat)
    (reqs : list Request) (st : State) :
  caches_kept st (serve w stackDepth reqs st).
Proof.
  apply serve_preserves.
  - intros st' n H. exact H.
  - intros name. apply loadProfile_keeps.
  - intros depth name. apply getTemplate_keeps.
  - apply caches_kept_refl.
Qed.

(** ** The extracted span *)

Lemma indexOf_found (c : ascii) (s : string) :
  Str.indexOf c s = (-1)%Z
  \/ (0 <= Str.indexOf c s)%Z
     /\ String.get (Z.to_nat (Str.indexOf c s)) s = Some c.
Proof.
  induction s as [|d s IH]; [left; reflexivity|]. simpl.
  destruct (Ascii.eqb_spec d c) as [->|Hne]; [right; split; [lia | reflexivity]|].
  destruct IH as [->|[Hpos Hget]]; [left; reflexivity|].
  destruct (Str.indexOf c s =? -1)%Z eqn:Hm; [lia|].
  right. split; [lia|].
  replace (Z.to_nat (Str.indexOf c s + 1)) with (S (Z.to_nat (Str.indexOf c s)))
    by lia.
  exact Hget.
Qed.

Lemma lastIndexOf_found (c : ascii) (s : string) :
  Str.lastIndexOf c s = (-1)%Z
  \/ (0 <= Str.lastIndexOf c s)%Z
     /\ String.get (Z.to_nat (Str.lastIndexOf c s)) s = Some c.
Proof.
  induction s as [|d s IH]; [left; reflexivity|]. simpl.
  destruct IH as [->|[Hpos Hget]].
  - simpl. destruct (Ascii.eqb_spec d c) as [->|Hne];
      [right; split; [lia | reflexivity] | left; reflexivity].
  - destruct (Str.lastIndexOf c s =? -1)%Z eqn:Hm; [lia|].
    right. split; [lia|].
    replace (Z.to_nat (Str.lastIndexOf c s + 1))
      with (S (Z.to_nat (Str.lastIndexOf c s))) by lia.
    exact Hget.
Qed.

Lemma substring_head (n m : nat) (c : ascii) (s : string) :
  String.get n s = Some c ->
  exists t, String.substring n (S m) s = String c t.
Proof.
  revert s. induction n as [|n IH]; intros [|d s] H; try discriminate H.
  - simpl in H. injection H as ->. simpl. eauto.
  - simpl in H. simpl. apply IH, H.
Qed.

Lemma substring_last (n m : nat) (c : ascii) (s : string) :
  String.get (n + m) s = Some c ->
  ends_with c (String.substring n (S m) s) = true.
Proof.
  revert s m. induction n as [|n IH]; intros s m H.
  - revert s H. induction m as [|m IHm]; intros [|d s] H; try discriminate H.
    + simpl in H. injection H as ->. simpl.
      destruct s; simpl; apply Ascii.eqb_refl.
    + simpl in H. specialize (IHm s H).
      change (String.substring 0 (S (S m)) (String d s))
        with (String d (String.substring 0 (S m) s)).
      destruct (String.substring 0 (S m) s) eqn:Hs; [discriminate IHm|].
      exact IHm.
  - destruct s as [|d s]; [discriminate H|]. simpl in H. simpl.
    apply IH, H.
Qed.

Lemma extractContent_braced (jd content : string) :
  extractContent jd = Ok content ->
  (exists rest, content = String "{" rest) /\ ends_with "}" content = true.
Proof.
  unfold extractContent.
  set (text := Str.trim (replace_all re_fence (const EmptyString)
                 (replace_all re_fence_tagged (const EmptyString)
                    (Str.trim jd)))).
  destruct (indexOf_found "{" text) as [Hf|[Hf0 Hfget]];
    [rewrite Hf; discriminate|].
  destruct (lastIndexOf_found "}" text) as [Hl|[Hl0 Hlget]];
    [rewrite Hl, andb_false_r; discriminate|].
  destruct (Str.indexOf "{" text <? Str.lastIndexOf "}" text)%Z eqn:Hlt;
    [|rewrite andb_false_r; discriminate].
  apply Z.ltb_lt in Hlt.
  destruct (negb (Str.indexOf "{" text =? -1)%Z
            && negb (Str.lastIndexOf "}" text =? -1)%Z); [|discriminate].
  simpl. intros H. injection H as <-. unfold Str.substring.
  set (a := Str.indexOf "{" text) in *.
  set (b := Str.lastIndexOf "}" text) in *.
  replace (Z.to_nat (b + 1 - a)) with (S (Z.to_nat b - Z.to_nat a)) by lia.
  split.
  - apply substring_head. exact Hfget.
  - apply substring_last.
    replace (Z.to_nat a + (Z.to_nat b - Z.to_nat a))%nat with (Z.to_nat b)
      by lia.
    exact Hlget.
Qed.

(** X17: what [extractContent] returns begins with an opening brace and
    ends with a closing brace. *)
Theorem extracted_span_is_braced (jd content : string) :
  extractContent jd = Ok content ->
  (exists rest, content = String "{" rest) /\ ends_with "}" content = true.
Proof. exact (extractContent_braced jd content). Qed.

Lemma extracted_span_is_braced_witness :
  ends_with "}" (dq "{'title':'A'}") = true.
Proof.
  apply (extracted_span_is_braced
           (dq "Here it is: ```json {'title':'A'} ``` and that is all.")).
  vm_compute. reflexivity.
Defined.

(** ** Validation and the diagnostic loop *)

Lemma validateFields_Ok_iff (resumeContent : JValue) :
  validateFields resumeContent = Ok tt
  <-> (exists fields, resumeContent = JObj fields)
      /\ missingFields resumeContent = [].
Proof.
  assert (Hobj : forall fields,
             validateFields (JObj fields) = Ok tt
             <-> missingFields (JObj fields) = []).
  { intros fields. unfold validateFields, missingFields, required_fields.
    rewrite !filter_cons, filter_nil. cbv beta.
    cbn [get_prop mbind res_bind]. unfold get_opt.
    destruct (truthy (default JUndefined (lookup_field "title" fields)));
      [|split; discriminate].
    destruct (truthy (default JUndefined (lookup_field "summary" fields)));
      [|split; discriminate].
    destruct (truthy (default JUndefined (lookup_field "skills" fields)));
      [|split; discriminate].
    destruct (truthy (default JUndefined (lookup_field "experience" fields)));
      [|split; discriminate].
    split; reflexivity. }
  split.
  - intros H. destruct resumeContent; try discriminate H.
    split; [eauto | apply Hobj, H].
  - intros [[fields ->] H]. apply Hobj, H.
Qed.

(** X18: validation passes exactly for objects all four of whose
    required fields are truthy. *)
Theorem validateFields_passes_iff (resumeContent : JValue) :
  validateFields resumeContent = Ok tt
  <-> (exists fields, resumeContent = JObj fields)
      /\ missingFields resumeContent = [].
Proof. exact (validateFields_Ok_iff resumeContent). Qed.

Lemma validateFields_passes_iff_witness :
  validateFields
    (JObj [("title", JStr "A"); ("summary", JStr "B");
           ("skills", JObj []); ("experience", JArr [])])
  = Ok tt.
Proof.
  apply validateFields_passes_iff. split; [eauto | reflexivity].
Defined.




(** ** A [null] among the profile's jobs *)

Lemma mapJobs_throws (resumeContent : JValue) (subs jobs : list JValue) :
  get_prop resumeContent "experience" = Ok (JArr subs) ->
  Exists (fun job => nullish job = true) jobs ->
  forall idx, exists msg,
    mapJobs resumeContent jobs idx = Throw (TypeError msg).
Proof.
  intros Hexp. induction jobs as [|job jobs IH]; intros Hex idx;
    [inversion Hex|].
  simpl. destruct (nullish job) eqn:Hn.
  - destruct job; try discriminate Hn; simpl; eauto.
  - rewrite (mergeJob_ok _ subs) by assumption. cbn [mbind res_bind].
    inversion Hex as [? ? Hj|? ? Ht]; subst; [congruence|].
    destruct (IH Ht (S idx)) as [msg ->]. simpl. eauto.
Qed.

(** X20: the merge throws, with a [TypeError], exactly when one of the
    profile's jobs is [null]; it skips no entry. *)
Theorem merge_throws_iff_null_job
    (profileData resumeContent : JValue) (jobs subs : list JValue) :
  get_prop profileData "experience" = Ok (JArr jobs) ->
  get_prop resumeContent "experience" = Ok (JArr subs) ->
  (exists msg,
     mergeExperience profileData resumeContent = Throw (TypeError msg))
  <-> Exists (fun job => nullish job = true) jobs.
Proof.
  intros Hp Hr. split.
  - intros [msg Hm].
    assert (Hdec : forall job : JValue,
               {nullish job = false} + {nullish job = true})
      by (intros job; destruct (nullish job); [right | left]; reflexivity).
    destruct (Forall_Exists_dec _ _ Hdec jobs) as [Hall|Hex]; [|exact Hex].
    rewrite (mergeExperience_ok _ _ jobs subs) in Hm by assumption.
    discriminate Hm.
  - intros Hex. unfold mergeExperience. rewrite Hp. cbn [mbind res_bind].
    apply (mapJobs_throws _ subs); assumption.
Qed.

Lemma merge_throws_iff_null_job_witness :
  exists msg,
    mergeExperience
      (JObj [("experience", JArr [JObj [("company", JStr "Acme")]; JNull])])
      (JObj [("experience", JArr [])])
    = Throw (TypeError msg).
Proof.
  apply (merge_throws_iff_null_job _ _
           [JObj [("company", JStr "Acme")]; JNull] []);
    [reflexivity | reflexivity |].
  right. left. reflexivity.
Defined.

(** ** How normalization ends *)

Section BracedText.
Import JSON.

Lemma parse_members_object (depth : nat) :
  forall acc s v rest,
    parse_members depth acc s = POk (v, rest) -> exists fields, v = JObj fields.
Proof.
  induction depth as [|depth IH]; intros acc s v rest H; [discriminate H|].
  cbn [parse_members] in H.
  destruct (skip_ws s) as [|c t]; [discriminate H|].
  destruct (Ascii.eqb c Str.dquote); [|destruct t; discriminate H].
  destruct (lex_string t) as [[key rest0]|e]; cbn [mbind pres_bind] in H;
    [|discriminate H].
  destruct (after ":" (skip_ws rest0)) as [t1|];
    [|destruct (skip_ws rest0); discriminate H].
  destruct (parse_value depth t1) as [[v1 rest1]|e]; cbn [mbind pres_bind] in H;
    [|discriminate H].
  destruct (skip_ws rest1) as [|d t2]; [discriminate H|].
  destruct (Ascii.eqb d ","); [eapply IH; exact H|].
  destruct (Ascii.eqb d "}"); [|discriminate H].
  injection H as <- _. eauto.
Qed.

(** A text that begins with an opening brace parses to an object. *)
Lemma parse_braced_object (t : string) (v : JValue) :
  JSON.parse (String "{" t) = Ok v -> exists fields, v = JObj fields.
Proof.
  unfold JSON.parse, parse_text. intros H.
  destruct (parse_value (2 * String.length (String "{" t) + 2) (String "{" t))
    as [[v0 rest]|e] eqn:Hv; cbn [mbind pres_bind] in H;
    [|destruct e; discriminate H].
  destruct (skip_ws rest); [|discriminate H]. injection H as ->.
  remember (2 * String.length (String "{" t) + 2)%nat as depth eqn:Hd.
  destruct depth as [|depth]; [discriminate Hv|].
  cbn [parse_value] in Hv.
  change (skip_ws (String "{" t)) with (String "{" t) in Hv.
  change (Ascii.eqb "{" "{") with true in Hv. cbv iota in Hv.
  destruct (after "}" (skip_ws t)).
  - injection Hv as <- _. eauto.
  - eapply parse_members_object. exact Hv.
Qed.
End BracedText.

Lemma fixContent_head (t : string) :
  exists t', fixContent (String "{" t) = String "{" t'.
Proof.
  unfold fixContent, replace_all.
  rewrite (scan_0_cons re_trailing_comma), trailing_here.
  change (is_comma "{") with false. cbv iota.
  rewrite (scan_0_cons re_double_comma), double_here.
  change (is_comma "{") with false. cbv iota. eauto.
Qed.

Lemma parseContent_braced_object (t : string) (v : JValue) :
  parseContent (String "{" t) = Ok v -> exists fields, v = JObj fields.
Proof.
  unfold parseContent. intros H.
  destruct (JSON.parse (String "{" t)) as [v0|e] eqn:Hp.
  - injection H as <-. eapply parse_braced_object, Hp.
  - destruct (fixContent_head t) as [t' Hf]. rewrite Hf in H.
    destruct (JSON.parse (String "{" t')) as [v0|e'] eqn:Hp';
      [|discriminate H].
    injection H as <-. eapply parse_braced_object, Hp'.
Qed.

(** X21: normalization returns only objects whose four required fields
    are truthy, and fails only with one of three errors: no braced span,
    a text that does not parse (with the first parser's message), or
    missing fields.  No [TypeError] or [SyntaxError] leaves it. *)
Theorem normalize_outcomes (jd : string) :
  match normalize jd with
  | Ok resumeContent =>
      (exists fields, resumeContent = JObj fields)
      /\ missingFields resumeContent = []
  | Throw e =>
      e = Error ("Invalid JSON format. Please provide valid JSON " +:+
                 "with title, summary, skills, and experience fields.")
      \/ (exists content parseError,
            extractContent jd = Ok content
            /\ JSON.parse content = Throw parseError
            /\ e = Error ("Invalid JSON format: " +:+ message parseError +:+
                          ". Please check your JSON syntax."))
      \/ e = Error missing_fields_message
  end.
Proof.
  unfold normalize.
  destruct (extractContent jd) as [content|e] eqn:Hx; cbn [mbind res_bind].
  2: { left. unfold extractContent in Hx.
       destruct (_ && _) in Hx; [discriminate Hx|].
       injection Hx as <-. reflexivity. }
  destruct (extractContent_braced _ _ Hx) as [[t ->] _].
  destruct (parseContent (String "{" t)) as [resumeContent|e] eqn:Hp;
    cbn [mbind res_bind].
  2: { right. left. unfold parseContent in Hp.
       destruct (JSON.parse (String "{" t)) as [v|parseError] eqn:Hfirst;
         [discriminate Hp|].
       destruct (JSON.parse (fixContent (String "{" t))); [discriminate Hp|].
       injection Hp as <-. eauto. }
  destruct (parseContent_braced_object _ _ Hp) as [fields ->].
  destruct (validateFields (JObj fields)) as [[]|e] eqn:Hv;
    cbn [mbind res_bind].
  - apply validateFields_Ok_iff, Hv.
  - right. right. unfold validateFields in Hv.
    cbn [get_prop mbind res_bind] in Hv.
    repeat match type of Hv with
           | context [truthy ?v] => destruct (truthy v); cbn [negb] in Hv
           end;
      first [injection Hv as <-; reflexivity | discriminate Hv].
Qed.

(** ** What the repair leaves alone *)

Lemma drop_chars_app (p : ascii -> bool) (a b : string) :
  drop_chars p (a +:+ b) = drop_chars p a +:+ drop_chars p b.
Proof.
  induction a as [|c a IH]; [reflexivity|].
  rewrite app_cons. simpl. destruct (p c); [exact IH|].
  rewrite app_cons, IH. reflexivity.
Qed.

Lemma drop_chars_cons (p : ascii -> bool) (c : ascii) (a b : string) :
  drop_chars p a = drop_chars p b ->
  drop_chars p (String c a) = drop_chars p (String c b).
Proof. intros H. simpl. rewrite H. reflexivity. Qed.

Lemma drop_chars_skip (p : ascii -> bool) (c : ascii) (a : string) :
  p c = true -> drop_chars p (String c a) = drop_chars p a.
Proof. intros H. simpl. rewrite H. reflexivity. Qed.

Lemma drop_chars_all (p : ascii -> bool) (s : string) :
  all_chars p s = true -> drop_chars p s = EmptyString.
Proof. apply drop_chars_empty. Qed.

Lemma scan_keeps_bounded (p : ascii -> bool) (r : regex)
    (repl : option string -> string) :
  replaces_within p r repl ->
  forall n s at0,
    (String.length s <= n)%nat ->
    drop_chars p (scan r repl at0 0 s) = drop_chars p s.
Proof.
  intros Hr. induction n as [|n IH]; intros s at0 Hlen.
  - destruct s; [|simpl in Hlen; lia]. simpl.
    destruct (match_here r at0 EmptyString) as [[rest cap]|] eqn:Hm;
      [|reflexivity].
    destruct (Hr _ _ _ _ Hm) as (matched & Heq & Hdrop).
    destruct matched; [|discriminate Heq].
    rewrite drop_chars_app, Hdrop. reflexivity.
  - destruct s as [|c s]; [apply (IH EmptyString); simpl; lia|].
    rewrite scan_0_cons. simpl in Hlen.
    destruct (match_here r at0 (String c s)) as [[rest cap]|] eqn:Hm.
    + destruct (Hr _ _ _ _ Hm) as (matched & Heq & Hdrop).
      assert (Hn : (String.length (String c s) - String.length rest)%nat
                   = String.length matched)
        by (rewrite Heq, length_app; lia).
      rewrite Hn, drop_chars_app, Hdrop.
      destruct matched as [|d matched].
      * cbn [String.length].
        change (drop_chars p EmptyString +:+
                  drop_chars p (String c (scan r repl false 0 s))
                = drop_chars p (String c s)).
        change (EmptyString +:+ ?x) with x.
        apply drop_chars_cons. apply (IH s false). lia.
      * rewrite app_cons in Heq. injection Heq as <- ->.
        cbn [String.length]. rewrite scan_skip_prefix.
        rewrite (IH rest) by (rewrite length_app in Hlen; lia).
        rewrite <- drop_chars_app. reflexivity.
    + apply drop_chars_cons. apply (IH s false). lia.
Qed.

Lemma skip_class_split (p : ascii -> bool) (s : string) :
  exists run, s = run +:+ skip_class p s /\ all_chars p run = true.
Proof.
  induction s as [|c s (run & Heq & Hall)].
  - exists EmptyString. split; reflexivity.
  - simpl. destruct (p c) eqn:Hc.
    + exists (String c run). rewrite app_cons, <- Heq. split; [reflexivity|].
      simpl. rewrite Hc, Hall. reflexivity.
    + exists EmptyString. split; reflexivity.
Qed.

Lemma all_chars_space (ws : string) :
  all_chars Str.is_space ws = true ->
  all_chars is_comma_or_space ws = true.
Proof.
  apply all_chars_weaken. intros c Hc. unfold is_comma_or_space.
  rewrite Hc. apply orb_true_r.
Qed.

Lemma trailing_replaces_within :
  replaces_within is_comma_or_space re_trailing_comma group1.
Proof.
  intros at0 [|x t] rest cap H; [discriminate H|].
  rewrite trailing_here in H.
  destruct (is_comma x) eqn:Hx; [|discriminate H].
  destruct (skip_class_split Str.is_space t) as (ws & Heq & Hws).
  destruct (skip_class Str.is_space t) as [|c rest'] eqn:Hs; [discriminate H|].
  destruct (is_closer c); [|discriminate H].
  injection H as <- <-.
  exists (String x (ws +:+ String c EmptyString)).
  assert (Ht : t = (ws +:+ String c EmptyString) +:+ rest')
    by (rewrite app_assoc; exact Heq).
  split; [rewrite app_cons, <- Ht; reflexivity|].
  unfold group1. simpl default. rewrite Ht at 1. rewrite consumed_app.
  symmetry. apply drop_chars_skip. unfold is_comma_or_space.
  rewrite Hx. reflexivity.
Qed.

Lemma double_replaces_within :
  replaces_within is_comma_or_space re_double_comma (const ",").
Proof.
  intros at0 [|x t] rest cap H; [discriminate H|].
  rewrite double_here in H.
  destruct (is_comma x) eqn:Hx; [|discriminate H].
  destruct (skip_class_split Str.is_space t) as (ws & Heq & Hws).
  destruct (skip_class Str.is_space t) as [|c rest'] eqn:Hs; [discriminate H|].
  destruct (is_comma c) eqn:Hc; [|discriminate H].
  injection H as <- <-.
  exists (String x (ws +:+ String c EmptyString)).
  assert (Ht : t = (ws +:+ String c EmptyString) +:+ rest')
    by (rewrite app_assoc; exact Heq).
  split; [rewrite app_cons, <- Ht; reflexivity|].
  assert (Hx' : is_comma_or_space x = true)
    by (unfold is_comma_or_space; rewrite Hx; reflexivity).
  assert (Hc' : is_comma_or_space c = true)
    by (unfold is_comma_or_space; rewrite Hc; reflexivity).
  rewrite (drop_chars_skip _ x _ Hx'), drop_chars_app.
  rewrite (drop_chars_all _ _ (all_chars_space _ Hws)).
  rewrite app_nil, (drop_chars_skip _ c _ Hc'). reflexivity.
Qed.

(** X22: the repair touches nothing but commas and white space: the
    other characters of the text are kept, in order. *)
Theorem fixContent_keeps_text (content : string) :
  drop_chars is_comma_or_space (fixContent content)
  = drop_chars is_comma_or_space content.
Proof.
  unfold fixContent, replace_all.
  rewrite (scan_keeps_bounded _ _ _ double_replaces_within
             (String.length (scan re_trailing_comma group1 true 0 content)))
    by lia.
  apply (scan_keeps_bounded _ _ _ trailing_replaces_within
           (String.length content)). lia.
Qed.

(** ** The page and the handler together *)

Lemma bind_Ok {A B : Type} (m : M A) (k : A -> M B) (st st' : State) (b : B) :
  (m ≫= k) st = (Ok b, st') ->
  exists a s, m st = (Ok a, s) /\ k a s = (Ok b, st').
Proof.
  unfold mbind, M_bind. destruct (m st) as [[a|e] s]; intros H.
  - exists a, s. split; [reflexivity | exact H].
  - discriminate H.
Qed.

Lemma lift_Ok {A : Type} (r : res A) (st st' : State) (a : A) :
  lift r st = (Ok a, st') -> r = Ok a /\ st' = st.
Proof. unfold lift. intros H. injection H as -> ->. split; reflexivity. Qed.

Lemma res_bind_Ok {A B : Type} (r : res A) (k : A -> res B) (b : B) :
  r ≫= k = Ok b -> exists a, r = Ok a /\ k a = Ok b.
Proof.
  destruct r as [a|e]; intros H; [|discriminate H].
  exists a. split; [reflexivity | exact H].
Qed.

Lemma buildTemplateData_name (profileData resumeContent : JValue)
    (templateData : TemplateData.t) :
  buildTemplateData profileData resumeContent = Ok templateData ->
  get_prop profileData "name" = Ok (TemplateData.name templateData).
Proof.
  unfold buildTemplateData. intros H.
  apply res_bind_Ok in H as (name & Hname & H).
  repeat (apply res_bind_Ok in H as (? & _ & H)).
  injection H as <-. exact Hname.
Qed.

(** What a request that passes the checks is answered with. *)
Lemma complete_request_outcome (w : World) (stackDepth : nat) (req : Request)
    (st st' : State) (response : Response) :
  complete req = true ->
  handler w stackDepth req st = (response, st') ->
  status response = 500%nat
  \/ status response = 404%nat
  \/ exists profileData s name pdfBuffer,
       loadProfile w (default EmptyString (profile req)) st
       = (Ok profileData, s)
       /\ get_prop profileData "name" = Ok (JStr name)
       /\ response
          = pdfResponse
              (filename name (default EmptyString (company req))
                 (default EmptyString (role req)))
              pdfBuffer.
Proof.
  intros Hc. rewrite (handler_after_load _ _ _ _ Hc). unfold catch.
  match goal with
  | |- (match ?m st with _ => _ end) = _ -> _ =>
      destruct (m st) as [[r|e] s0] eqn:H
  end; intros Hr; injection Hr as <- <-; [|left; reflexivity].
  right.
  apply bind_Ok in H as (profileData & s & Hload & H).
  destruct (negb (truthy profileData)).
  { injection H as <- _. left. reflexivity. }
  right.
  apply bind_Ok in H as (content & s1 & _ & H).
  apply bind_Ok in H as (resumeContent & s2 & _ & H).
  apply bind_Ok in H as (? & s3 & _ & H).
  apply bind_Ok in H as (? & s4 & _ & H).
  apply bind_Ok in H as (compiledTemplate & s5 & _ & H).
  apply bind_Ok in H as (templateData & s6 & Hdata & H).
  apply bind_Ok in H as (html & s7 & _ & H).
  apply bind_Ok in H as (pdfBuffer & s8 & _ & H).
  apply bind_Ok in H as (name & s9 & Hname & H).
  apply lift_Ok in Hdata as [Hdata _]. apply lift_Ok in Hname as [Hname _].
  apply buildTemplateData_name in Hdata.
  destruct (TemplateData.name templateData) as [| |?|? ?|n|?|?];
    try discriminate Hname.
  injection Hname as ->. injection H as <- _.
  exists profileData, s, name, pdfBuffer. repeat split; assumption.
Qed.

Lemma buildRequest_fields (ui : Client.Ui) (req : Request) :
  Client.buildRequest ui = Ok req ->
  complete req = true
  /\ profile req = Some (Client.selectedProfile ui)
  /\ company req = Some (Client.company ui)
  /\ role req = Some (Client.role ui).
Proof.
  unfold Client.buildRequest, complete.
  destruct (String.eqb (Client.selectedProfile ui) EmptyString) eqn:H1;
    [discriminate|].
  destruct (String.eqb (Client.jd ui) EmptyString) eqn:H2; [discriminate|].
  destruct (String.eqb (Client.company ui) EmptyString) eqn:H3;
    [discriminate|].
  destruct (String.eqb (Client.role ui) EmptyString) eqn:H4; [discriminate|].
  intros H. injection H as <-. unfold post.
  cbn [method profile jd company role missing].
  rewrite H1, H2, H3, H4. repeat split; reflexivity.
Qed.

(** X23: a request the page sends is never answered 400 or 405: its
    checks are those of the handler. *)
Theorem page_request_passes_checks (w : World) (stackDepth : nat)
    (ui : Client.Ui) (req : Request) (st : State) :
  Client.buildRequest ui = Ok req ->
  In (status (fst (handler w stackDepth req st))) [200; 404; 500]%nat.
Proof.
  intros H. apply buildRequest_fields in H as (Hc & _).
  destruct (handler w stackDepth req st) as [response st'] eqn:Hh.
  destruct (complete_request_outcome _ _ _ _ _ _ Hc Hh)
    as [Hs | [Hs | (pd & s & name & buf & _ & _ & ->)]]; cbn [fst].
  - rewrite Hs. simpl. tauto.
  - rewrite Hs. simpl. tauto.
  - simpl. tauto.
Qed.

Lemma page_request_passes_checks_witness :
  Client.buildRequest demo_ui = Ok (Demo.request "jane" "default")
  /\ In (status (fst (handler Demo.calm 5 (Demo.request "jane" "default")
                        initial)))
       [200; 404; 500]%nat.
Proof.
  split; [reflexivity|].
  apply (page_request_passes_checks Demo.calm 5 demo_ui). reflexivity.
Defined.

Lemma readResponse_failed (toString : JValue -> res string)
    (response : Response) :
  Client.ok response = false ->
  Client.readResponse toString response
  = Throw (Error (Client.or_default (body response))).
Proof.
  intros H. unfold Client.readResponse. rewrite H. cbn [negb].
  destruct (JSON.parse (body response)) as [errorJson|e]; [|reflexivity].
  cbn [mbind res_bind].
  destruct (get_prop errorJson "error") as [detail|e]; [|reflexivity].
  cbn [mbind res_bind].
  destruct (toString (or_else detail (JStr "Failed to generate PDF")));
    reflexivity.
Qed.

(** X24: whatever a failed response holds, the page reports its text as
    it is (or the fixed message when it is empty): the [error] field of
    a JSON body is never what is shown. *)
Theorem page_error_is_response_text (toString : JValue -> res string)
    (response : Response) :
  Client.ok response = false ->
  Client.readResponse toString response
  = Throw (Error (Client.or_default (body response))).
Proof. apply readResponse_failed. Qed.

Lemma page_error_is_response_text_witness :
  let response := send 500 (dq "{'error':'disk full'}") in
  Client.ok response = false
  /\ JSON.parse (body response)
     = Ok (JObj [("error", JStr "disk full")])
  /\ Client.readResponse as_string response
     = Throw (Error (dq "{'error':'disk full'}")).
Proof.
  split; [reflexivity|]. split; [vm_compute; reflexivity|].
  apply (page_error_is_response_text as_string
           (send 500 (dq "{'error':'disk full'}"))).
  reflexivity.
Defined.

(** The bodies of the handler's failed responses are not empty. *)
Lemma handler_try_body (w : World) (stackDepth : nat) (req : Request) :
  triple (fun _ => True) (handler_try w stackDepth req)
    (fun response _ =>
       status response = 200%nat
       \/ (Client.ok response = false /\ body response <> EmptyString))
    (fun _ _ => True).
Proof.
  assert (H400 : forall text,
             text <> EmptyString ->
             triple (fun _ => True) (mret (send 400 text))
               (fun response _ =>
                  status response = 200%nat
                  \/ (Client.ok response = false
                      /\ body response <> EmptyString))
               (fun _ _ => True)).
  { intros text Ht. apply triple_ret. intros st _. right.
    split; [reflexivity | exact Ht]. }
  unfold handler_try.
  destruct (missing (profile req)); [apply H400; discriminate|].
  destruct (missing (jd req)); [apply H400; discriminate|].
  destruct (missing (company req)); [apply H400; discriminate|].
  destruct (missing (role req)); [apply H400; discriminate|].
  eapply triple_bind; [apply triple_any|]. intros profileData. cbv beta.
  destruct (negb (truthy profileData)).
  { apply triple_ret. intros st _. right. split; [reflexivity|].
    cbn [send body]. discriminate. }
  repeat (eapply triple_bind; [apply triple_any|]; intros ?; cbv beta).
  apply triple_ret. intros st _. left. reflexivity.
Qed.

(** X25: of every response of the handler but a 200, the page reports
    the body; of a 200, it takes the body as the document. *)
Theorem page_reads_handler_response (w : World) (stackDepth : nat)
    (req : Request) (st : State) (toString : JValue -> res string) :
  let response := fst (handler w stackDepth req st) in
  Client.readResponse toString response
  = if Nat.eqb (status response) 200
    then Ok (body response)
    else Throw (Error (body response)).
Proof.
  cbv zeta.
  assert (H : let response := fst (handler w stackDepth req st) in
              (status response = 200%nat)
              \/ (Client.ok response = false
                  /\ body response <> EmptyString)).
  { unfold handler.
    destruct (negb (String.eqb (method req) "POST")).
    { right. split; [reflexivity | discriminate]. }
    unfold catch. pose proof (handler_try_body w stackDepth req st I) as H.
    destruct (handler_try w stackDepth req st) as [[response|e] st'].
    - exact H.
    - right. split; [reflexivity | discriminate]. }
  cbv zeta in H. destruct H as [H | [Hok Hbody]].
  - rewrite H. unfold Client.readResponse, Client.ok. rewrite H. reflexivity.
  - rewrite (readResponse_failed _ _ Hok).
    assert (Hs : Nat.eqb (status (fst (handler w stackDepth req st))) 200
                 = false).
    { unfold Client.ok in Hok. apply Nat.eqb_neq. intros Hs.
      rewrite Hs in Hok. discriminate Hok. }
    rewrite Hs. unfold Client.or_default.
    destruct (String.eqb (body (fst (handler w stackDepth req st)))
                EmptyString) eqn:He; [|reflexivity].
    apply String.eqb_eq in He. contradiction.
Qed.

Lemma has_id_truthy (selected : string) (p : JValue) :
  Client.has_id selected p = Ok true -> truthy p = true.
Proof.
  unfold Client.has_id. destruct p; try discriminate; try reflexivity.
Qed.

Lemma find_Some (selected : string) (profiles : list JValue) (p : JValue) :
  Client.find selected profiles = Ok (Some p) ->
  In p profiles /\ Client.has_id selected p = Ok true.
Proof.
  induction profiles as [|q rest IH]; [discriminate|].
  cbn [Client.find].
  destruct (Client.has_id selected q) as [[|]|e] eqn:Hq; intros H.
  - injection H as <-. split; [left; reflexivity | exact Hq].
  - destruct (IH H) as [Hin Hid]. split; [right; exact Hin | exact Hid].
  - discriminate H.
Qed.

(** X26: when the listing has the selected profile under the name its
    record has, the file name the page saves a served document under is
    the one the handler announces. *)
Theorem page_filename_is_served_filename (w : World) (stackDepth : nat)
    (ui : Client.Ui) (req : Request) (st st' s : State)
    (response : Response) (p profileData : JValue) :
  Client.buildRequest ui = Ok req ->
  handler w stackDepth req st = (response, st') ->
  status response = 200%nat ->
  Client.find (Client.selectedProfile ui) (Client.profiles ui)
  = Ok (Some p) ->
  loadProfile w (Client.selectedProfile ui) st = (Ok profileData, s) ->
  get_prop p "name" = get_prop profileData "name" ->
  exists file,
    Client.getFilename ui = Ok file
    /\ header "Content-Disposition" response
       = Some (dq "attachment; filename='" +:+ file +:+ dq "'").
Proof.
  intros Hreq Hh Hs Hfind Hload Hname.
  apply buildRequest_fields in Hreq as (Hc & Hp & Hco & Hro).
  destruct (complete_request_outcome _ _ _ _ _ _ Hc Hh)
    as [H | [H | (pd & s1 & name & buf & Hload' & Hn & ->)]];
    [rewrite H in Hs; discriminate Hs | rewrite H in Hs; discriminate Hs |].
  rewrite Hp in Hload'.
  change (loadProfile w (Client.selectedProfile ui) st = (Ok pd, s1))
    in Hload'.
  rewrite Hload in Hload'. injection Hload' as <- _.
  rewrite Hco, Hro.
  exists (filename name (Client.company ui) (Client.role ui)).
  split; [|reflexivity].
  unfold Client.getFilename. rewrite Hfind. cbn [mbind res_bind].
  rewrite (has_id_truthy _ _ (proj2 (find_Some _ _ _ Hfind))).
  rewrite Hname, Hn. reflexivity.
Qed.

Lemma page_filename_is_served_filename_witness :
  let out := handler Demo.calm 5 (Demo.request "jane" "default") initial in
  Client.getFilename demo_ui = Ok "Jane_Doe_Acme_Inc_Sr_Eng.pdf"
  /\ exists file,
       Client.getFilename demo_ui = Ok file
       /\ header "Content-Disposition" (fst out)
          = Some (dq "attachment; filename='" +:+ file +:+ dq "'").
Proof.
  split; [vm_compute; reflexivity|].
  pose (loaded := loadProfile Demo.calm "jane" initial).
  eapply (page_filename_is_served_filename Demo.calm 5 demo_ui
            (Demo.request "jane" "default") initial _ (snd loaded) _ _
            (match fst loaded with Ok v => v | Throw _ => JNull end)).
  - reflexivity.
  - apply surjective_pairing.
  - vm_compute. reflexivity.
  - vm_compute. reflexivity.
  - vm_compute. reflexivity.
  - vm_compute. reflexivity.
Defined.
